(** * Duplication-detection core: fingerprinting, similarity, alerting

    A shallow embedding of the three services of the dataset-duplication
    dashboard that carry algorithmic content:

    - [DatasetFingerprintingService]  (lib/services/fingerprinting.ts)
    - [SimilarityAnalysisService]     (lib/services/similarity.ts)
    - [DuplicationDetectionService]   (lib/services/detection.ts)

    Modelling conventions.

    - A JavaScript [number] has two readings.  In
      [SimilarityAnalysisService] it is a mathematical real ([R]); the
      statements made there are identities between formulas, comparisons
      with thresholds and quotients of set sizes.  In [Doubles] the same
      functions are written over IEEE 754 binary64 values ([float]), with
      rounding, overflow to [Infinity] and [NaN]; what depends on them is
      stated and evaluated there.
    - A [string] is a sequence of 8-bit code units.
    - A [Set<string>] is a [gset string]; only membership and [size] of a
      set are ever observed by the code.
    - A [Record<string, string>] is the list of its own entries in
      enumeration order ([Object.entries]).
    - A [Map<string, Dataset>] is an association list in insertion order,
      which is the order in which [for ... of] visits it.
    - A [Date] is its time value, the number of milliseconds since the
      epoch, as an integer; an invalid Date has none.  [Retention] spells
      out [getDate] and [setDate] in local time, the time zone being an
      input.
    - The collation behind [localeCompare], the digest function, the clock
      and the random generator are inputs of the operations that read
      them. *)

From Stdlib Require Import Floats.
From Stdlib Require Import Reals Lra Lia ZArith String Ascii List.
From Stdlib Require Import Permutation Sorted DecimalString.
From stdpp Require Import base gmap sets list strings.

Open Scope R_scope.

(** ** Data model (lib/types/dataset.ts) *)

(** [Record<string, string>]: own enumerable entries, in enumeration order. *)
Definition JsRecord : Type := list (string * string).

(** [Object.keys(r)] *)
Definition Object_keys (r : JsRecord) : list string := map fst r.

(** [Object.entries(r)] *)
Definition Object_entries (r : JsRecord) : list (string * string) := r.

(** [r[key]]: the value of the own property [key], [None] for [undefined]. *)
Fixpoint getProperty (r : JsRecord) (key : string) : option string :=
  match r with
  | [] => None
  | (k, v) :: r' => if decide (k = key) then Some v else getProperty r' key
  end.

(** A JavaScript object has one entry per key. *)
Definition wfRecord (r : JsRecord) : Prop := NoDup (Object_keys r).

(** [Date]: time value in milliseconds. *)
Definition Date : Type := Z.

Module SimilarityMetrics.
Record t : Type := mk {
  jaccard : R;
  cosine : R;
  structural : R;
  semantic : R;
  confidence : R
}.
End SimilarityMetrics.

Module QualityMetrics.
Record t : Type := mk {
  completeness : R;
  consistency : R;
  accuracy : R;
  freshness : R;
  validity : R
}.
End QualityMetrics.

Module ProvenanceInfo.
Record t : Type := mk {
  sourceUrl : string;
  downloadedAt : Date;
  transformations : list string;
  lineage : list string;
  quality : QualityMetrics.t
}.
End ProvenanceInfo.

Module DatasetMetadata.
Record t : Type := mk {
  title : string;
  description : string;
  author : string;
  organization : string;
  version : string;
  doi : option string;
  license : string;
  tags : list string;
  columnCount : R;
  rowCount : R;
  dataTypes : JsRecord;
  provenance : ProvenanceInfo.t
}.
End DatasetMetadata.

Module DatasetFingerprint.
Record t : Type := mk {
  contentHash : string;
  schemaHash : string;
  statisticalHash : string;
  merkleRoot : option string;
  bloomFilter : option string;
  similarity : option SimilarityMetrics.t
}.
End DatasetFingerprint.

Module Dataset.
Record t : Type := mk {
  id : string;
  name : string;
  source : string;
  size : R;
  format : string;
  createdAt : Date;
  modifiedAt : Date;
  fingerprint : DatasetFingerprint.t;
  metadata : DatasetMetadata.t
}.
End Dataset.

(** The result of [isDuplicate]: ["exact" | "similar" | "potential" | "none"].
    An alert's [type] is one of the first three. *)
Inductive DuplicationType : Type :=
  | TypeExact
  | TypeSimilar
  | TypePotential
  | TypeNone.

Module DuplicationAlert.
Record t : Type := mk {
  id : string;
  type : DuplicationType;
  confidence : R;
  originalDataset : Dataset.t;
  duplicateDataset : Dataset.t;
  similarities : SimilarityMetrics.t;
  recommendation : string;
  createdAt : Date
}.
End DuplicationAlert.

(** ** JavaScript built-ins used by the services *)

(** [Array.prototype.reduce((acc, a, i) => ..., init)], left to right, the
    callback receiving the index. *)
Fixpoint reduceFrom {A B : Type} (f : B -> A -> nat -> B) (i : nat) (l : list A) (acc : B) : B :=
  match l with
  | [] => acc
  | a :: l' => reduceFrom f (S i) l' (f acc a i)
  end.

Definition reduce {A B : Type} (f : B -> A -> nat -> B) (l : list A) (init : B) : B :=
  reduceFrom f 0 l init.

(** [new Set(list)] *)
Definition newSet (l : list string) : gset string := list_to_set l.

(** [new Set([...set1].filter((x) => set2.has(x)))] *)
Definition filterHas (set1 set2 : gset string) : gset string :=
  filter (fun x => x ∈ set2) set1.

(** [\s] on 8-bit code units: TAB, LF, VT, FF, CR, SPACE and NBSP. *)
Definition isWhiteSpace (c : ascii) : bool :=
  let n := nat_of_ascii c in
  ((9 <=? n) && (n <=? 13) || (n =? 32) || (n =? 160))%nat.

(** [String.prototype.toLowerCase] on 8-bit code units: A-Z, and the
    Latin-1 capitals U+00C0-U+00DE other than the multiplication sign. *)
Definition lowerChar (c : ascii) : ascii :=
  let n := nat_of_ascii c in
  if ((65 <=? n) && (n <=? 90) || (192 <=? n) && (n <=? 222) && negb (n =? 215))%nat
  then ascii_of_nat (n + 32)
  else c.

Fixpoint toLowerCase (s : string) : string :=
  match s with
  | EmptyString => EmptyString
  | String c s' => String (lowerChar c) (toLowerCase s')
  end.

(** [s.split(/\s+/)]: the pieces between maximal runs of white space.
    [cur] is the piece being read, [inSep] tells whether the previous code
    unit was white space.  The last piece is always emitted, so the result
    of splitting the empty string is the one-element list of the empty
    string. *)
Fixpoint splitFrom (s : string) (cur : string) (inSep : bool) : list string :=
  match s with
  | EmptyString => [cur]
  | String c s' =>
      if isWhiteSpace c
      then (if inSep then splitFrom s' cur true else cur :: splitFrom s' EmptyString true)
      else splitFrom s' (cur +:+ String c EmptyString) false
  end.

Definition splitWhiteSpace (s : string) : list string := splitFrom s EmptyString false.

(** [String(n)] for an integer time value. *)
Definition showInt (z : Z) : string := NilZero.string_of_int (Z.to_int z).

(** [Array.prototype.join(sep)] *)
Fixpoint join (sep : string) (l : list string) : string :=
  match l with
  | [] => EmptyString
  | [x] => x
  | x :: l' => x +:+ sep +:+ join sep l'
  end.

(** [Array.prototype.sort(cmp)]: a stable sort; [cmp a b] is the sign of the
    comparator's result.  Stable insertion: an element is placed after the
    elements it does not precede. *)
Fixpoint insertSorted {A : Type} (cmp : A -> A -> comparison) (x : A) (l : list A) : list A :=
  match l with
  | [] => [x]
  | y :: l' =>
      match cmp x y with
      | Lt => x :: y :: l'
      | _ => y :: insertSorted cmp x l'
      end
  end.

Definition sortBy {A : Type} (cmp : A -> A -> comparison) (l : list A) : list A :=
  foldl (fun acc x => insertSorted cmp x acc) [] l.

(** [String(i)] for a loop counter. *)
Definition showNat (i : nat) : string := showInt (Z.of_nat i).

(** The value of a hexadecimal digit, in either case. *)
Definition hexDigitValue (c : ascii) : option Z :=
  let n := nat_of_ascii c in
  if ((48 <=? n) && (n <=? 57))%nat then Some (Z.of_nat (n - 48))
  else if ((97 <=? n) && (n <=? 102))%nat then Some (Z.of_nat (n - 87))
  else if ((65 <=? n) && (n <=? 70))%nat then Some (Z.of_nat (n - 55))
  else None.

(** The value of the longest prefix of hexadecimal digits of [s], read after
    the digits of value [acc]; [seen] tells whether a digit was read. *)
Fixpoint parseHexDigits (s : string) (acc : Z) (seen : bool) : option Z :=
  match s with
  | EmptyString => if seen then Some acc else None
  | String c s' =>
      match hexDigitValue c with
      | Some d => parseHexDigits s' (16 * acc + d)%Z true
      | None => if seen then Some acc else None
      end
  end.

(** Leading white space removed. *)
Fixpoint trimStart (s : string) : string :=
  match s with
  | EmptyString => EmptyString
  | String c s' => if isWhiteSpace c then trimStart s' else s
  end.

(** [Number.parseInt(s, 16)]: leading white space, an optional sign, an
    optional [0x] or [0X], then the longest run of hexadecimal digits;
    [None] is [NaN].  The integers read here have at most eight digits and
    are exact. *)
Definition parseIntHex (s : string) : option Z :=
  let s1 := trimStart s in
  let '(negative, s2) :=
    match s1 with
    | String c r =>
        if decide (c = "-"%char) then (true, r)
        else if decide (c = "+"%char) then (false, r)
        else (false, s1)
    | EmptyString => (false, s1)
    end in
  let s3 :=
    match s2 with
    | String c0 (String c1 r) =>
        if decide (c0 = "0"%char /\ (c1 = "x"%char \/ c1 = "X"%char)) then r else s2
    | _ => s2
    end in
  match parseHexDigits s3 0%Z false with
  | Some v => Some (if negative then (- v)%Z else v)
  | None => None
  end.

(** ** lib/services/fingerprinting.ts *)

Module DatasetFingerprintingService.

Section Digest.

(** [crypto.createHash("sha256").update(s).digest("hex")] *)
Variable sha256Hex : string -> string.

(** The sign of [a.localeCompare(b)] in the collation of the platform's
    default locale.  That collation is not the order of code units, and it
    gives [Eq] for some pairs of different strings. *)
Variable localeCompare : string -> string -> comparison.

Definition generateContentHash (content : string) : string := sha256Hex content.

(** The string that [generateSchemaHash] digests. *)
Definition schemaString (schema : JsRecord) : string :=
  join "|"
    (map (fun '(key, type) => key +:+ ":" +:+ type)
       (sortBy (fun a b => localeCompare (fst a) (fst b)) (Object_entries schema))).

Definition generateSchemaHash (schema : JsRecord) : string :=
  sha256Hex (schemaString schema).

(** One pass of the loop of [generateMerkleRoot]: adjacent chunks are
    digested in pairs; [chunks[i + 1] || left] takes the left chunk when the right
    chunk is missing and also when it is the empty string. *)
Fixpoint nextLevel (chunks : list string) : list string :=
  match chunks with
  | [] => []
  | [left_] => [sha256Hex (left_ +:+ left_)]
  | left_ :: next :: rest =>
      let right_ := if decide (next = EmptyString) then left_ else next in
      sha256Hex (left_ +:+ right_) :: nextLevel rest
  end.

(** The recursion of [generateMerkleRoot], with one unit of [fuel] per
    level; a level has about half the chunks of the one before, so fuel
    equal to the number of chunks is never used up. *)
Fixpoint merkleLevels (fuel : nat) (chunks : list string) : string :=
  match chunks with
  | [] => EmptyString
  | [chunk] => chunk
  | _ =>
      match fuel with
      | O => EmptyString
      | S fuel' => merkleLevels fuel' (nextLevel chunks)
      end
  end.

Definition generateMerkleRoot (chunks : list string) : string :=
  merkleLevels (length chunks) chunks.

(** The cell of the bit array that the [i]-th digest of [item] selects:
    [Number.parseInt(hash.substring(0, 8), 16) % size].  [None] stands for
    a result that is not an index of the array ([NaN] or a negative
    number): the assignment then leaves the cells as they are. *)
Definition bloomIndex (size : nat) (item : string) (i : nat) : option nat :=
  let hash := sha256Hex (item +:+ showNat i) in
  match parseIntHex (substring 0 8 hash) with
  | None => None
  | Some v =>
      if decide (size = 0%nat) then None
      else
        let r := Z.rem v (Z.of_nat size) in
        if decide (0 <= r)%Z then Some (Z.to_nat r) else None
  end.

(** [bitArray[index] = 1]; a cell holds 0 ([false]) or 1 ([true]). *)
Definition setBit (bitArray : list bool) (index : option nat) : list bool :=
  match index with
  | Some j => <[j := true]> bitArray
  | None => bitArray
  end.

(** The inner [for] loop, for one item. *)
Definition addItem (size hashCount : nat) (bitArray : list bool) (item : string) : list bool :=
  foldl (fun bits i => setBit bits (bloomIndex size item i)) bitArray (seq 0 hashCount).

(** The bit array after the [forEach]. *)
Definition bloomBits (items : list string) (size hashCount : nat) : list bool :=
  foldl (addItem size hashCount) (replicate size false) items.

Definition bitChar (b : bool) : string := if b then "1" else "0".

Definition createBloomFilter (items : list string) (size hashCount : nat) : string :=
  join EmptyString (map bitChar (bloomBits items size hashCount)).

End Digest.

End DatasetFingerprintingService.

(** ** lib/services/similarity.ts *)

Module Thresholds.
Record t : Type := mk {
  exact : R;
  similar : R;
  potential : R
}.
End Thresholds.

Module SimilarityAnalysisService.

Definition calculateJaccardSimilarity (set1 set2 : gset string) : R :=
  let intersection := filterHas set1 set2 in
  let union := set1 ∪ set2 in
  if decide (size union = 0%nat) then 0
  else INR (size intersection) / INR (size union).

(** [vector2[i]]: the guard on the lengths keeps [i] within range, the
    default is never read. *)
Definition dotProduct (vector1 vector2 : list R) : R :=
  reduce (fun sum a i => sum + a * nth i vector2 0) vector1 0.

Definition magnitude (vector : list R) : R :=
  sqrt (reduce (fun sum a _ => sum + a * a) vector 0).

Definition calculateCosineSimilarity (vector1 vector2 : list R) : R :=
  if decide (length vector1 ≠ length vector2) then 0
  else
    let magnitude1 := magnitude vector1 in
    let magnitude2 := magnitude vector2 in
    if Req_dec_T magnitude1 0 then 0
    else if Req_dec_T magnitude2 0 then 0
    else dotProduct vector1 vector2 / (magnitude1 * magnitude2).

(** The counter [typeMatches] after the [forEach] over the common keys. *)
Definition typeMatches (schema1 schema2 : JsRecord) (commonKeys : gset string) : nat :=
  size (filter (fun key => getProperty schema1 key = getProperty schema2 key) commonKeys).

Definition keysSimilarity (commonKeys allKeys : gset string) : R :=
  INR (size commonKeys) / INR (size allKeys).

Definition typesSimilarity (schema1 schema2 : JsRecord) (commonKeys : gset string) : R :=
  if decide (size commonKeys = 0%nat) then 0
  else INR (typeMatches schema1 schema2 commonKeys) / INR (size commonKeys).

Definition calculateStructuralSimilarity (schema1 schema2 : JsRecord) : R :=
  let keys1 := newSet (Object_keys schema1) in
  let keys2 := newSet (Object_keys schema2) in
  let commonKeys := filterHas keys1 keys2 in
  let allKeys := keys1 ∪ keys2 in
  if decide (size allKeys = 0%nat) then 1
  else (keysSimilarity commonKeys allKeys + typesSimilarity schema1 schema2 commonKeys) / 2.

Definition extractFeatureVector (dataset : Dataset.t) : list R :=
  let m := Dataset.metadata dataset in
  let q := ProvenanceInfo.quality (DatasetMetadata.provenance m) in
  [ Dataset.size dataset;
    DatasetMetadata.columnCount m;
    DatasetMetadata.rowCount m;
    QualityMetrics.completeness q;
    QualityMetrics.consistency q;
    QualityMetrics.accuracy q;
    QualityMetrics.freshness q;
    QualityMetrics.validity q ].

(** The word set of a dataset's title and description. *)
Definition words (dataset : Dataset.t) : gset string :=
  let m := Dataset.metadata dataset in
  let text := toLowerCase (DatasetMetadata.title m +:+ " " +:+ DatasetMetadata.description m) in
  newSet (splitWhiteSpace text).

Definition calculateSemanticSimilarity (dataset1 dataset2 : Dataset.t) : R :=
  calculateJaccardSimilarity (words dataset1) (words dataset2).

Definition calculateSimilarityMetrics (dataset1 dataset2 : Dataset.t) : SimilarityMetrics.t :=
  let columns1 := newSet (Object_keys (DatasetMetadata.dataTypes (Dataset.metadata dataset1))) in
  let columns2 := newSet (Object_keys (DatasetMetadata.dataTypes (Dataset.metadata dataset2))) in
  let jaccard := calculateJaccardSimilarity columns1 columns2 in
  let structural :=
    calculateStructuralSimilarity
      (DatasetMetadata.dataTypes (Dataset.metadata dataset1))
      (DatasetMetadata.dataTypes (Dataset.metadata dataset2)) in
  let features1 := extractFeatureVector dataset1 in
  let features2 := extractFeatureVector dataset2 in
  let cosine := calculateCosineSimilarity features1 features2 in
  let semantic := calculateSemanticSimilarity dataset1 dataset2 in
  let confidence := (jaccard + structural + cosine + semantic) / 4 in
  SimilarityMetrics.mk jaccard cosine structural semantic confidence.

Definition defaultThresholds : Thresholds.t := Thresholds.mk 0.95 0.8 0.6.

Definition isDuplicate (similarity : SimilarityMetrics.t) (thresholds : Thresholds.t) : DuplicationType :=
  if Rge_dec (SimilarityMetrics.confidence similarity) (Thresholds.exact thresholds) then TypeExact
  else if Rge_dec (SimilarityMetrics.confidence similarity) (Thresholds.similar thresholds) then TypeSimilar
  else if Rge_dec (SimilarityMetrics.confidence similarity) (Thresholds.potential thresholds) then TypePotential
  else TypeNone.

End SimilarityAnalysisService.

(** ** lib/services/similarity.ts in binary64 arithmetic

    The functions of [SimilarityAnalysisService] once more, every [number]
    an IEEE 754 binary64 value and every operation the correctly rounded
    one: [+], [*], [/] and [Math.sqrt] are [PrimFloat.add], [PrimFloat.mul],
    [PrimFloat.div] and [PrimFloat.sqrt]; [===] on numbers is
    [PrimFloat.eqb] and [>=] is [PrimFloat.leb] with the operands swapped,
    both false when an operand is [NaN]. *)

Module Doubles.

Local Open Scope float_scope.

(** The size of a set, or a counter, as a number. *)
Definition ofNat (n : nat) : float := PrimFloat.of_uint63 (Uint63.of_Z (Z.of_nat n)).

Module SimilarityMetrics.
Record t : Type := mk {
  jaccard : float;
  cosine : float;
  structural : float;
  semantic : float;
  confidence : float
}.
End SimilarityMetrics.

(** The fields of a [Dataset] that the similarity analysis reads. *)
Module Dataset.
Record t : Type := mk {
  size : float;
  title : string;
  description : string;
  columnCount : float;
  rowCount : float;
  dataTypes : JsRecord;
  completeness : float;
  consistency : float;
  accuracy : float;
  freshness : float;
  validity : float
}.
End Dataset.

Definition calculateJaccardSimilarity (set1 set2 : gset string) : float :=
  let intersection := filterHas set1 set2 in
  let union := set1 ∪ set2 in
  if decide (size union = 0%nat) then 0
  else ofNat (size intersection) / ofNat (size union).

(** [vector2[i]] is [undefined] out of range, and [a * undefined] is
    [NaN]. *)
Definition dotProduct (vector1 vector2 : list float) : float :=
  reduce (fun sum a i => sum + a * nth i vector2 nan) vector1 0.

Definition magnitude (vector : list float) : float :=
  PrimFloat.sqrt (reduce (fun sum a _ => sum + a * a) vector 0).

Definition calculateCosineSimilarity (vector1 vector2 : list float) : float :=
  if decide (length vector1 ≠ length vector2) then 0
  else
    let magnitude1 := magnitude vector1 in
    let magnitude2 := magnitude vector2 in
    if PrimFloat.eqb magnitude1 0 || PrimFloat.eqb magnitude2 0 then 0
    else dotProduct vector1 vector2 / (magnitude1 * magnitude2).

Definition keysSimilarity (commonKeys allKeys : gset string) : float :=
  ofNat (size commonKeys) / ofNat (size allKeys).

Definition typesSimilarity (schema1 schema2 : JsRecord) (commonKeys : gset string) : float :=
  if decide (size commonKeys = 0%nat) then 0
  else ofNat (SimilarityAnalysisService.typeMatches schema1 schema2 commonKeys)
       / ofNat (size commonKeys).

Definition calculateStructuralSimilarity (schema1 schema2 : JsRecord) : float :=
  let keys1 := newSet (Object_keys schema1) in
  let keys2 := newSet (Object_keys schema2) in
  let commonKeys := filterHas keys1 keys2 in
  let allKeys := keys1 ∪ keys2 in
  if decide (size allKeys = 0%nat) then 1
  else (keysSimilarity commonKeys allKeys + typesSimilarity schema1 schema2 commonKeys) / 2.

Definition extractFeatureVector (dataset : Dataset.t) : list float :=
  [ Dataset.size dataset;
    Dataset.columnCount dataset;
    Dataset.rowCount dataset;
    Dataset.completeness dataset;
    Dataset.consistency dataset;
    Dataset.accuracy dataset;
    Dataset.freshness dataset;
    Dataset.validity dataset ].

Definition words (dataset : Dataset.t) : gset string :=
  let text := toLowerCase (Dataset.title dataset +:+ " " +:+ Dataset.description dataset) in
  newSet (splitWhiteSpace text).

Definition calculateSemanticSimilarity (dataset1 dataset2 : Dataset.t) : float :=
  calculateJaccardSimilarity (words dataset1) (words dataset2).

Definition calculateSimilarityMetrics (dataset1 dataset2 : Dataset.t) : SimilarityMetrics.t :=
  let columns1 := newSet (Object_keys (Dataset.dataTypes dataset1)) in
  let columns2 := newSet (Object_keys (Dataset.dataTypes dataset2)) in
  let jaccard := calculateJaccardSimilarity columns1 columns2 in
  let structural :=
    calculateStructuralSimilarity (Dataset.dataTypes dataset1) (Dataset.dataTypes dataset2) in
  let features1 := extractFeatureVector dataset1 in
  let features2 := extractFeatureVector dataset2 in
  let cosine := calculateCosineSimilarity features1 features2 in
  let semantic := calculateSemanticSimilarity dataset1 dataset2 in
  let confidence := (jaccard + structural + cosine + semantic) / 4 in
  SimilarityMetrics.mk jaccard cosine structural semantic confidence.

(** [isDuplicate] with the default thresholds 0.95, 0.8 and 0.6, each the
    binary64 value nearest to the decimal. *)
Definition isDuplicate (similarity : SimilarityMetrics.t) : DuplicationType :=
  if PrimFloat.leb 0x1.e666666666666p-1 (SimilarityMetrics.confidence similarity) then TypeExact
  else if PrimFloat.leb 0x1.999999999999ap-1 (SimilarityMetrics.confidence similarity) then TypeSimilar
  else if PrimFloat.leb 0x1.3333333333333p-1 (SimilarityMetrics.confidence similarity) then TypePotential
  else TypeNone.

(** *** The divisions by a set size, with the divisor checked

    [checkedRatio a b] is [a / b] for two set sizes or counters, and [None]
    when the divisor is zero.  The two functions below are
    [calculateJaccardSimilarity] and [calculateStructuralSimilarity] with
    their divisions by a size replaced by it. *)




End Doubles.

(** ** lib/services/detection.ts *)

Module DuplicationDetectionService.

Import SimilarityAnalysisService.

(** The instance state: the registry and the alert log. *)
Record t : Type := mk {
  datasets : list (string * Dataset.t);
  alerts : list DuplicationAlert.t
}.

(** [new DuplicationDetectionService()] *)
Definition create : t := mk [] [].

(** [Map.prototype.set]: an existing key keeps its place, a new key is
    appended. *)
Fixpoint mapSet (key : string) (value : Dataset.t) (m : list (string * Dataset.t)) : list (string * Dataset.t) :=
  match m with
  | [] => [(key, value)]
  | (k, v) :: m' =>
      if decide (k = key) then (key, value) :: m'
      else (k, v) :: mapSet key value m'
  end.

(** What one alert creation reads from its environment: [Date.now()], the
    tag [Math.random().toString(36).substr(2, 9)] and [new Date()]. *)
Record Reading : Type := mkReading {
  dateNow : Z;
  randomTag : string;
  newDate : Date
}.

(** The readings of one call: [env k] serves the [k]-th alert it creates. *)
Definition Env : Type := nat -> Reading.

Definition msPerDay : Z := 86400000.

(** [d.setDate(d.getDate() + days)] for a whole number of days, in a time
    zone whose offset is the same at both instants and within the range of
    Date: the time value moves by whole days.  [Retention.setDate] is the
    operation in general. *)
Definition addDays (d : Date) (days : Z) : Date := (d + days * msPerDay)%Z.

Definition isExactMatch (dataset1 dataset2 : Dataset.t) : bool :=
  bool_decide
    (DatasetFingerprint.contentHash (Dataset.fingerprint dataset1)
     = DatasetFingerprint.contentHash (Dataset.fingerprint dataset2))
  && bool_decide
       (DatasetFingerprint.schemaHash (Dataset.fingerprint dataset1)
        = DatasetFingerprint.schemaHash (Dataset.fingerprint dataset2)).

Section Service.

(** [x.toFixed(digits)] *)
Variable toFixed : R -> nat -> string.

Definition generateRecommendation (type : DuplicationType) (similarity : SimilarityMetrics.t) : string :=
  match type with
  | TypeExact =>
      "This appears to be an exact duplicate. Consider using a reference link instead of downloading."
  | TypeSimilar =>
      "High similarity detected (" +:+ toFixed (SimilarityMetrics.confidence similarity * 100) 1
      +:+ "%). Review differences before downloading."
  | TypePotential =>
      "Potential duplicate detected (" +:+ toFixed (SimilarityMetrics.confidence similarity * 100) 1
      +:+ "%). Consider if this dataset adds unique value."
  | TypeNone => "No specific recommendation available."
  end.

(** The alert that [createAlert] builds. *)
Definition newAlert (rd : Reading) (newDataset existingDataset : Dataset.t)
    (type : DuplicationType) (confidence : R) : DuplicationAlert.t :=
  let similarity := calculateSimilarityMetrics newDataset existingDataset in
  DuplicationAlert.mk
    ("alert_" +:+ showInt (dateNow rd) +:+ "_" +:+ randomTag rd)
    type
    confidence
    existingDataset
    newDataset
    similarity
    (generateRecommendation type similarity)
    (newDate rd).

(** [createAlert] pushes the alert at the end of the log. *)
Definition createAlert (rd : Reading) (newDataset existingDataset : Dataset.t)
    (type : DuplicationType) (confidence : R) (log : list DuplicationAlert.t) : list DuplicationAlert.t :=
  log ++ [newAlert rd newDataset existingDataset type confidence].

(** One iteration of the loop of [checkForDuplicates]; the state of the loop
    is the number of alerts created so far by this call and the log. *)
Definition checkOne (env : Env) (newDataset : Dataset.t)
    (st : nat * list DuplicationAlert.t) (entry : string * Dataset.t) : nat * list DuplicationAlert.t :=
  let '(k, log) := st in
  let '(id, existingDataset) := entry in
  if decide (id = Dataset.id newDataset) then st
  else if isExactMatch newDataset existingDataset then
    (S k, createAlert (env k) newDataset existingDataset TypeExact 1 log)
  else
    let similarity := calculateSimilarityMetrics newDataset existingDataset in
    let duplicationType := isDuplicate similarity defaultThresholds in
    match duplicationType with
    | TypeNone => st
    | _ =>
        (S k, createAlert (env k) newDataset existingDataset duplicationType
                (SimilarityMetrics.confidence similarity) log)
    end.

Definition checkForDuplicates (env : Env) (newDataset : Dataset.t) (self : t) : t :=
  mk (datasets self)
     (snd (foldl (checkOne env newDataset) (0%nat, alerts self) (datasets self))).

Definition addDataset (env : Env) (dataset : Dataset.t) (self : t) : t :=
  checkForDuplicates env dataset
    (mk (mapSet (Dataset.id dataset) dataset (datasets self)) (alerts self)).

Definition getAlerts (self : t) : list DuplicationAlert.t := alerts self.

Definition getAlertsForDataset (datasetId : string) (self : t) : list DuplicationAlert.t :=
  filter
    (fun alert =>
       Dataset.id (DuplicationAlert.originalDataset alert) = datasetId
       \/ Dataset.id (DuplicationAlert.duplicateDataset alert) = datasetId)
    (alerts self).

(** [now] is the value of [new Date()] at the call. *)
Definition cutoffDate (now : Date) (olderThanDays : Z) : Date :=
  addDays now (- olderThanDays).

Definition clearOldAlerts (now : Date) (olderThanDays : Z) (self : t) : t :=
  mk (datasets self)
     (filter (fun alert => (DuplicationAlert.createdAt alert > cutoffDate now olderThanDays)%Z)
        (alerts self)).

(** The states of a service instance: those that calls of its public methods
    produce from a new instance. *)
Inductive reachable : t -> Prop :=
  | reachable_create : reachable create
  | reachable_addDataset env dataset self :
      reachable self -> reachable (addDataset env dataset self)
  | reachable_clearOldAlerts now olderThanDays self :
      reachable self -> reachable (clearOldAlerts now olderThanDays self).

End Service.

End DuplicationDetectionService.

(** ** [clearOldAlerts] with the Date arithmetic of the platform

    [new Date()], [getDate], [setDate] and the comparison of two Dates,
    after the ECMAScript definitions.  Time values are integers; every
    intermediate number of [setDate] whose magnitude is within the range of
    Date is an integer below 2^53 and exact in binary64, and any other makes
    the Date invalid, so integer arithmetic followed by [TimeClip] gives the
    time value that the platform computes. *)

Module Retention.

Import DuplicationDetectionService.

(** [Day(t)] and [TimeWithinDay(t)] *)
Definition Day (t : Z) : Z := (t / msPerDay)%Z.

Definition TimeWithinDay (t : Z) : Z := (t mod msPerDay)%Z.

(** [MakeDate(day, time)] *)
Definition MakeDate (day time : Z) : Z := (day * msPerDay + time)%Z.

(** The largest magnitude of a time value: 100,000,000 days. *)
Definition maxTime : Z := 8640000000000000.

(** [TimeClip(time)]: [None] is the time value [NaN] of an invalid Date. *)
Definition TimeClip (time : Z) : option Date :=
  if decide (Z.abs time <= maxTime)%Z then Some time else None.

(** The integral part of a number, towards zero, as [MakeDay] takes it from
    its day argument; [None] for [NaN] and the infinities, for which
    [MakeDay] gives [NaN]. *)
Definition truncate (x : float) : option Z :=
  match Prim2SF x with
  | S754_zero _ => Some 0%Z
  | S754_finite negative m e =>
      let magnitude := if (0 <=? e)%Z then (Zpos m * 2 ^ e)%Z else (Zpos m / 2 ^ (- e))%Z in
      Some (if negative then (- magnitude)%Z else magnitude)
  | _ => None
  end.

(** A day of the month, or a whole number of days, as a number. *)
Definition numberOfZ (z : Z) : float := PrimFloat.of_uint63 (Uint63.of_Z z).

Section Zone.

(** The time zone of the platform: the offset of local time from UTC, in
    milliseconds, in force at a UTC time value and at a local time value. *)
Variable offsetAtInstant : Z -> Z.
Variable offsetAtLocalTime : Z -> Z.

(** [DateFromTime(t)]: the day of the month, 1 to 31, of a local time
    value. *)
Variable DateFromTime : Z -> Z.

Definition LocalTime (t : Z) : Z := (t + offsetAtInstant t)%Z.

Definition UTC (t : Z) : Z := (t - offsetAtLocalTime t)%Z.

(** [d.getDate()] for a valid Date of time value [t]. *)
Definition getDate (t : Date) : Z := DateFromTime (LocalTime t).

(** [d.setDate(date)] for a valid Date of time value [t]: the new time
    value.  [MakeDay] adds [date - 1] days to the day number of the first
    day of the month of the local time. *)
Definition setDate (t : Date) (date : float) : option Date :=
  let local := LocalTime t in
  match truncate date with
  | None => None
  | Some dt =>
      let firstOfMonth := (Day local - (DateFromTime local - 1))%Z in
      TimeClip (UTC (MakeDate (firstOfMonth + dt - 1) (TimeWithinDay local)))
  end.

(** [cutoffDate] after [cutoffDate.setDate(cutoffDate.getDate() - olderThanDays)],
    [now] being the time value of [new Date()]. *)
Definition cutoffDate (now : Date) (olderThanDays : float) : option Date :=
  setDate now (PrimFloat.sub (numberOfZ (getDate now)) olderThanDays).

(** [createdAt > cutoffDate]: the comparison of the two time values, false
    when the cutoff is invalid. *)
Definition isAfter (createdAt : Date) (cutoff : option Date) : bool :=
  match cutoff with
  | Some c => bool_decide (createdAt > c)%Z
  | None => false
  end.

Definition clearOldAlerts (now : Date) (olderThanDays : float) (self : t) : t :=
  mk (datasets self)
     (filter (fun alert => isAfter (DuplicationAlert.createdAt alert) (cutoffDate now olderThanDays) = true)
        (alerts self)).

End Zone.

End Retention.

(** ** Reference functions

    The sums that the two [reduce] calls of [calculateCosineSimilarity]
    compute. *)

Fixpoint sumOfSquares (v : list R) : R :=
  match v with
  | [] => 0
  | a :: v' => a * a + sumOfSquares v'
  end.

Fixpoint sumOfProducts (v1 v2 : list R) : R :=
  match v1, v2 with
  | a :: v1', b :: v2' => a * b + sumOfProducts v1' v2'
  | _, _ => 0
  end.

(** The order of the tiers: none < potential < similar < exact. *)
Definition tierRank (t : DuplicationType) : nat :=
  match t with
  | TypeNone => 0
  | TypePotential => 1
  | TypeSimilar => 2
  | TypeExact => 3
  end.

(** [confidence] meets the threshold of tier [t]; the tier "none" has no
    threshold. *)
Definition meetsThreshold (confidence : R) (thresholds : Thresholds.t) (t : DuplicationType) : Prop :=
  match t with
  | TypeExact => confidence >= Thresholds.exact thresholds
  | TypeSimilar => confidence >= Thresholds.similar thresholds
  | TypePotential => confidence >= Thresholds.potential thresholds
  | TypeNone => True
  end.

Definition ascending (thresholds : Thresholds.t) : Prop :=
  Thresholds.potential thresholds <= Thresholds.similar thresholds
  /\ Thresholds.similar thresholds <= Thresholds.exact thresholds.

(** ** Sample data

    The quality scores are the ones the route handler attaches to every
    submission. *)

Definition sampleQuality : QualityMetrics.t :=
  QualityMetrics.mk 0.95 0.9 0.85 1.0 0.92.

Definition sampleSchema : JsRecord := [("id", "number"); ("name", "string")]%string.

Definition sampleDataset (id title : string) (schema : JsRecord) (contentHash schemaHash : string) : Dataset.t :=
  Dataset.mk id "sample" "upload" 120 "json" 0%Z 0%Z
    (DatasetFingerprint.mk contentHash schemaHash EmptyString None None None)
    (DatasetMetadata.mk title EmptyString "unknown" "unknown" "1" None "CC0" [] 2 1 schema
       (ProvenanceInfo.mk "upload" 0%Z [] [] sampleQuality)).

Definition sampleEnv : DuplicationDetectionService.Env :=
  fun k => DuplicationDetectionService.mkReading 1700000000000%Z "k3j9x0q1z" 1700000000000%Z.

Definition sampleToFixed : R -> nat -> string := fun _ _ => "75.0"%string.

(** Two submissions of the same content and schema under different titles,
    and a resubmission under the id of the first. *)
Definition salesDataset : Dataset.t :=
  sampleDataset "dataset_1" "Sales figures" sampleSchema "c0ffee" "5c4e3a".

Definition reportDataset : Dataset.t :=
  sampleDataset "dataset_2" "Weather report" sampleSchema "c0ffee" "5c4e3a".

Definition salesResubmitted : Dataset.t :=
  sampleDataset "dataset_1" "Sales figures again" sampleSchema "c0ffee" "5c4e3a".

(** An alert log with an alert from 2020 and one from November 2023. *)
Definition sampleAlert (id : string) (createdAt : Date) : DuplicationAlert.t :=
  DuplicationAlert.mk id TypeExact 1 salesDataset reportDataset
    (SimilarityAnalysisService.calculateSimilarityMetrics reportDataset salesDataset)
    "This appears to be an exact duplicate. Consider using a reference link instead of downloading."
    createdAt.

Definition sampleLog : list DuplicationAlert.t :=
  [sampleAlert "alert_1600000000000_a1b2c3d4e" 1600000000000%Z;
   sampleAlert "alert_1699999999999_f5g6h7i8j" 1699999999999%Z].

(** A stand-in for the digest in examples: never empty, and injective. *)
Definition sampleDigest (s : string) : string := "#" +:+ s.

(** Some digest of [item], among the first [hashCount], selects cell [j]. *)
Definition selects (sha256Hex : string -> string) (size hashCount : nat)
    (item : string) (j : nat) : Prop :=
  exists i, (i < hashCount)%nat
            /\ DatasetFingerprintingService.bloomIndex sha256Hex size item i = Some j.

(** A digest table for examples: the two digests of "a" select cells 3 and
    2 of eight, the first digest of "b" selects cell 7 and its second one
    reads as a negative number. *)
Definition sampleTable (s : string) : string :=
  if decide (s = "a0") then "00000003"
  else if decide (s = "a1") then "0000000a"
  else if decide (s = "b0") then "ffffffff"
  else if decide (s = "b1") then "-3"
  else "zz".

(** A third submission: the schema and title of the first, another content. *)
Definition salesRevised : Dataset.t :=
  sampleDataset "dataset_3" "Sales figures" sampleSchema "beef00" "5c4e3a".

(** A dataset that shares no column with the others. *)
Definition sensorDataset : Dataset.t :=
  sampleDataset "dataset_4" "Sensor log" [("ts", "number"); ("value", "number")]%string
    "0ddba11" "a11ce5".

(** The code unit [c] occurs in [s]. *)
Fixpoint hasChar (c : ascii) (s : string) : bool :=
  match s with
  | EmptyString => false
  | String d s' => if decide (d = c) then true else hasChar c s'
  end.

(** No column name holds [:] or [|], and no type holds [|]: the two
    delimiters of the schema string cannot be mistaken for content. *)
Definition delimiterFree (schema : JsRecord) : Prop :=
  Forall (fun entry =>
            hasChar ":" (fst entry) = false
            /\ hasChar "|" (fst entry) = false
            /\ hasChar "|" (snd entry) = false) schema.

(** A string of hexadecimal digits, at least one. *)
Definition hexString (s : string) : Prop :=
  s <> EmptyString /\ forall i c, String.get i s = Some c -> hexDigitValue c <> None.

(** ** Reference predicates for the detection service *)

(** [alert] is what [checkForDuplicates newDataset] records for the registry
    entry [entry]. *)
Definition alertFor (newDataset : Dataset.t) (entry : string * Dataset.t)
    (alert : DuplicationAlert.t) : Prop :=
  let similarity := SimilarityAnalysisService.calculateSimilarityMetrics newDataset (snd entry) in
  fst entry <> Dataset.id newDataset
  /\ DuplicationAlert.originalDataset alert = snd entry
  /\ DuplicationAlert.duplicateDataset alert = newDataset
  /\ DuplicationAlert.similarities alert = similarity
  /\ (if DuplicationDetectionService.isExactMatch newDataset (snd entry)
      then DuplicationAlert.type alert = TypeExact /\ DuplicationAlert.confidence alert = 1
      else DuplicationAlert.type alert
           = SimilarityAnalysisService.isDuplicate similarity
               SimilarityAnalysisService.defaultThresholds
           /\ DuplicationAlert.type alert <> TypeNone
           /\ DuplicationAlert.confidence alert = SimilarityMetrics.confidence similarity).

(** Every registry key is the id of the dataset stored under it. *)
Definition keyedById (registry : list (string * Dataset.t)) : Prop :=
  forall key dataset, In (key, dataset) registry -> key = Dataset.id dataset.

(** What [checkForDuplicates] decides for a registered dataset: the type
    and the confidence of the alert, the type "none" meaning no alert. *)
Definition verdict (newDataset existingDataset : Dataset.t) : DuplicationType * R :=
  if DuplicationDetectionService.isExactMatch newDataset existingDataset then (TypeExact, 1)
  else
    let similarity := SimilarityAnalysisService.calculateSimilarityMetrics newDataset existingDataset in
    (SimilarityAnalysisService.isDuplicate similarity SimilarityAnalysisService.defaultThresholds,
     SimilarityMetrics.confidence similarity).

(** The alerts that one scan of the registry creates, in order; [k] counts
    the alerts created before. *)
Fixpoint expectedAlerts (toFixed : R -> nat -> string) (env : DuplicationDetectionService.Env)
    (newDataset : Dataset.t) (k : nat) (registry : list (string * Dataset.t))
    : list DuplicationAlert.t :=
  match registry with
  | [] => []
  | (id, existingDataset) :: rest =>
      if decide (id = Dataset.id newDataset) then expectedAlerts toFixed env newDataset k rest
      else
        match fst (verdict newDataset existingDataset) with
        | TypeNone => expectedAlerts toFixed env newDataset k rest
        | type =>
            DuplicationDetectionService.newAlert toFixed (env k) newDataset existingDataset
              type (snd (verdict newDataset existingDataset))
            :: expectedAlerts toFixed env newDataset (S k) rest
        end
  end.

(** The ids under which the registry holds datasets. *)
Definition registryKeys (registry : list (string * Dataset.t)) : list string := map fst registry.

(** The invariant of the alert log: each alert is what the scan decides for
    its pair of datasets. *)
Definition consistentAlert (toFixed : R -> nat -> string) (alert : DuplicationAlert.t) : Prop :=
  let original := DuplicationAlert.originalDataset alert in
  let duplicate := DuplicationAlert.duplicateDataset alert in
  DuplicationAlert.type alert = fst (verdict duplicate original)
  /\ DuplicationAlert.confidence alert = snd (verdict duplicate original)
  /\ DuplicationAlert.type alert <> TypeNone
  /\ DuplicationAlert.similarities alert
     = SimilarityAnalysisService.calculateSimilarityMetrics duplicate original
  /\ DuplicationAlert.recommendation alert
     = DuplicationDetectionService.generateRecommendation toFixed
         (DuplicationAlert.type alert) (DuplicationAlert.similarities alert).

(** ** Sample collations, binary64 datasets and a time zone *)

(** The order of code units, a collation that separates every two
    strings. *)
Definition codeUnitCompare (a b : string) : comparison := String.compare a b.

(** U+00AD, the soft hyphen, a code unit that collations ignore. *)
Definition softHyphen : string := String (ascii_of_nat 173) EmptyString.

Fixpoint withoutSoftHyphens (s : string) : string :=
  match s with
  | EmptyString => EmptyString
  | String c s' =>
      if decide (c = ascii_of_nat 173) then withoutSoftHyphens s'
      else String c (withoutSoftHyphens s')
  end.

(** A collation that, like the platform's, ignores soft hyphens. *)
Definition hyphenBlindCompare (a b : string) : comparison :=
  String.compare (withoutSoftHyphens a) (withoutSoftHyphens b).

(** A schema of two columns whose names differ by a soft hyphen, in its two
    enumeration orders. *)
Definition hyphenSchema : JsRecord :=
  [("a", "x"); ("a" +:+ softHyphen, "y")]%string.

Definition hyphenSchemaReordered : JsRecord :=
  [("a" +:+ softHyphen, "y"); ("a", "x")]%string.

(** A dataset of 1024 bytes with two columns and 100 rows, and one whose
    row count is 2^700. *)
Definition surveyDataset : Doubles.Dataset.t :=
  Doubles.Dataset.mk 1024 "Survey" "Annual survey" 2 100 sampleSchema 1 1 1 1 1.

Definition vastDataset : Doubles.Dataset.t :=
  Doubles.Dataset.mk 1024 "Survey" "Annual survey" 2 0x1p+700 sampleSchema 1 1 1 1 1.

(** [DateFromTime] in the proleptic Gregorian calendar, by the day number
    counted from 1 March of year 0. *)
Definition civilDayOfMonth (t : Z) : Z :=
  (let z := t / 86400000 + 719468 in
   let era := z / 146097 in
   let dayOfEra := z - era * 146097 in
   let yearOfEra := (dayOfEra - dayOfEra / 1460 + dayOfEra / 36524 - dayOfEra / 146096) / 365 in
   let dayOfYear := dayOfEra - (365 * yearOfEra + yearOfEra / 4 - yearOfEra / 100) in
   let monthIndex := (5 * dayOfYear + 2) / 153 in
   dayOfYear - (153 * monthIndex + 2) / 5 + 1)%Z.

(** A zone at UTC+2 until 27 October 2024, 01:00 UTC, and at UTC+1 from
    then on, as central Europe was. *)
Definition autumnOffsetAtInstant (t : Z) : Z :=
  if decide (t < 1729990800000)%Z then 7200000%Z else 3600000%Z.

Definition autumnOffsetAtLocalTime (t : Z) : Z :=
  if decide (t < 1729998000000)%Z then 7200000%Z else 3600000%Z.

(** A zone that keeps UTC. *)
Definition utcOffset (t : Z) : Z := 0%Z.

(** [p] holds of the [count] integers from [start] on. *)
Fixpoint forallRange (p : Z -> bool) (start : Z) (count : nat) : bool :=
  match count with
  | O => true
  | S count' => p start && forallRange p (start + 1)%Z count'
  end.

(** The quotient of a set size by itself is 1 in binary64 arithmetic. *)
Definition quotientIsOne (n : Z) : bool :=
  PrimFloat.Leibniz.eqb
    (PrimFloat.div (PrimFloat.of_uint63 (Uint63.of_Z n)) (PrimFloat.of_uint63 (Uint63.of_Z n)))
    1%float.

(** An integer of either sign as a number. *)
Definition numberOfInteger (z : Z) : float :=
  if decide (z < 0)%Z then PrimFloat.opp (Retention.numberOfZ (- z)) else Retention.numberOfZ z.

(** The day argument that [clearOldAlerts] passes to [setDate] on day
    [date] of the month, for a whole number [n] of days, is the number
    [date - n]. *)
Definition wholeDaysExact (n date : Z) : bool :=
  PrimFloat.Leibniz.eqb
    (PrimFloat.sub (Retention.numberOfZ date) (Retention.numberOfZ n))
    (numberOfInteger (date - n)).

(** The integral part of the number of an integer is that integer. *)
Definition truncateExact (z : Z) : bool :=
  bool_decide (Retention.truncate (numberOfInteger z) = Some z).

(** A log of two alerts created 30 days and 30 minutes, and one
    millisecond, before noon UTC of 10 November 2024. *)
Definition autumnLog : list DuplicationAlert.t :=
  [sampleAlert "alert_1728646200000_a1b2c3d4e" 1728646200000%Z;
   sampleAlert "alert_1731239999999_f5g6h7i8j" 1731239999999%Z].

(** * Properties *)

(** ** The built-ins on small inputs *)

Example splitWhiteSpace_runs :
  splitWhiteSpace " a  b "%string = [EmptyString; "a"; "b"; EmptyString]%string.
Proof. reflexivity. Qed.

Example splitWhiteSpace_empty : splitWhiteSpace EmptyString = [EmptyString].
Proof. reflexivity. Qed.

Example toLowerCase_sample : toLowerCase "Sales Figures 2024" = "sales figures 2024"%string.
Proof. reflexivity. Qed.

Example sortBy_is_stable :
  sortBy (fun a b : nat * string => Nat.compare (fst a) (fst b))
    [(2, "x"); (1, "y"); (2, "z"); (1, "w")]%string%nat
  = [(1, "y"); (1, "w"); (2, "x"); (2, "z")]%string%nat.
Proof. reflexivity. Qed.

Example mapSet_keeps_position :
  map fst (DuplicationDetectionService.mapSet "b" salesDataset
             [("a", reportDataset); ("b", reportDataset); ("c", reportDataset)]%string)
  = ["a"; "b"; "c"]%string.
Proof. reflexivity. Qed.

Example showInt_sample : showInt 1700000000000 = "1700000000000"%string.
Proof. reflexivity. Qed.

Example parseIntHex_digits_only : parseIntHex "ffffffff" = Some 4294967295%Z.
Proof. reflexivity. Qed.

Example parseIntHex_sign_and_prefix : parseIntHex " -0x1Fzz" = Some (-31)%Z.
Proof. reflexivity. Qed.

Example parseIntHex_no_digit : parseIntHex "0x" = None /\ parseIntHex "zz" = None.
Proof. split; reflexivity. Qed.

(** Sizes of concrete sets of strings are computed. *)
Ltac compute_sizes :=
  repeat match goal with
         | |- context [size ?X] =>
             let n := eval vm_compute in (size X) in
             replace (size X) with n by (vm_compute; reflexivity)
         end.

(** ** Sets and sums *)

Section SetFacts.

Implicit Types s u v : gset string.

Lemma filterHas_intersection u v : filterHas u v = u ∩ v.
Proof.
  unfold filterHas. apply set_eq. intros x.
  rewrite elem_of_filter, elem_of_intersection. tauto.
Qed.

Lemma filterHas_comm u v : filterHas u v = filterHas v u.
Proof.
  rewrite !filterHas_intersection. apply set_eq. intros x.
  rewrite !elem_of_intersection. tauto.
Qed.

Lemma filterHas_diag s : filterHas s s = s.
Proof.
  rewrite filterHas_intersection. apply set_eq. intros x.
  rewrite elem_of_intersection. tauto.
Qed.

Lemma union_diag s : s ∪ s = s.
Proof. apply set_eq. intros x. rewrite elem_of_union. tauto. Qed.

Lemma union_swap u v : u ∪ v = v ∪ u.
Proof. apply set_eq. intros x. rewrite !elem_of_union. tauto. Qed.

Lemma filter_all (P : string -> Prop) `{!forall x, Decision (P x)} s :
  (forall x, x ∈ s -> P x) -> filter P s = s.
Proof.
  intros HP. apply set_eq. intros x. rewrite elem_of_filter.
  split; [tauto | intros Hx; split; [apply HP|]; exact Hx].
Qed.

Lemma size_zero_empty s : size s = 0%nat -> s = ∅.
Proof. intros H. apply leibniz_equiv. apply size_empty_inv. exact H. Qed.

Lemma newSet_nonempty (l : list string) : l <> [] -> size (newSet l) <> 0%nat.
Proof.
  destruct l as [|x l]; [congruence|]. intros _ H.
  apply size_zero_empty in H.
  assert (Hx : x ∈ newSet (x :: l)) by (unfold newSet; set_solver).
  rewrite H in Hx. set_solver.
Qed.

Lemma INR_ratio_one (n : nat) : n <> 0%nat -> INR n / INR n = 1.
Proof. intros Hn. apply Rdiv_diag. apply not_0_INR. exact Hn. Qed.

End SetFacts.

Section SumFacts.

Lemma reduceFrom_squares (v : list R) : forall i acc,
  reduceFrom (fun sum a (_ : nat) => sum + a * a) i v acc = acc + sumOfSquares v.
Proof.
  induction v as [|a v IH]; intros i acc; simpl.
  - lra.
  - rewrite IH. lra.
Qed.

Lemma sumOfProducts_nil_r (v : list R) : sumOfProducts v [] = 0.
Proof. destruct v; reflexivity. Qed.

Lemma drop_step (v : list R) (i : nat) :
  (i < length v)%nat -> drop i v = nth i v 0 :: drop (S i) v.
Proof.
  revert i. induction v as [|b v IH]; intros i Hi; simpl in Hi; [lia|].
  destruct i as [|i]; simpl.
  - rewrite drop_0. reflexivity.
  - apply IH. lia.
Qed.

Lemma reduceFrom_products (v1 v2 : list R) : forall i acc,
  reduceFrom (fun sum a i => sum + a * nth i v2 0) i v1 acc
  = acc + sumOfProducts v1 (drop i v2).
Proof.
  induction v1 as [|a v1 IH]; intros i acc; simpl.
  - lra.
  - rewrite IH.
    destruct (Nat.lt_ge_cases i (length v2)) as [Hi|Hi].
    + rewrite (drop_step v2 i Hi). lra.
    + rewrite (drop_ge v2 i Hi), (drop_ge v2 (S i)) by lia.
      rewrite (nth_overflow v2 0 Hi), sumOfProducts_nil_r. lra.
Qed.

Lemma sumOfProducts_comm (v1 : list R) : forall v2,
  sumOfProducts v1 v2 = sumOfProducts v2 v1.
Proof.
  induction v1 as [|a v1 IH]; intros [|b v2]; simpl; try reflexivity.
  rewrite IH. lra.
Qed.

Lemma sumOfProducts_diag (v : list R) : sumOfProducts v v = sumOfSquares v.
Proof. induction v as [|a v IH]; simpl; [reflexivity | rewrite IH; reflexivity]. Qed.

Lemma sumOfSquares_nonneg (v : list R) : 0 <= sumOfSquares v.
Proof. induction v as [|a v IH]; simpl; [lra | nra]. Qed.

Lemma sumOfSquares_pos (v : list R) (x : R) :
  In x v -> x <> 0 -> 0 < sumOfSquares v.
Proof.
  induction v as [|a v IH]; simpl; [tauto|].
  intros [->|Hin] Hx.
  - pose proof (sumOfSquares_nonneg v). nra.
  - specialize (IH Hin Hx). nra.
Qed.

End SumFacts.

Import SimilarityAnalysisService.

Lemma dotProduct_sum (v1 v2 : list R) : dotProduct v1 v2 = sumOfProducts v1 v2.
Proof.
  unfold dotProduct, reduce. rewrite reduceFrom_products, drop_0. lra.
Qed.

Lemma magnitude_sum (v : list R) : magnitude v = sqrt (sumOfSquares v).
Proof.
  unfold magnitude, reduce. rewrite reduceFrom_squares. f_equal. lra.
Qed.

Lemma magnitude_pos (v : list R) (x : R) : In x v -> x <> 0 -> 0 < magnitude v.
Proof.
  intros Hin Hx. rewrite magnitude_sum. apply sqrt_lt_R0.
  exact (sumOfSquares_pos v x Hin Hx).
Qed.

(** ** Similarity analysis *)

Section Symmetry.

Lemma jaccard_symmetric (set1 set2 : gset string) :
  calculateJaccardSimilarity set1 set2 = calculateJaccardSimilarity set2 set1.
Proof.
  unfold calculateJaccardSimilarity.
  rewrite (filterHas_comm set1 set2), (union_swap set1 set2). reflexivity.
Qed.

Lemma cosine_symmetric (vector1 vector2 : list R) :
  calculateCosineSimilarity vector1 vector2 = calculateCosineSimilarity vector2 vector1.
Proof.
  unfold calculateCosineSimilarity.
  destruct (decide (length vector1 ≠ length vector2)) as [Hne|Heq];
    destruct (decide (length vector2 ≠ length vector1)) as [Hne'|Heq'];
    try reflexivity; try congruence.
  - exfalso. apply Heq'. intros E. apply Hne. symmetry. exact E.
  - exfalso. apply Heq. intros E. apply Hne'. symmetry. exact E.
  - rewrite !dotProduct_sum, (sumOfProducts_comm vector1 vector2).
    rewrite (Rmult_comm (magnitude vector1) (magnitude vector2)).
    destruct (Req_dec_T (magnitude vector1) 0), (Req_dec_T (magnitude vector2) 0);
      reflexivity.
Qed.

Lemma typeMatches_symmetric (schema1 schema2 : JsRecord) (commonKeys : gset string) :
  typeMatches schema1 schema2 commonKeys = typeMatches schema2 schema1 commonKeys.
Proof.
  unfold typeMatches. f_equal. apply set_eq. intros key.
  rewrite !elem_of_filter. split; intros [E Hin]; split; auto.
Qed.

Lemma structural_symmetric (schema1 schema2 : JsRecord) :
  calculateStructuralSimilarity schema1 schema2 = calculateStructuralSimilarity schema2 schema1.
Proof.
  unfold calculateStructuralSimilarity, keysSimilarity, typesSimilarity.
  rewrite (filterHas_comm (newSet (Object_keys schema1)) (newSet (Object_keys schema2))).
  rewrite (union_swap (newSet (Object_keys schema1)) (newSet (Object_keys schema2))).
  rewrite (typeMatches_symmetric schema1 schema2). reflexivity.
Qed.

Lemma semantic_symmetric (dataset1 dataset2 : Dataset.t) :
  calculateSemanticSimilarity dataset1 dataset2 = calculateSemanticSimilarity dataset2 dataset1.
Proof. unfold calculateSemanticSimilarity. apply jaccard_symmetric. Qed.

End Symmetry.

Section SelfComparison.

Lemma jaccard_self (s : gset string) :
  size s <> 0%nat -> calculateJaccardSimilarity s s = 1.
Proof.
  intros Hs. unfold calculateJaccardSimilarity.
  rewrite filterHas_diag, union_diag.
  destruct (decide (size s = 0%nat)); [contradiction|].
  apply INR_ratio_one. exact Hs.
Qed.

Lemma cosine_self (vector : list R) :
  magnitude vector <> 0 -> calculateCosineSimilarity vector vector = 1.
Proof.
  intros Hm. unfold calculateCosineSimilarity.
  destruct (decide (length vector ≠ length vector)) as [Hne|_]; [congruence|].
  destruct (Req_dec_T (magnitude vector) 0) as [E|_]; [contradiction|].
  rewrite dotProduct_sum, sumOfProducts_diag.
  rewrite magnitude_sum in *.
  rewrite sqrt_sqrt by apply sumOfSquares_nonneg.
  apply Rdiv_diag. intros E. apply Hm. rewrite E. apply sqrt_0.
Qed.

Lemma typeMatches_self (schema : JsRecord) (commonKeys : gset string) :
  typeMatches schema schema commonKeys = size commonKeys.
Proof.
  unfold typeMatches. rewrite filter_all; [reflexivity|]. intros; reflexivity.
Qed.

Lemma structural_self (schema : JsRecord) :
  calculateStructuralSimilarity schema schema = 1.
Proof.
  unfold calculateStructuralSimilarity, keysSimilarity, typesSimilarity.
  rewrite filterHas_diag, union_diag, typeMatches_self.
  destruct (decide (size (newSet (Object_keys schema)) = 0%nat)) as [|Hn]; [reflexivity|].
  rewrite (INR_ratio_one _ Hn). lra.
Qed.

Lemma splitFrom_nonempty (s : string) : forall cur inSep, splitFrom s cur inSep <> [].
Proof.
  induction s as [|c s IH]; intros cur inSep; simpl; [discriminate|].
  destruct (isWhiteSpace c); [destruct inSep|]; first [apply IH | discriminate].
Qed.

Lemma words_nonempty (dataset : Dataset.t) : size (words dataset) <> 0%nat.
Proof. unfold words. apply newSet_nonempty. apply splitFrom_nonempty. Qed.


End SelfComparison.

(** *** The metrics on small inputs *)

Example jaccard_overlap :
  calculateJaccardSimilarity {["a"; "b"]}%string {["b"; "c"]}%string = 1 / 3.
Proof.
  unfold calculateJaccardSimilarity. compute_sizes.
  destruct (decide (3%nat = 0%nat)); [discriminate|]. simpl INR. lra.
Qed.

Example cosine_3_4 : calculateCosineSimilarity [3; 4] [4; 3] = 24 / 25.
Proof.
  unfold calculateCosineSimilarity.
  destruct (decide (length [3; 4] ≠ length [4; 3])) as [Hne|_]; [exfalso; apply Hne; reflexivity|].
  assert (H34 : magnitude [3; 4] = 5).
  { rewrite magnitude_sum. simpl. replace (3 * 3 + (4 * 4 + 0)) with (5 * 5) by lra.
    apply sqrt_square. lra. }
  assert (H43 : magnitude [4; 3] = 5).
  { rewrite magnitude_sum. simpl. replace (4 * 4 + (3 * 3 + 0)) with (5 * 5) by lra.
    apply sqrt_square. lra. }
  rewrite H34, H43, dotProduct_sum. simpl.
  destruct (Req_dec_T 5 0); [lra|]. lra.
Qed.

Example structural_partial :
  calculateStructuralSimilarity
    [("id", "number"); ("name", "string")]%string
    [("id", "string"); ("age", "number")]%string = 1 / 6.
Proof.
  unfold calculateStructuralSimilarity, keysSimilarity, typesSimilarity, typeMatches.
  compute_sizes.
  destruct (decide (3%nat = 0%nat)); [discriminate|].
  destruct (decide (1%nat = 0%nat)); [discriminate|].
  simpl INR. lra.
Qed.

Example isDuplicate_at_exact_boundary :
  isDuplicate (SimilarityMetrics.mk 0.95 0.95 0.95 0.95 0.95) defaultThresholds = TypeExact.
Proof.
  unfold isDuplicate, defaultThresholds.
  cbn [SimilarityMetrics.confidence Thresholds.exact].
  destruct (Rge_dec 0.95 0.95); [reflexivity | lra].
Qed.

Example isDuplicate_below_potential :
  isDuplicate (SimilarityMetrics.mk 0 1 1 0.36 0.59) defaultThresholds = TypeNone.
Proof.
  unfold isDuplicate, defaultThresholds.
  cbn [SimilarityMetrics.confidence Thresholds.exact Thresholds.similar Thresholds.potential].
  destruct (Rge_dec 0.59 0.95); [lra|].
  destruct (Rge_dec 0.59 0.8); [lra|].
  destruct (Rge_dec 0.59 0.6); [lra | reflexivity].
Qed.


(** C6.  The metrics of a pair do not depend on the order of the pair: each
    of the four component functions is symmetric in its two arguments, and
    so is the whole record, its confidence included. *)
Theorem similarity_is_symmetric :
  (forall set1 set2, calculateJaccardSimilarity set1 set2 = calculateJaccardSimilarity set2 set1)
  /\ (forall vector1 vector2,
        calculateCosineSimilarity vector1 vector2 = calculateCosineSimilarity vector2 vector1)
  /\ (forall schema1 schema2,
        calculateStructuralSimilarity schema1 schema2 = calculateStructuralSimilarity schema2 schema1)
  /\ (forall dataset1 dataset2,
        calculateSemanticSimilarity dataset1 dataset2 = calculateSemanticSimilarity dataset2 dataset1)
  /\ (forall dataset1 dataset2,
        calculateSimilarityMetrics dataset1 dataset2 = calculateSimilarityMetrics dataset2 dataset1)
  /\ (forall dataset1 dataset2,
        SimilarityMetrics.confidence (calculateSimilarityMetrics dataset1 dataset2)
        = SimilarityMetrics.confidence (calculateSimilarityMetrics dataset2 dataset1)).
Proof.
  assert (Hall : forall dataset1 dataset2,
             calculateSimilarityMetrics dataset1 dataset2
             = calculateSimilarityMetrics dataset2 dataset1).
  { intros dataset1 dataset2. unfold calculateSimilarityMetrics.
    rewrite (jaccard_symmetric (newSet (Object_keys (DatasetMetadata.dataTypes (Dataset.metadata dataset1))))).
    rewrite (structural_symmetric (DatasetMetadata.dataTypes (Dataset.metadata dataset1))).
    rewrite (cosine_symmetric (extractFeatureVector dataset1)).
    rewrite (semantic_symmetric dataset1). reflexivity. }
  split; [exact jaccard_symmetric|].
  split; [exact cosine_symmetric|].
  split; [exact structural_symmetric|].
  split; [exact semantic_symmetric|].
  split; [exact Hall|].
  intros dataset1 dataset2. rewrite (Hall dataset1 dataset2). reflexivity.
Qed.


(** The rounding of the sum hides the last bit of the cosine: the confidence
    of [surveyDataset] compared with itself is 1.  [vastDataset] compared
    with itself is classified as no duplicate. *)
Example self_comparison_in_doubles :
  Doubles.SimilarityMetrics.confidence (Doubles.calculateSimilarityMetrics surveyDataset surveyDataset)
  = 1%float
  /\ Doubles.isDuplicate (Doubles.calculateSimilarityMetrics vastDataset vastDataset) = TypeNone.
Proof. split; vm_compute; reflexivity. Qed.

Lemma forallRange_spec (p : Z -> bool) (count : nat) : forall start,
  forallRange p start count = true ->
  forall z, (start <= z < start + Z.of_nat count)%Z -> p z = true.
Proof.
  induction count as [|count IH]; intros start Hall z Hz; [lia|].
  cbn [forallRange] in Hall. apply andb_prop in Hall. destruct Hall as [Hhere Hrest].
  destruct (decide (z = start)) as [->|Hne]; [exact Hhere|].
  apply (IH (start + 1)%Z Hrest). lia.
Qed.

Lemma quotientIsOne_all : forallRange quotientIsOne 1 (Z.to_nat 1048576) = true.
Proof. vm_compute. reflexivity. Qed.

Lemma ofNat_self_ratio (n : nat) :
  n <> 0%nat -> (Z.of_nat n <= 1048576)%Z ->
  PrimFloat.div (Doubles.ofNat n) (Doubles.ofNat n) = 1%float.
Proof.
  intros Hn Hmax.
  pose proof (forallRange_spec _ _ _ quotientIsOne_all (Z.of_nat n) ltac:(lia)) as Hcell.
  unfold quotientIsOne in Hcell.
  apply FloatAxioms.Leibniz.eqb_spec in Hcell. exact Hcell.
Qed.

(** The three scores computed from sets, in binary64 arithmetic: a dataset
    with at least one and at most 1048576 columns, and at most 1048576 words
    in its title and description, scores 1 on each when compared with itself,
    and its confidence is the mean of these and of the cosine score. *)
Lemma self_similarity_in_doubles (dataset : Doubles.Dataset.t) :
  Doubles.Dataset.dataTypes dataset <> [] ->
  (Z.of_nat (size (newSet (Object_keys (Doubles.Dataset.dataTypes dataset)))) <= 1048576)%Z ->
  (Z.of_nat (size (Doubles.words dataset)) <= 1048576)%Z ->
  let m := Doubles.calculateSimilarityMetrics dataset dataset in
  Doubles.SimilarityMetrics.jaccard m = 1%float
  /\ Doubles.SimilarityMetrics.structural m = 1%float
  /\ Doubles.SimilarityMetrics.semantic m = 1%float
  /\ Doubles.SimilarityMetrics.confidence m
     = PrimFloat.div
         (PrimFloat.add (PrimFloat.add (PrimFloat.add 1 1) (Doubles.SimilarityMetrics.cosine m)) 1)
         4%float.
Proof.
  intros Hschema Hcolumns Hwords.
  assert (Hsome : size (newSet (Object_keys (Doubles.Dataset.dataTypes dataset))) <> 0%nat).
  { apply newSet_nonempty. unfold Object_keys.
    destruct (Doubles.Dataset.dataTypes dataset); [congruence | discriminate]. }
  assert (Hw : size (Doubles.words dataset) <> 0%nat).
  { unfold Doubles.words. apply newSet_nonempty. apply splitFrom_nonempty. }
  assert (Hj : Doubles.calculateJaccardSimilarity
                 (newSet (Object_keys (Doubles.Dataset.dataTypes dataset)))
                 (newSet (Object_keys (Doubles.Dataset.dataTypes dataset))) = 1%float).
  { unfold Doubles.calculateJaccardSimilarity. rewrite filterHas_diag, union_diag.
    destruct (decide (size (newSet (Object_keys (Doubles.Dataset.dataTypes dataset))) = 0%nat));
      [contradiction|].
    apply ofNat_self_ratio; assumption. }
  assert (Hs : Doubles.calculateStructuralSimilarity
                 (Doubles.Dataset.dataTypes dataset) (Doubles.Dataset.dataTypes dataset) = 1%float).
  { unfold Doubles.calculateStructuralSimilarity, Doubles.keysSimilarity, Doubles.typesSimilarity.
    rewrite filterHas_diag, union_diag, typeMatches_self.
    destruct (decide (size (newSet (Object_keys (Doubles.Dataset.dataTypes dataset))) = 0%nat));
      [contradiction|].
    rewrite ofNat_self_ratio by assumption. reflexivity. }
  assert (Hm : Doubles.calculateSemanticSimilarity dataset dataset = 1%float).
  { unfold Doubles.calculateSemanticSimilarity, Doubles.calculateJaccardSimilarity.
    rewrite filterHas_diag, union_diag.
    destruct (decide (size (Doubles.words dataset) = 0%nat)); [contradiction|].
    apply ofNat_self_ratio; assumption. }
  unfold Doubles.calculateSimilarityMetrics.
  cbn [Doubles.SimilarityMetrics.confidence Doubles.SimilarityMetrics.jaccard
       Doubles.SimilarityMetrics.cosine Doubles.SimilarityMetrics.structural
       Doubles.SimilarityMetrics.semantic].
  rewrite Hj, Hs, Hm. repeat split.
Qed.



(** ** Classification *)

Lemma defaultThresholds_ascending : ascending defaultThresholds.
Proof.
  unfold ascending, defaultThresholds.
  cbn [Thresholds.potential Thresholds.similar Thresholds.exact]. lra.
Qed.

(** Raising the cutoffs moves a confidence to the same tier or a lower one. *)
Lemma isDuplicate_raised_thresholds (similarity : SimilarityMetrics.t) (low high : Thresholds.t) :
  Thresholds.exact low <= Thresholds.exact high ->
  Thresholds.similar low <= Thresholds.similar high ->
  Thresholds.potential low <= Thresholds.potential high ->
  (tierRank (isDuplicate similarity high) <= tierRank (isDuplicate similarity low))%nat.
Proof.
  intros He Hs Hp. unfold isDuplicate.
  repeat match goal with
         | |- context [Rge_dec ?a ?b] => destruct (Rge_dec a b)
         end; cbn [tierRank]; first [lia | exfalso; lra].
Qed.

(** C3.  For ascending thresholds, [isDuplicate] returns the highest tier
    whose threshold the confidence meets, the comparisons being inclusive:
    "exact" from the exact threshold upwards, "similar" from the similar
    threshold up to the exact one, "potential" from the potential threshold
    up to the similar one, "none" below the potential threshold.  The tier
    returned never decreases when the confidence increases. *)
Theorem isDuplicate_highest_tier_met (similarity : SimilarityMetrics.t) (thresholds : Thresholds.t) :
  ascending thresholds ->
  let c := SimilarityMetrics.confidence similarity in
  let tier := isDuplicate similarity thresholds in
  meetsThreshold c thresholds tier
  /\ (forall t, meetsThreshold c thresholds t -> (tierRank t <= tierRank tier)%nat)
  /\ (c >= Thresholds.exact thresholds -> tier = TypeExact)
  /\ (Thresholds.similar thresholds <= c < Thresholds.exact thresholds -> tier = TypeSimilar)
  /\ (Thresholds.potential thresholds <= c < Thresholds.similar thresholds -> tier = TypePotential)
  /\ (c < Thresholds.potential thresholds -> tier = TypeNone)
  /\ (forall similarity',
        c <= SimilarityMetrics.confidence similarity' ->
        (tierRank tier <= tierRank (isDuplicate similarity' thresholds))%nat).
Proof.
  intros [Hps Hse] c tier. subst c tier. unfold isDuplicate.
  destruct (Rge_dec (SimilarityMetrics.confidence similarity) (Thresholds.exact thresholds)) as [He|He];
    [|destruct (Rge_dec (SimilarityMetrics.confidence similarity) (Thresholds.similar thresholds)) as [Hs|Hs];
      [|destruct (Rge_dec (SimilarityMetrics.confidence similarity) (Thresholds.potential thresholds)) as [Hp|Hp]]].
  all: cbn [meetsThreshold tierRank].
  all: repeat split; try (intros; first [reflexivity | exfalso; lra]); try assumption.
  all: try (intros t Ht; destruct t; cbn [meetsThreshold tierRank] in *; first [lia | exfalso; lra]).
  all: intros similarity' Hle;
    destruct (Rge_dec (SimilarityMetrics.confidence similarity') (Thresholds.exact thresholds));
    [|destruct (Rge_dec (SimilarityMetrics.confidence similarity') (Thresholds.similar thresholds));
      [|destruct (Rge_dec (SimilarityMetrics.confidence similarity') (Thresholds.potential thresholds))]];
    cbn [tierRank]; first [lia | exfalso; lra].
Qed.

Lemma isDuplicate_highest_tier_met_witness :
  isDuplicate (SimilarityMetrics.mk 1 0.6 1 0.6 0.8) defaultThresholds = TypeSimilar.
Proof.
  pose proof (isDuplicate_highest_tier_met (SimilarityMetrics.mk 1 0.6 1 0.6 0.8) defaultThresholds
                defaultThresholds_ascending)
    as (_ & _ & _ & Hsim & _).
  apply Hsim. unfold defaultThresholds.
  cbn [SimilarityMetrics.confidence Thresholds.similar Thresholds.exact]. lra.
Defined.

(** ** Degenerate inputs *)

Section Checked.



End Checked.

(** Without its guard the quotient of the sizes of two empty sets would be
    [NaN]. *)
Example ratio_of_empty_sizes :
  PrimFloat.is_nan (PrimFloat.div (Doubles.ofNat 0) (Doubles.ofNat 0)) = true.
Proof. reflexivity. Qed.

Example cosine_of_doubles_3_4 :
  Doubles.calculateCosineSimilarity [3; 4]%float [4; 3]%float = 0x1.eb851eb851eb8p-1%float.
Proof. vm_compute. reflexivity. Qed.




(** ** Sorting *)

Section StableSort.

Context {A K : Type} (cmp : A -> A -> comparison) (key : A -> K).

Hypothesis cmp_trans : forall a b c, cmp a b = Lt -> cmp b c = Lt -> cmp a c = Lt.
Hypothesis cmp_antisym : forall a b, cmp a b = CompOpp (cmp b a).
Hypothesis cmp_eq_key : forall a b, cmp a b = Eq -> key a = key b.

Local Abbreviation before := (fun a b => cmp a b = Lt).

Lemma before_asym (a b : A) : cmp a b = Lt -> cmp b a = Lt -> False.
Proof. intros Hab Hba. rewrite cmp_antisym, Hba in Hab. discriminate. Qed.

Lemma insertSorted_perm (x : A) (l : list A) : Permutation (insertSorted cmp x l) (x :: l).
Proof.
  induction l as [|y l IH]; simpl; [reflexivity|].
  destruct (cmp x y); try reflexivity.
  - rewrite IH. apply perm_swap.
  - rewrite IH. apply perm_swap.
Qed.

Lemma foldl_insertSorted_perm (l : list A) : forall acc,
  Permutation (foldl (fun acc x => insertSorted cmp x acc) acc l) (l ++ acc).
Proof.
  induction l as [|x l IH]; intros acc; simpl; [reflexivity|].
  rewrite IH, insertSorted_perm. symmetry. apply Permutation_middle.
Qed.

Lemma sortBy_perm (l : list A) : Permutation (sortBy cmp l) l.
Proof. unfold sortBy. rewrite foldl_insertSorted_perm, app_nil_r. reflexivity. Qed.

Lemma insertSorted_sorted (x : A) (l : list A) :
  StronglySorted before l ->
  (forall y, In y l -> key x <> key y) ->
  StronglySorted before (insertSorted cmp x l).
Proof.
  induction l as [|y l IH]; intros Hs Hx; simpl.
  - constructor; constructor.
  - apply StronglySorted_inv in Hs. destruct Hs as [Hs Hy].
    destruct (cmp x y) eqn:E.
    + exfalso. apply (Hx y); [left; reflexivity | apply cmp_eq_key, E].
    + constructor; [constructor; assumption|].
      constructor; [exact E|].
      rewrite List.Forall_forall in *. intros z Hz. apply (cmp_trans x y z E), Hy, Hz.
    + constructor.
      * apply IH; [exact Hs|]. intros z Hz. apply Hx. right. exact Hz.
      * rewrite List.Forall_forall in *. intros z Hz.
        apply (Permutation_in _ (insertSorted_perm x l)) in Hz.
        destruct Hz as [<-|Hz]; [|apply Hy, Hz].
        rewrite cmp_antisym, E. reflexivity.
Qed.

Lemma foldl_insertSorted_sorted (l : list A) : forall acc,
  StronglySorted before acc ->
  NoDup (map key (l ++ acc)) ->
  StronglySorted before (foldl (fun acc x => insertSorted cmp x acc) acc l).
Proof.
  induction l as [|x l IH]; intros acc Hs Hnd; simpl; [exact Hs|].
  simpl in Hnd. apply NoDup_cons in Hnd. destruct Hnd as [Hx Hnd].
  apply IH.
  - apply insertSorted_sorted; [exact Hs|].
    intros y Hy E. apply Hx. rewrite E.
    apply list_elem_of_In, in_map, in_or_app. right. exact Hy.
  - assert (Hp : Permutation (l ++ insertSorted cmp x acc) (x :: l ++ acc)).
    { rewrite insertSorted_perm. symmetry. apply Permutation_middle. }
    rewrite (Permutation_map key Hp). simpl.
    apply NoDup_cons. split; assumption.
Qed.

Lemma sortBy_sorted (l : list A) :
  NoDup (map key l) -> StronglySorted before (sortBy cmp l).
Proof.
  intros Hnd. unfold sortBy. apply foldl_insertSorted_sorted; [constructor|].
  rewrite app_nil_r. exact Hnd.
Qed.

Lemma sorted_perm_unique (l1 : list A) : forall l2,
  StronglySorted before l1 -> StronglySorted before l2 ->
  Permutation l1 l2 -> l1 = l2.
Proof.
  induction l1 as [|a l1 IH]; intros l2 H1 H2 Hp.
  - apply Permutation_nil in Hp. congruence.
  - destruct l2 as [|b l2]; [symmetry in Hp; apply Permutation_nil in Hp; discriminate|].
    apply StronglySorted_inv in H1. destruct H1 as [H1 Ha].
    apply StronglySorted_inv in H2. destruct H2 as [H2 Hb].
    rewrite List.Forall_forall in Ha, Hb.
    assert (Hab : a = b).
    { assert (Hina : In a (b :: l2)) by (apply (Permutation_in _ Hp); left; reflexivity).
      assert (Hinb : In b (a :: l1)) by (apply (Permutation_in _ (Permutation_sym Hp)); left; reflexivity).
      destruct Hina as [->|Hina]; [reflexivity|].
      destruct Hinb as [->|Hinb]; [reflexivity|].
      exfalso. apply (before_asym a b); [apply Ha, Hinb | apply Hb, Hina]. }
    subst b. f_equal. apply IH; [assumption | assumption |].
    apply (Permutation_cons_inv Hp).
Qed.

Lemma sortBy_permutation_invariant (l1 l2 : list A) :
  NoDup (map key l1) -> Permutation l1 l2 -> sortBy cmp l1 = sortBy cmp l2.
Proof.
  intros Hnd Hp. apply sorted_perm_unique.
  - apply sortBy_sorted, Hnd.
  - apply sortBy_sorted. rewrite <- (Permutation_map key Hp). exact Hnd.
  - rewrite !sortBy_perm. exact Hp.
Qed.

End StableSort.

Section ColumnOrder.

Import DatasetFingerprintingService.

Lemma ascii_compare_lt_trans (a b c : ascii) :
  Ascii.compare a b = Lt -> Ascii.compare b c = Lt -> Ascii.compare a c = Lt.
Proof.
  unfold Ascii.compare. rewrite !N.compare_lt_iff. apply N.lt_trans.
Qed.

Lemma codeUnitCompare_trans (s1 : string) : forall s2 s3,
  codeUnitCompare s1 s2 = Lt -> codeUnitCompare s2 s3 = Lt -> codeUnitCompare s1 s3 = Lt.
Proof.
  unfold codeUnitCompare.
  induction s1 as [|a s1 IH]; intros [|b s2] [|c s3]; simpl; try congruence.
  destruct (Ascii.compare a b) eqn:Eab; try discriminate;
    destruct (Ascii.compare b c) eqn:Ebc; try discriminate.
  - apply Ascii.compare_eq_iff in Eab, Ebc. subst.
    rewrite (proj2 (N.compare_eq_iff _ _) eq_refl : Ascii.compare c c = Eq). apply IH.
  - apply Ascii.compare_eq_iff in Eab. subst. rewrite Ebc. reflexivity.
  - apply Ascii.compare_eq_iff in Ebc. subst. rewrite Eab. reflexivity.
  - rewrite (ascii_compare_lt_trans a b c Eab Ebc). reflexivity.
Qed.

(** Under a collation that is a strict total order of the strings, one
    that never gives [Eq] for two different names, the schema string does
    not depend on the enumeration order. *)
Lemma schemaString_permutation (localeCompare : string -> string -> comparison)
    (schema1 schema2 : JsRecord) :
  (forall a b c, localeCompare a b = Lt -> localeCompare b c = Lt -> localeCompare a c = Lt) ->
  (forall a b, localeCompare a b = CompOpp (localeCompare b a)) ->
  (forall a b, localeCompare a b = Eq -> a = b) ->
  wfRecord schema1 -> Permutation schema1 schema2 ->
  schemaString localeCompare schema1 = schemaString localeCompare schema2.
Proof.
  intros Htrans Hanti Heq Hwf Hp. unfold schemaString, Object_entries.
  rewrite (sortBy_permutation_invariant
             (fun a b : string * string => localeCompare (fst a) (fst b)) fst) with (l2 := schema2);
    [reflexivity | | | | exact Hwf | exact Hp].
  - intros a b c. apply Htrans.
  - intros a b. apply Hanti.
  - intros a b. apply Heq.
Qed.

Lemma schemaString_permutation_codeUnits (schema1 schema2 : JsRecord) :
  wfRecord schema1 -> Permutation schema1 schema2 ->
  schemaString codeUnitCompare schema1 = schemaString codeUnitCompare schema2.
Proof.
  apply schemaString_permutation.
  - intros a b c. apply codeUnitCompare_trans.
  - intros a b. apply String.compare_antisym.
  - intros a b. apply String.compare_eq_iff.
Qed.

End ColumnOrder.

(** ** Fingerprinting *)

Example schemaString_sample :
  DatasetFingerprintingService.schemaString codeUnitCompare
    [("name", "string"); ("id", "number")]%string
  = "id:number|name:string"%string.
Proof. reflexivity. Qed.

Example hyphenBlindCompare_ties :
  hyphenBlindCompare "a" ("a" +:+ softHyphen) = Eq
  /\ hyphenBlindCompare ("a" +:+ softHyphen) "a" = Eq
  /\ hyphenBlindCompare "a" "b" = Lt.
Proof. repeat split. Qed.

(** C4.  [generateSchemaHash] sorts the entries with [localeCompare] and
    digests them joined as [name:type] pairs with the delimiter [|].  When
    the collation gives [Eq] for the column names [a] and [a] followed by a
    soft hyphen, the stable sort leaves the two entries in their
    enumeration order: the two enumerations of that schema are digested as
    two different strings, and get two different digests unless the digest
    function collides on them. *)
Theorem generateSchemaHash_order_of_tied_names
    (sha256Hex : string -> string) (localeCompare : string -> string -> comparison) :
  localeCompare "a" ("a" +:+ softHyphen) = Eq ->
  localeCompare ("a" +:+ softHyphen) "a" = Eq ->
  wfRecord hyphenSchema
  /\ Permutation hyphenSchema hyphenSchemaReordered
  /\ DatasetFingerprintingService.generateSchemaHash sha256Hex localeCompare hyphenSchema
     = sha256Hex ("a:x|a" +:+ softHyphen +:+ ":y")
  /\ DatasetFingerprintingService.generateSchemaHash sha256Hex localeCompare hyphenSchemaReordered
     = sha256Hex ("a" +:+ softHyphen +:+ ":y|a:x")
  /\ DatasetFingerprintingService.schemaString localeCompare hyphenSchema
     <> DatasetFingerprintingService.schemaString localeCompare hyphenSchemaReordered
  /\ (sha256Hex ("a:x|a" +:+ softHyphen +:+ ":y") <> sha256Hex ("a" +:+ softHyphen +:+ ":y|a:x") ->
      DatasetFingerprintingService.generateSchemaHash sha256Hex localeCompare hyphenSchema
      <> DatasetFingerprintingService.generateSchemaHash sha256Hex localeCompare hyphenSchemaReordered).
Proof.
  intros Hab Hba.
  assert (H1 : DatasetFingerprintingService.schemaString localeCompare hyphenSchema
               = ("a:x|a" +:+ softHyphen +:+ ":y")%string).
  { unfold DatasetFingerprintingService.schemaString, hyphenSchema, Object_entries, sortBy.
    cbn [foldl insertSorted fst]. rewrite Hba. reflexivity. }
  assert (H2 : DatasetFingerprintingService.schemaString localeCompare hyphenSchemaReordered
               = ("a" +:+ softHyphen +:+ ":y|a:x")%string).
  { unfold DatasetFingerprintingService.schemaString, hyphenSchemaReordered, Object_entries, sortBy.
    cbn [foldl insertSorted fst]. rewrite Hab. reflexivity. }
  split.
  { unfold wfRecord. apply (bool_decide_unpack _). vm_compute. reflexivity. }
  split; [apply perm_swap|].
  unfold DatasetFingerprintingService.generateSchemaHash. rewrite H1, H2.
  split; [reflexivity|]. split; [reflexivity|].
  split; [discriminate|].
  intros Hne. exact Hne.
Qed.

Lemma generateSchemaHash_order_of_tied_names_witness :
  DatasetFingerprintingService.schemaString hyphenBlindCompare hyphenSchema
  <> DatasetFingerprintingService.schemaString hyphenBlindCompare hyphenSchemaReordered.
Proof.
  apply (generateSchemaHash_order_of_tied_names sampleDigest hyphenBlindCompare);
    reflexivity.
Defined.

(** ** Duplication detection *)

Section Detection.

Import DuplicationDetectionService.

Variable toFixed : R -> nat -> string.

Lemma mapSet_In (key : string) (value : Dataset.t) (m : list (string * Dataset.t)) :
  forall k v, In (k, v) (mapSet key value m) -> (k, v) = (key, value) \/ In (k, v) m.
Proof.
  induction m as [|[k0 v0] m IH]; intros k v Hin; simpl in Hin.
  - destruct Hin as [E|[]]. left. symmetry. exact E.
  - destruct (decide (k0 = key)) as [->|Hne]; simpl in Hin.
    + destruct Hin as [E|Hin]; [left; symmetry; exact E | right; right; exact Hin].
    + destruct Hin as [E|Hin]; [right; left; exact E|].
      destruct (IH k v Hin) as [E|Hin']; [left; exact E | right; right; exact Hin'].
Qed.

Lemma mapSet_keeps_others (key : string) (value : Dataset.t) (m : list (string * Dataset.t)) :
  forall k v, In (k, v) m -> k <> key -> In (k, v) (mapSet key value m).
Proof.
  induction m as [|[k0 v0] m IH]; intros k v Hin Hne; simpl in *; [contradiction|].
  destruct (decide (k0 = key)) as [->|Hk0]; simpl.
  - destruct Hin as [E|Hin]; [congruence | right; exact Hin].
  - destruct Hin as [E|Hin]; [left; exact E | right; apply IH; assumption].
Qed.

Lemma mapSet_keyedById (dataset : Dataset.t) (m : list (string * Dataset.t)) :
  keyedById m -> keyedById (mapSet (Dataset.id dataset) dataset m).
Proof.
  intros Hm k v Hin. apply mapSet_In in Hin. destruct Hin as [E|Hin].
  - injection E as Hk Hv. subst k v. reflexivity.
  - apply Hm, Hin.
Qed.

Lemma newAlert_alertFor (rd : Reading) (newDataset : Dataset.t) (entry : string * Dataset.t) :
  fst entry <> Dataset.id newDataset ->
  isExactMatch newDataset (snd entry) = true ->
  alertFor newDataset entry (newAlert toFixed rd newDataset (snd entry) TypeExact 1).
Proof.
  intros Hne Hex. unfold alertFor. rewrite Hex. cbn.
  repeat split. exact Hne.
Qed.

Lemma checkOne_spec (env : Env) (newDataset : Dataset.t) (k : nat)
    (log : list DuplicationAlert.t) (entry : string * Dataset.t) :
  exists new,
    checkOne toFixed env newDataset (k, log) entry = ((k + length new)%nat, log ++ new)
    /\ Forall (alertFor newDataset entry) new
    /\ (fst entry <> Dataset.id newDataset ->
        isExactMatch newDataset (snd entry) = true ->
        new = [newAlert toFixed (env k) newDataset (snd entry) TypeExact 1]).
Proof.
  destruct entry as [id existingDataset]. unfold checkOne.
  destruct (decide (id = Dataset.id newDataset)) as [Heq|Hne].
  { exists []. rewrite Nat.add_0_r, app_nil_r. split; [reflexivity|].
    split; [constructor|]. intros Hne. contradiction. }
  destruct (isExactMatch newDataset existingDataset) eqn:Hex.
  { exists [newAlert toFixed (env k) newDataset existingDataset TypeExact 1].
    simpl length. rewrite Nat.add_1_r. split; [reflexivity|].
    split; [|reflexivity].
    constructor; [|constructor].
    apply (newAlert_alertFor (env k) newDataset (id, existingDataset)); assumption. }
  destruct (isDuplicate (calculateSimilarityMetrics newDataset existingDataset) defaultThresholds) eqn:Hd.
  4: { exists []. rewrite Nat.add_0_r, app_nil_r. split; [reflexivity|].
       split; [constructor|]. intros _ Habs. cbn [snd] in Habs. congruence. }
  all: eexists [_]; simpl length; rewrite Nat.add_1_r; split; [reflexivity|];
    split; [|intros _ Habs; cbn [snd] in Habs; congruence];
    constructor; [|constructor];
    unfold alertFor; cbn [fst snd]; rewrite Hex; cbn; rewrite Hd;
    repeat split; try exact Hne; discriminate.
Qed.

Lemma checkLoop_spec (env : Env) (newDataset : Dataset.t) (registry : list (string * Dataset.t)) :
  forall k log,
  exists new,
    foldl (checkOne toFixed env newDataset) (k, log) registry = ((k + length new)%nat, log ++ new)
    /\ Forall (fun alert => exists entry, In entry registry /\ alertFor newDataset entry alert) new
    /\ (forall entry,
          In entry registry ->
          fst entry <> Dataset.id newDataset ->
          isExactMatch newDataset (snd entry) = true ->
          exists rd, In (newAlert toFixed rd newDataset (snd entry) TypeExact 1) new).
Proof.
  induction registry as [|entry registry IH]; intros k log.
  - exists []. simpl. rewrite Nat.add_0_r, app_nil_r. split; [reflexivity|].
    split; [constructor|]. intros entry [].
  - destruct (checkOne_spec env newDataset k log entry) as (new1 & Hstep & Hall1 & Hex1).
    destruct (IH (k + length new1)%nat (log ++ new1)) as (new2 & Hrest & Hall2 & Hex2).
    exists (new1 ++ new2).
    change (foldl (checkOne toFixed env newDataset) (k, log) (entry :: registry))
      with (foldl (checkOne toFixed env newDataset)
              (checkOne toFixed env newDataset (k, log) entry) registry).
    rewrite Hstep, Hrest.
    rewrite length_app, Nat.add_assoc, app_assoc. split; [reflexivity|]. split.
    + apply Forall_app. split.
      * eapply Forall_impl; [exact Hall1|]. intros alert Ha. exists entry. split; [left; reflexivity | exact Ha].
      * eapply Forall_impl; [exact Hall2|]. intros alert (e & He & Ha). exists e. split; [right; exact He | exact Ha].
    + intros e [<-|He] Hne Hexact.
      * exists (env k). rewrite (Hex1 Hne Hexact). apply in_or_app. left. left. reflexivity.
      * destruct (Hex2 e He Hne Hexact) as [rd Hrd]. exists rd. apply in_or_app. right. exact Hrd.
Qed.

Lemma addDataset_spec (env : Env) (dataset : Dataset.t) (self : t) :
  let registry := mapSet (Dataset.id dataset) dataset (datasets self) in
  exists new,
    addDataset toFixed env dataset self = mk registry (alerts self ++ new)
    /\ Forall (fun alert => exists entry, In entry registry /\ alertFor dataset entry alert) new
    /\ (forall entry,
          In entry registry ->
          fst entry <> Dataset.id dataset ->
          isExactMatch dataset (snd entry) = true ->
          exists rd, In (newAlert toFixed rd dataset (snd entry) TypeExact 1) new).
Proof.
  intros registry.
  destruct (checkLoop_spec env dataset registry 0%nat (alerts self)) as (new & Hloop & Hall & Hex).
  exists new. split; [|split; assumption].
  unfold addDataset, checkForDuplicates. cbn [datasets alerts].
  fold registry. rewrite Hloop. reflexivity.
Qed.

End Detection.

Section DetectionInvariants.

Import DuplicationDetectionService.

Variable toFixed : R -> nat -> string.

Lemma isExactMatch_true (dataset1 dataset2 : Dataset.t) :
  DatasetFingerprint.contentHash (Dataset.fingerprint dataset1)
  = DatasetFingerprint.contentHash (Dataset.fingerprint dataset2) ->
  DatasetFingerprint.schemaHash (Dataset.fingerprint dataset1)
  = DatasetFingerprint.schemaHash (Dataset.fingerprint dataset2) ->
  isExactMatch dataset1 dataset2 = true.
Proof.
  intros Hc Hs. unfold isExactMatch.
  rewrite (bool_decide_eq_true_2 _ Hc), (bool_decide_eq_true_2 _ Hs). reflexivity.
Qed.

Lemma shortcut_alert_recorded (env : Env) (A B : Dataset.t) (self : t) :
  In (Dataset.id A, A) (datasets self) ->
  Dataset.id A <> Dataset.id B ->
  isExactMatch B A = true ->
  exists new alert,
    alerts (addDataset toFixed env B self) = alerts self ++ new
    /\ In alert new
    /\ DuplicationAlert.type alert = TypeExact
    /\ DuplicationAlert.confidence alert = 1
    /\ DuplicationAlert.originalDataset alert = A
    /\ DuplicationAlert.duplicateDataset alert = B
    /\ DuplicationAlert.similarities alert = calculateSimilarityMetrics B A.
Proof.
  intros Hin Hne Hex.
  destruct (addDataset_spec toFixed env B self) as (new & Hadd & _ & Hrec).
  destruct (Hrec (Dataset.id A, A)) as [rd Hrd].
  - apply mapSet_keeps_others; assumption.
  - exact Hne.
  - exact Hex.
  - exists new, (newAlert toFixed rd B A TypeExact 1).
    rewrite Hadd. cbn [alerts]. repeat split. exact Hrd.
Qed.

Lemma checkOne_own_id (env : Env) (dataset existing : Dataset.t) (st : nat * list DuplicationAlert.t) :
  checkOne toFixed env dataset st (Dataset.id dataset, existing) = st.
Proof.
  destruct st as [k log]. unfold checkOne.
  destruct (decide (Dataset.id dataset = Dataset.id dataset)); [reflexivity | contradiction].
Qed.

Lemma mapSet_head (key : string) (value old : Dataset.t) (m : list (string * Dataset.t)) :
  mapSet key value ((key, old) :: m) = (key, value) :: m.
Proof. simpl. destruct (decide (key = key)); [reflexivity | contradiction]. Qed.

Lemma addDataset_first (env : Env) (dataset : Dataset.t) :
  addDataset toFixed env dataset create = mk [(Dataset.id dataset, dataset)] [].
Proof.
  unfold addDataset, checkForDuplicates, create. cbn [datasets alerts mapSet foldl].
  rewrite checkOne_own_id. reflexivity.
Qed.

Lemma addDataset_replace (env : Env) (old dataset : Dataset.t) (log : list DuplicationAlert.t) :
  Dataset.id old = Dataset.id dataset ->
  addDataset toFixed env dataset (mk [(Dataset.id old, old)] log)
  = mk [(Dataset.id dataset, dataset)] log.
Proof.
  intros Hid. unfold addDataset, checkForDuplicates. cbn [datasets alerts].
  rewrite Hid, mapSet_head. cbn [foldl]. rewrite checkOne_own_id. reflexivity.
Qed.

Lemma reachable_keyedById (self : t) : reachable toFixed self -> keyedById (datasets self).
Proof.
  induction 1 as [|env dataset self _ IH|now days self _ IH].
  - intros k v [].
  - destruct (addDataset_spec toFixed env dataset self) as (new & -> & _).
    cbn [datasets]. apply mapSet_keyedById, IH.
  - exact IH.
Qed.

Lemma new_alerts_pair_distinct (env : Env) (dataset : Dataset.t) (self : t) :
  keyedById (datasets self) ->
  exists new,
    alerts (addDataset toFixed env dataset self) = alerts self ++ new
    /\ forall alert, In alert new ->
         DuplicationAlert.duplicateDataset alert = dataset
         /\ Dataset.id (DuplicationAlert.originalDataset alert) <> Dataset.id dataset.
Proof.
  intros Hkeyed.
  destruct (addDataset_spec toFixed env dataset self) as (new & Hadd & Hall & _).
  exists new. rewrite Hadd. split; [reflexivity|].
  intros alert Hin. rewrite List.Forall_forall in Hall.
  destruct (Hall alert Hin) as ([key existing] & Hentry & Hne & Horig & Hdup & _).
  cbn [fst snd] in *. split; [exact Hdup|].
  rewrite Horig.
  rewrite <- (mapSet_keyedById dataset (datasets self) Hkeyed key existing Hentry).
  exact Hne.
Qed.

Lemma clearOldAlerts_In (now : Date) (days : Z) (self : t) (alert : DuplicationAlert.t) :
  In alert (alerts (clearOldAlerts now days self))
  <-> In alert (alerts self) /\ (DuplicationAlert.createdAt alert > cutoffDate now days)%Z.
Proof.
  unfold clearOldAlerts. cbn [alerts].
  rewrite <- !list_elem_of_In, list_elem_of_filter. tauto.
Qed.

Lemma reachable_no_self_pair (self : t) :
  reachable toFixed self ->
  forall alert, In alert (alerts self) ->
    Dataset.id (DuplicationAlert.originalDataset alert)
    <> Dataset.id (DuplicationAlert.duplicateDataset alert).
Proof.
  induction 1 as [|env dataset self Hreach IH|now days self _ IH]; intros alert Hin.
  - destruct Hin.
  - destruct (new_alerts_pair_distinct env dataset self (reachable_keyedById self Hreach))
      as (new & Hadd & Hnew).
    rewrite Hadd in Hin. apply in_app_or in Hin. destruct Hin as [Hold|Hin].
    + apply IH, Hold.
    + destruct (Hnew alert Hin) as [-> Hne]. exact Hne.
  - apply clearOldAlerts_In in Hin. apply IH, Hin.
Qed.

End DetectionInvariants.

Import DuplicationDetectionService.

(** C1, as stated, at a new dataset that carries the id of the registered
    one: [salesDataset] is in the registry, [salesResubmitted] has the same
    content hash and the same schema hash, yet adding it records no alert. *)
Lemma exact_shortcut_same_id_counterexample :
  In (Dataset.id salesDataset, salesDataset)
    (datasets (addDataset sampleToFixed sampleEnv salesDataset create))
  /\ DatasetFingerprint.contentHash (Dataset.fingerprint salesDataset)
     = DatasetFingerprint.contentHash (Dataset.fingerprint salesResubmitted)
  /\ DatasetFingerprint.schemaHash (Dataset.fingerprint salesDataset)
     = DatasetFingerprint.schemaHash (Dataset.fingerprint salesResubmitted)
  /\ alerts (addDataset sampleToFixed sampleEnv salesResubmitted
               (addDataset sampleToFixed sampleEnv salesDataset create)) = []
  /\ ~ (exists alert,
          In alert (alerts (addDataset sampleToFixed sampleEnv salesResubmitted
                              (addDataset sampleToFixed sampleEnv salesDataset create)))
          /\ DuplicationAlert.type alert = TypeExact
          /\ DuplicationAlert.confidence alert = 1).
Proof.
  rewrite addDataset_first.
  rewrite (addDataset_replace sampleToFixed sampleEnv salesDataset salesResubmitted [] eq_refl).
  cbn [datasets alerts].
  split; [left; reflexivity|].
  split; [reflexivity|].
  split; [reflexivity|].
  split; [reflexivity|].
  intros (alert & [] & _).
Qed.

(** C1, amended.  When a dataset A is in the registry and a dataset B with
    another id but the same content hash and the same schema hash is added,
    [addDataset] appends to the log an alert of type "exact" and confidence
    1 whose original dataset is A and whose duplicate dataset is B,
    whatever the similarity metrics of the pair are. *)
Theorem exact_shortcut_records_exact_alert
    (toFixed : R -> nat -> string) (env : Env) (A B : Dataset.t) (self : t) :
  In (Dataset.id A, A) (datasets self) ->
  Dataset.id A <> Dataset.id B ->
  DatasetFingerprint.contentHash (Dataset.fingerprint A)
  = DatasetFingerprint.contentHash (Dataset.fingerprint B) ->
  DatasetFingerprint.schemaHash (Dataset.fingerprint A)
  = DatasetFingerprint.schemaHash (Dataset.fingerprint B) ->
  exists new alert,
    alerts (addDataset toFixed env B self) = alerts self ++ new
    /\ In alert new
    /\ DuplicationAlert.type alert = TypeExact
    /\ DuplicationAlert.confidence alert = 1
    /\ DuplicationAlert.originalDataset alert = A
    /\ DuplicationAlert.duplicateDataset alert = B.
Proof.
  intros Hin Hne Hc Hs.
  destruct (shortcut_alert_recorded toFixed env A B self Hin Hne) as (new & alert & H).
  - apply isExactMatch_true; symmetry; assumption.
  - exists new, alert. tauto.
Qed.

Lemma exact_shortcut_records_exact_alert_witness :
  exists new alert,
    alerts (addDataset sampleToFixed sampleEnv reportDataset
              (mk [(Dataset.id salesDataset, salesDataset)] []))
    = [] ++ new
    /\ In alert new
    /\ DuplicationAlert.type alert = TypeExact
    /\ DuplicationAlert.confidence alert = 1
    /\ DuplicationAlert.originalDataset alert = salesDataset
    /\ DuplicationAlert.duplicateDataset alert = reportDataset.
Proof.
  apply (exact_shortcut_records_exact_alert sampleToFixed sampleEnv salesDataset reportDataset
           (mk [(Dataset.id salesDataset, salesDataset)] [])).
  - left. reflexivity.
  - discriminate.
  - reflexivity.
  - reflexivity.
Defined.

(** C9.  In every state that the service reaches, no alert of the log has
    the same dataset id on both sides; and the alerts that [addDataset D]
    appends in such a state have D as their duplicate and a dataset with
    another id as their original, so none has both ids equal to the id of
    D. *)
Theorem no_alert_pairs_a_dataset_with_itself
    (toFixed : R -> nat -> string) (self : t) :
  reachable toFixed self ->
  (forall alert, In alert (alerts self) ->
     Dataset.id (DuplicationAlert.originalDataset alert)
     <> Dataset.id (DuplicationAlert.duplicateDataset alert))
  /\ (forall env D,
        exists new,
          alerts (addDataset toFixed env D self) = alerts self ++ new
          /\ forall alert, In alert new ->
               ~ (Dataset.id (DuplicationAlert.originalDataset alert) = Dataset.id D
                  /\ Dataset.id (DuplicationAlert.duplicateDataset alert) = Dataset.id D)).
Proof.
  intros Hreach. split.
  - apply reachable_no_self_pair with (toFixed := toFixed). exact Hreach.
  - intros env D.
    destruct (new_alerts_pair_distinct toFixed env D self (reachable_keyedById toFixed self Hreach))
      as (new & Hadd & Hnew).
    exists new. split; [exact Hadd|].
    intros alert Hin [Horig _]. destruct (Hnew alert Hin) as [_ Hne]. contradiction.
Qed.

Lemma no_alert_pairs_a_dataset_with_itself_witness :
  reachable sampleToFixed
    (addDataset sampleToFixed sampleEnv reportDataset
       (addDataset sampleToFixed sampleEnv salesDataset create))
  /\ (forall alert,
        In alert (alerts (addDataset sampleToFixed sampleEnv reportDataset
                            (addDataset sampleToFixed sampleEnv salesDataset create))) ->
        Dataset.id (DuplicationAlert.originalDataset alert)
        <> Dataset.id (DuplicationAlert.duplicateDataset alert)).
Proof.
  assert (Hreach : reachable sampleToFixed
                     (addDataset sampleToFixed sampleEnv reportDataset
                        (addDataset sampleToFixed sampleEnv salesDataset create))).
  { apply reachable_addDataset, reachable_addDataset, reachable_create. }
  split; [exact Hreach|].
  exact (proj1 (no_alert_pairs_a_dataset_with_itself sampleToFixed _ Hreach)).
Defined.

(** ** Retention *)

Section RetentionFacts.

Variable toFixed : R -> nat -> string.
Variables offsetAtInstant offsetAtLocalTime DateFromTime : Z -> Z.

Local Abbreviation LocalTime := (Retention.LocalTime offsetAtInstant).
Local Abbreviation UTC := (Retention.UTC offsetAtLocalTime).
Local Abbreviation getDate := (Retention.getDate offsetAtInstant DateFromTime).
Local Abbreviation cutoffDate :=
  (Retention.cutoffDate offsetAtInstant offsetAtLocalTime DateFromTime).
Local Abbreviation clearOldAlerts :=
  (Retention.clearOldAlerts offsetAtInstant offsetAtLocalTime DateFromTime).

Lemma wholeDaysExact_all :
  forallRange (fun n => forallRange (wholeDaysExact n) 1 31) 0 (Z.to_nat 36526) = true.
Proof. vm_compute. reflexivity. Qed.

Lemma truncateExact_all : forallRange truncateExact (-36525) (Z.to_nat 36557) = true.
Proof. vm_compute. reflexivity. Qed.

Lemma truncate_whole_days (n date : Z) :
  (0 <= n <= 36525)%Z -> (1 <= date <= 31)%Z ->
  Retention.truncate (PrimFloat.sub (Retention.numberOfZ date) (Retention.numberOfZ n))
  = Some (date - n)%Z.
Proof.
  intros Hn Hd.
  pose proof (forallRange_spec _ _ _ wholeDaysExact_all n ltac:(lia)) as Hrow. cbv beta in Hrow.
  pose proof (forallRange_spec _ _ _ Hrow date ltac:(lia)) as Hcell.
  unfold wholeDaysExact in Hcell. apply FloatAxioms.Leibniz.eqb_spec in Hcell. rewrite Hcell.
  pose proof (forallRange_spec _ _ _ truncateExact_all (date - n)%Z ltac:(lia)) as Htr.
  unfold truncateExact in Htr. apply bool_decide_eq_true in Htr. exact Htr.
Qed.

Lemma MakeDate_day_shift (local date dt : Z) :
  Retention.MakeDate (Retention.Day local - (date - 1) + dt - 1) (Retention.TimeWithinDay local)
  = (local + (dt - date) * msPerDay)%Z.
Proof.
  unfold Retention.MakeDate, Retention.Day, Retention.TimeWithinDay, msPerDay.
  pose proof (Z.div_mod local 86400000 ltac:(lia)). lia.
Qed.

Lemma cutoffDate_whole_days (now n : Z) :
  (0 <= n <= 36525)%Z -> (1 <= getDate now <= 31)%Z ->
  cutoffDate now (Retention.numberOfZ n)
  = Retention.TimeClip (UTC (LocalTime now - n * msPerDay)%Z).
Proof.
  intros Hn Hd. unfold Retention.cutoffDate, Retention.setDate.
  rewrite (truncate_whole_days n (getDate now) Hn Hd).
  unfold Retention.getDate. rewrite MakeDate_day_shift.
  do 2 f_equal. lia.
Qed.

Lemma cutoffDate_same_offset (now n : Z) :
  (0 <= n <= 36525)%Z -> (1 <= getDate now <= 31)%Z ->
  offsetAtLocalTime (LocalTime now - n * msPerDay)%Z = offsetAtInstant now ->
  (Z.abs (now - n * msPerDay) <= Retention.maxTime)%Z ->
  cutoffDate now (Retention.numberOfZ n) = Some (now - n * msPerDay)%Z.
Proof.
  intros Hn Hd Hoff Hrange. rewrite (cutoffDate_whole_days now n Hn Hd).
  unfold Retention.UTC. rewrite Hoff. unfold Retention.LocalTime, Retention.TimeClip.
  replace (now + offsetAtInstant now - n * msPerDay - offsetAtInstant now)%Z
    with (now - n * msPerDay)%Z by lia.
  destruct (decide (Z.abs (now - n * msPerDay) <= Retention.maxTime)%Z); [reflexivity | contradiction].
Qed.

Lemma retained_In (now : Date) (olderThanDays : float) (self : t) (alert : DuplicationAlert.t) :
  In alert (alerts (clearOldAlerts now olderThanDays self))
  <-> In alert (alerts self)
      /\ Retention.isAfter (DuplicationAlert.createdAt alert) (cutoffDate now olderThanDays) = true.
Proof.
  unfold Retention.clearOldAlerts. cbn [alerts].
  rewrite <- !list_elem_of_In, list_elem_of_filter. tauto.
Qed.

Lemma retained_valid (now : Date) (olderThanDays : float) (self : t) (cutoff : Date)
    (alert : DuplicationAlert.t) :
  cutoffDate now olderThanDays = Some cutoff ->
  In alert (alerts (clearOldAlerts now olderThanDays self))
  <-> In alert (alerts self) /\ (DuplicationAlert.createdAt alert > cutoff)%Z.
Proof.
  intros Hcut. rewrite retained_In, Hcut. unfold Retention.isAfter.
  rewrite bool_decide_eq_true. reflexivity.
Qed.

Lemma retained_invalid (now : Date) (olderThanDays : float) (self : t) :
  cutoffDate now olderThanDays = None ->
  alerts (clearOldAlerts now olderThanDays self) = [].
Proof.
  intros Hcut. unfold Retention.clearOldAlerts. cbn [alerts]. rewrite Hcut.
  induction (alerts self) as [|alert log IH]; [reflexivity|].
  rewrite filter_cons. destruct (decide (Retention.isAfter _ None = true)) as [E|_]; [discriminate E|].
  exact IH.
Qed.

(** The log that [Retention.clearOldAlerts] leaves is one that
    [DuplicationDetectionService.clearOldAlerts] leaves for some call time:
    the states that the service reaches are closed under it. *)
Lemma retained_as_cutoff (now : Date) (olderThanDays : float) (self : t) :
  exists now', clearOldAlerts now olderThanDays self
               = DuplicationDetectionService.clearOldAlerts now' 0 self.
Proof.
  destruct (cutoffDate now olderThanDays) as [cutoff|] eqn:Hcut.
  - exists cutoff. unfold Retention.clearOldAlerts, DuplicationDetectionService.clearOldAlerts.
    f_equal. rewrite Hcut. apply list_filter_iff. intros alert.
    unfold Retention.isAfter, DuplicationDetectionService.cutoffDate, addDays.
    rewrite bool_decide_eq_true. lia.
  - exists (foldr (fun alert bound => Z.max (DuplicationAlert.createdAt alert) bound) 0%Z (alerts self)).
    unfold DuplicationDetectionService.clearOldAlerts.
    replace (Retention.clearOldAlerts offsetAtInstant offsetAtLocalTime DateFromTime now olderThanDays self)
      with (mk (datasets self) []).
    2:{ unfold Retention.clearOldAlerts. f_equal. symmetry.
        apply (retained_invalid now olderThanDays self Hcut). }
    f_equal. symmetry.
    unfold DuplicationDetectionService.cutoffDate, addDays.
    assert (Hall : forall log bound,
               (foldr (fun alert bound => Z.max (DuplicationAlert.createdAt alert) bound) 0%Z log <= bound)%Z ->
               filter (fun alert => (DuplicationAlert.createdAt alert > bound + - 0 * msPerDay)%Z) log = []).
    { induction log as [|alert log IH]; intros bound Hb; [reflexivity|].
      cbn [foldr] in Hb. rewrite filter_cons.
      destruct (decide (DuplicationAlert.createdAt alert > bound + - 0 * msPerDay)%Z) as [Hgt|_]; [lia|].
      apply IH. lia. }
    apply Hall. lia.
Qed.

Lemma reachable_retained (now : Date) (olderThanDays : float) (self : t) :
  reachable toFixed self -> reachable toFixed (clearOldAlerts now olderThanDays self).
Proof.
  intros Hreach. destruct (retained_as_cutoff now olderThanDays self) as [now' ->].
  apply reachable_clearOldAlerts, Hreach.
Qed.

End RetentionFacts.

Example civilDayOfMonth_samples :
  civilDayOfMonth 0 = 1%Z
  /\ civilDayOfMonth 951782400000 = 29%Z
  /\ civilDayOfMonth 1709251199999 = 29%Z
  /\ civilDayOfMonth 1709251200000 = 1%Z
  /\ civilDayOfMonth 1731240000000 = 10%Z.
Proof. repeat split. Qed.

(** In a zone that keeps UTC the cutoff of the default maximal age lies 30
    days of 24 hours before the call; a maximal age of half a day moves the
    cutoff a whole day back, the day argument 9.5 being truncated to 9. *)
Example cutoffDate_samples :
  Retention.cutoffDate utcOffset utcOffset civilDayOfMonth 1731240000000%Z 30%float
  = Some (1731240000000 - 30 * 86400000)%Z
  /\ Retention.cutoffDate utcOffset utcOffset civilDayOfMonth 1731240000000%Z 0.5%float
     = Some (1731240000000 - 86400000)%Z.
Proof. split; vm_compute; reflexivity. Qed.

(** C8, as stated, at two calls made at noon UTC of 10 November 2024 on a
    log of two alerts.  In a zone that left summer time on 27 October the
    cutoff of [clearOldAlerts(30)] is 11 October, 11:00 UTC, one hour more
    than 30 days before the call, and the alert created 30 days and 30
    minutes before the call stays in the log.  With a maximal age of
    200,000,000 days the cutoff is not a valid Date, and the alert created
    one millisecond before the call is removed. *)
Lemma clearOldAlerts_retention_counterexample :
  Retention.cutoffDate autumnOffsetAtInstant autumnOffsetAtLocalTime civilDayOfMonth
    1731240000000%Z 30%float = Some 1728644400000%Z
  /\ (DuplicationAlert.createdAt (sampleAlert "alert_1728646200000_a1b2c3d4e" 1728646200000%Z)
      < 1731240000000 - 30 * 86400000)%Z
  /\ In (sampleAlert "alert_1728646200000_a1b2c3d4e" 1728646200000%Z)
        (alerts (Retention.clearOldAlerts autumnOffsetAtInstant autumnOffsetAtLocalTime
                   civilDayOfMonth 1731240000000%Z 30%float (mk [] autumnLog)))
  /\ Retention.cutoffDate utcOffset utcOffset civilDayOfMonth 1731240000000%Z 200000000%float = None
  /\ (DuplicationAlert.createdAt (sampleAlert "alert_1731239999999_f5g6h7i8j" 1731239999999%Z)
      > 1731240000000 - 200000000 * 86400000)%Z
  /\ ~ In (sampleAlert "alert_1731239999999_f5g6h7i8j" 1731239999999%Z)
          (alerts (Retention.clearOldAlerts utcOffset utcOffset civilDayOfMonth
                     1731240000000%Z 200000000%float (mk [] autumnLog))).
Proof.
  assert (Hautumn : Retention.cutoffDate autumnOffsetAtInstant autumnOffsetAtLocalTime civilDayOfMonth
                      1731240000000%Z 30%float = Some 1728644400000%Z)
    by (vm_compute; reflexivity).
  assert (Hvast : Retention.cutoffDate utcOffset utcOffset civilDayOfMonth
                    1731240000000%Z 200000000%float = None)
    by (vm_compute; reflexivity).
  split; [exact Hautumn|].
  split; [reflexivity|].
  split.
  { apply (proj2 (retained_valid autumnOffsetAtInstant autumnOffsetAtLocalTime civilDayOfMonth
                    1731240000000%Z 30%float (mk [] autumnLog) 1728644400000%Z
                    (sampleAlert "alert_1728646200000_a1b2c3d4e" 1728646200000%Z) Hautumn)).
    split; [left; reflexivity | reflexivity]. }
  split; [exact Hvast|].
  split; [reflexivity|].
  rewrite (retained_invalid utcOffset utcOffset civilDayOfMonth
             1731240000000%Z 200000000%float (mk [] autumnLog) Hvast).
  intros [].
Qed.

(** C8, amended.  After [clearOldAlerts] with a maximal age of N days,
    whenever the cutoff that the call computes is a valid Date, every alert
    left in the log was created after that cutoff, and an alert created
    after it stays in the log whatever its other fields are.  The cutoff is
    the time of the call with its day of the month moved back by N in local
    time: for a whole N of at most 36525 days it is the local time N days of
    24 hours earlier read back as UTC, which lies N days of 24 hours before
    the call when the zone has the same offset at both times.  The registry
    is untouched.  [addDataset] keeps every alert of the log, and the two
    queries return alerts of the log without changing it: [clearOldAlerts]
    alone removes alerts. *)
Theorem clearOldAlerts_retention
    (toFixed : R -> nat -> string) (offsetAtInstant offsetAtLocalTime DateFromTime : Z -> Z)
    (self : t) (now : Date) (maxAgeDays : float) :
  let cleared :=
    Retention.clearOldAlerts offsetAtInstant offsetAtLocalTime DateFromTime now maxAgeDays self in
  (forall cutoff,
      Retention.cutoffDate offsetAtInstant offsetAtLocalTime DateFromTime now maxAgeDays = Some cutoff ->
      (forall alert,
          In alert (alerts cleared) ->
          In alert (alerts self)
          /\ (DuplicationAlert.createdAt alert > cutoff)%Z
          /\ ~ (DuplicationAlert.createdAt alert <= cutoff)%Z)
      /\ (forall alert,
            In alert (alerts self) ->
            (DuplicationAlert.createdAt alert > cutoff)%Z ->
            In alert (alerts cleared)))
  /\ (forall n,
        (0 <= n <= 36525)%Z ->
        (1 <= Retention.getDate offsetAtInstant DateFromTime now <= 31)%Z ->
        Retention.cutoffDate offsetAtInstant offsetAtLocalTime DateFromTime now (Retention.numberOfZ n)
        = Retention.TimeClip
            (Retention.UTC offsetAtLocalTime
               (Retention.LocalTime offsetAtInstant now - n * 86400000)%Z)
        /\ (offsetAtLocalTime (Retention.LocalTime offsetAtInstant now - n * 86400000)%Z
            = offsetAtInstant now ->
            (Z.abs (now - n * 86400000) <= Retention.maxTime)%Z ->
            Retention.cutoffDate offsetAtInstant offsetAtLocalTime DateFromTime now
              (Retention.numberOfZ n)
            = Some (now - n * 86400000)%Z))
  /\ datasets cleared = datasets self
  /\ (forall alert, In alert (alerts cleared) -> In alert (alerts self))
  /\ (forall env dataset alert,
        In alert (alerts self) -> In alert (alerts (addDataset toFixed env dataset self)))
  /\ (forall alert, In alert (getAlerts self) <-> In alert (alerts self))
  /\ (forall datasetId alert,
        In alert (getAlertsForDataset datasetId self) -> In alert (alerts self)).
Proof.
  intros cleared. subst cleared.
  split.
  { intros cutoff Hcut. split.
    - intros alert Hin. apply (retained_valid _ _ _ _ _ _ _ _ Hcut) in Hin.
      destruct Hin as [Hin Hnew]. split; [exact Hin|]. split; [exact Hnew | lia].
    - intros alert Hin Hnew. apply (retained_valid _ _ _ _ _ _ _ _ Hcut). split; assumption. }
  split.
  { intros n Hn Hd. split.
    - apply cutoffDate_whole_days; assumption.
    - intros Hoff Hrange. apply cutoffDate_same_offset; assumption. }
  split; [reflexivity|].
  split.
  { intros alert Hin. apply retained_In in Hin. apply Hin. }
  split.
  { intros env dataset alert Hin.
    destruct (addDataset_spec toFixed env dataset self) as (new & -> & _).
    cbn [alerts]. apply in_or_app. left. exact Hin. }
  split; [intros alert; reflexivity|].
  intros datasetId alert. unfold getAlertsForDataset.
  rewrite <- !list_elem_of_In, list_elem_of_filter. tauto.
Qed.

Lemma clearOldAlerts_retention_witness :
  In (sampleAlert "alert_1699999999999_f5g6h7i8j" 1699999999999%Z)
     (alerts (Retention.clearOldAlerts utcOffset utcOffset civilDayOfMonth
                1700000000000%Z 30%float (mk [] sampleLog)))
  /\ ~ In (sampleAlert "alert_1600000000000_a1b2c3d4e" 1600000000000%Z)
         (alerts (Retention.clearOldAlerts utcOffset utcOffset civilDayOfMonth
                    1700000000000%Z 30%float (mk [] sampleLog))).
Proof.
  pose proof (clearOldAlerts_retention sampleToFixed utcOffset utcOffset civilDayOfMonth
                (mk [] sampleLog) 1700000000000%Z 30%float) as (Hcut & _).
  assert (Hc : Retention.cutoffDate utcOffset utcOffset civilDayOfMonth 1700000000000%Z 30%float
               = Some 1697408000000%Z) by (vm_compute; reflexivity).
  destruct (Hcut 1697408000000%Z Hc) as [Hleft Hkept].
  split.
  - apply Hkept; [right; left; reflexivity | reflexivity].
  - intros Hin. apply Hleft in Hin. destruct Hin as (_ & _ & Hold). apply Hold.
    discriminate.
Defined.

(** X25.  When the day argument of [setDate] is not finite, as for a
    maximal age that is [NaN] or an infinity, or the new time value is out
    of the range of Date, the cutoff is an invalid Date and
    [clearOldAlerts] empties the log. *)
Theorem clearOldAlerts_invalid_cutoff
    (offsetAtInstant offsetAtLocalTime DateFromTime : Z -> Z)
    (now : Date) (maxAgeDays : float) (self : t) :
  Retention.cutoffDate offsetAtInstant offsetAtLocalTime DateFromTime now maxAgeDays = None ->
  alerts (Retention.clearOldAlerts offsetAtInstant offsetAtLocalTime DateFromTime
            now maxAgeDays self) = []
  /\ datasets (Retention.clearOldAlerts offsetAtInstant offsetAtLocalTime DateFromTime
                 now maxAgeDays self) = datasets self.
Proof.
  intros Hcut. split; [|reflexivity].
  apply retained_invalid, Hcut.
Qed.

Lemma clearOldAlerts_invalid_cutoff_witness :
  alerts (Retention.clearOldAlerts utcOffset utcOffset civilDayOfMonth
            1700000000000%Z nan (mk [] sampleLog)) = []
  /\ datasets (Retention.clearOldAlerts utcOffset utcOffset civilDayOfMonth
                 1700000000000%Z nan (mk [] sampleLog)) = [].
Proof.
  apply (clearOldAlerts_invalid_cutoff utcOffset utcOffset civilDayOfMonth
           1700000000000%Z nan (mk [] sampleLog)).
  vm_compute. reflexivity.
Defined.

(** X26.  The states that a service reaches are closed under
    [clearOldAlerts] with the Date arithmetic of the platform: the log it
    leaves is the log that a cutoff at some time value leaves. *)
Theorem reachable_after_clearOldAlerts
    (toFixed : R -> nat -> string) (offsetAtInstant offsetAtLocalTime DateFromTime : Z -> Z)
    (now : Date) (maxAgeDays : float) (self : t) :
  reachable toFixed self ->
  reachable toFixed
    (Retention.clearOldAlerts offsetAtInstant offsetAtLocalTime DateFromTime now maxAgeDays self)
  /\ exists cutoff,
       alerts (Retention.clearOldAlerts offsetAtInstant offsetAtLocalTime DateFromTime
                 now maxAgeDays self)
       = filter (fun alert => (DuplicationAlert.createdAt alert > cutoff)%Z) (alerts self).
Proof.
  intros Hreach.
  destruct (retained_as_cutoff offsetAtInstant offsetAtLocalTime DateFromTime now maxAgeDays self)
    as [now' E].
  rewrite E. split; [apply reachable_clearOldAlerts, Hreach|].
  exists now'. unfold DuplicationDetectionService.clearOldAlerts. cbn [alerts].
  apply list_filter_iff. intros alert.
  unfold DuplicationDetectionService.cutoffDate, addDays. lia.
Qed.

Lemma reachable_after_clearOldAlerts_witness :
  reachable sampleToFixed
    (Retention.clearOldAlerts utcOffset utcOffset civilDayOfMonth 1700000000000%Z 30%float
       (addDataset sampleToFixed sampleEnv salesDataset create)).
Proof.
  apply (reachable_after_clearOldAlerts sampleToFixed utcOffset utcOffset civilDayOfMonth
           1700000000000%Z 30%float (addDataset sampleToFixed sampleEnv salesDataset create)).
  apply reachable_addDataset, reachable_create.
Defined.

(** ** The shortcut and the metrics stored in the alert *)

Lemma words_sampleDataset (id title : string) (schema : JsRecord) (contentHash schemaHash : string) :
  words (sampleDataset id title schema contentHash schemaHash)
  = newSet (splitWhiteSpace (toLowerCase (title +:+ " " +:+ EmptyString))).
Proof. reflexivity. Qed.

Lemma sample_pair_semantic :
  calculateSemanticSimilarity reportDataset salesDataset = 1 / 5.
Proof.
  unfold calculateSemanticSimilarity, reportDataset, salesDataset.
  rewrite !words_sampleDataset. unfold calculateJaccardSimilarity.
  assert (Hu : size (newSet (splitWhiteSpace (toLowerCase ("Weather report" +:+ " " +:+ EmptyString)))
                     ∪ newSet (splitWhiteSpace (toLowerCase ("Sales figures" +:+ " " +:+ EmptyString))))
               = 5%nat) by (vm_compute; reflexivity).
  assert (Hi : size (filterHas
                       (newSet (splitWhiteSpace (toLowerCase ("Weather report" +:+ " " +:+ EmptyString))))
                       (newSet (splitWhiteSpace (toLowerCase ("Sales figures" +:+ " " +:+ EmptyString)))))
               = 1%nat) by (vm_compute; reflexivity).
  rewrite Hu, Hi.
  destruct (decide (5%nat = 0%nat)); [discriminate|].
  simpl INR. lra.
Qed.

Lemma sample_pair_confidence :
  SimilarityMetrics.confidence (calculateSimilarityMetrics reportDataset salesDataset) = 0.8.
Proof.
  unfold calculateSimilarityMetrics. cbn [SimilarityMetrics.confidence].
  rewrite sample_pair_semantic.
  change (DatasetMetadata.dataTypes (Dataset.metadata reportDataset)) with sampleSchema.
  change (DatasetMetadata.dataTypes (Dataset.metadata salesDataset)) with sampleSchema.
  change (extractFeatureVector reportDataset) with (extractFeatureVector salesDataset).
  rewrite structural_self.
  rewrite jaccard_self by (apply newSet_nonempty; discriminate).
  rewrite cosine_self.
  - lra.
  - assert (0 < magnitude (extractFeatureVector salesDataset)); [|lra].
    apply (magnitude_pos _ 120); [left; reflexivity | lra].
Qed.

(** C10.  Every alert that [addDataset] appends for a registered dataset
    whose two hashes equal those of the new dataset has type "exact" and
    confidence 1, and its [similarities] field is the result of
    [calculateSimilarityMetrics] on the pair: the metrics are computed in
    full on the shortcut path too.  The confidence inside [similarities]
    can be below 1: for the sample pair it is 0.8 while the confidence of
    the alert is 1. *)
Theorem shortcut_alert_keeps_computed_metrics :
  (forall (toFixed : R -> nat -> string) (env : Env) (dataset : Dataset.t) (self : t),
      exists new,
        alerts (addDataset toFixed env dataset self) = alerts self ++ new
        /\ forall alert,
             In alert new ->
             isExactMatch dataset (DuplicationAlert.originalDataset alert) = true ->
             DuplicationAlert.type alert = TypeExact
             /\ DuplicationAlert.confidence alert = 1
             /\ DuplicationAlert.duplicateDataset alert = dataset
             /\ DuplicationAlert.similarities alert
                = calculateSimilarityMetrics dataset (DuplicationAlert.originalDataset alert))
  /\ (exists new alert,
        alerts (addDataset sampleToFixed sampleEnv reportDataset
                  (addDataset sampleToFixed sampleEnv salesDataset create)) = new
        /\ In alert new
        /\ DuplicationAlert.originalDataset alert = salesDataset
        /\ DuplicationAlert.duplicateDataset alert = reportDataset
        /\ DuplicationAlert.type alert = TypeExact
        /\ DuplicationAlert.confidence alert = 1
        /\ SimilarityMetrics.confidence (DuplicationAlert.similarities alert) = 0.8
        /\ SimilarityMetrics.confidence (DuplicationAlert.similarities alert) < 1).
Proof.
  split.
  - intros toFixed env dataset self.
    destruct (addDataset_spec toFixed env dataset self) as (new & Hadd & Hall & _).
    exists new. rewrite Hadd. split; [reflexivity|].
    intros alert Hin Hex. rewrite List.Forall_forall in Hall.
    destruct (Hall alert Hin) as (entry & _ & _ & Horig & Hdup & Hsim & Hkind).
    rewrite <- Horig in Hkind, Hsim. rewrite Hex in Hkind.
    destruct Hkind as [Htype Hconf]. repeat split; assumption.
  - rewrite addDataset_first.
    destruct (shortcut_alert_recorded sampleToFixed sampleEnv salesDataset reportDataset
                (mk [(Dataset.id salesDataset, salesDataset)] []))
      as (new & alert & Hadd & Hin & Htype & Hconf & Horig & Hdup & Hsim).
    + left. reflexivity.
    + discriminate.
    + reflexivity.
    + exists new, alert. rewrite Hadd, Hsim, sample_pair_confidence.
      repeat split; try assumption. lra.
Qed.

Lemma shortcut_alert_keeps_computed_metrics_witness :
  exists new,
    alerts (addDataset sampleToFixed sampleEnv reportDataset
              (mk [(Dataset.id salesDataset, salesDataset)] [])) = [] ++ new
    /\ forall alert,
         In alert new ->
         isExactMatch reportDataset (DuplicationAlert.originalDataset alert) = true ->
         DuplicationAlert.type alert = TypeExact
         /\ DuplicationAlert.confidence alert = 1
         /\ DuplicationAlert.duplicateDataset alert = reportDataset
         /\ DuplicationAlert.similarities alert
            = calculateSimilarityMetrics reportDataset (DuplicationAlert.originalDataset alert).
Proof.
  exact (proj1 shortcut_alert_keeps_computed_metrics sampleToFixed sampleEnv reportDataset
           (mk [(Dataset.id salesDataset, salesDataset)] [])).
Defined.

(** * Further properties of the services *)

(** ** Merkle root *)

Section Merkle.

Import DatasetFingerprintingService.

Variable sha256Hex : string -> string.

Local Abbreviation nextLevel := (DatasetFingerprintingService.nextLevel sha256Hex).
Local Abbreviation merkleLevels := (DatasetFingerprintingService.merkleLevels sha256Hex).
Local Abbreviation generateMerkleRoot := (DatasetFingerprintingService.generateMerkleRoot sha256Hex).

(** Induction over a list two elements at a time, as the loop reads it. *)
Lemma pairwise_ind (P : list string -> Prop) :
  P [] -> (forall a, P [a]) -> (forall a b l, P l -> P (a :: b :: l)) ->
  forall l, P l.
Proof.
  intros Hnil Hone Hstep.
  assert (H : forall l, P l /\ forall a, P (a :: l)).
  { induction l as [|b l [IH1 IH2]]; split; auto. }
  intros l. apply H.
Qed.

Lemma nextLevel_length (chunks : list string) :
  (2 * length (nextLevel chunks) = length chunks + length chunks mod 2)%nat.
Proof.
  induction chunks as [| a | a b l IH] using pairwise_ind; [reflexivity | reflexivity |].
  cbn [DatasetFingerprintingService.nextLevel length].
  replace (S (S (length l))) with (length l + 1 * 2)%nat by lia.
  rewrite Nat.Div0.mod_add. lia.
Qed.

Lemma nextLevel_shorter (chunks : list string) :
  (2 <= length chunks)%nat ->
  (1 <= length (nextLevel chunks) < length chunks)%nat.
Proof.
  intros Hlen. pose proof (nextLevel_length chunks) as H.
  pose proof (Nat.mod_upper_bound (length chunks) 2 ltac:(lia)). lia.
Qed.

Lemma merkleLevels_enough (fuel : nat) : forall chunks fuel',
  (length chunks <= fuel)%nat -> (length chunks <= fuel')%nat ->
  merkleLevels fuel chunks = merkleLevels fuel' chunks.
Proof.
  induction fuel as [|fuel IH]; intros chunks fuel' Hf Hf'.
  - destruct chunks; [|simpl in Hf; lia]. destruct fuel'; reflexivity.
  - destruct chunks as [|a [|b l]]; [destruct fuel'; reflexivity .. |].
    destruct fuel' as [|fuel']; [simpl in Hf'; lia|].
    change (merkleLevels fuel (nextLevel (a :: b :: l))
            = merkleLevels fuel' (nextLevel (a :: b :: l))).
    pose proof (nextLevel_shorter (a :: b :: l) ltac:(simpl; lia)) as Hs.
    apply IH; simpl in *; lia.
Qed.

(** The recursive call of [generateMerkleRoot]. *)
Lemma generateMerkleRoot_step (chunks : list string) :
  (2 <= length chunks)%nat ->
  generateMerkleRoot chunks = generateMerkleRoot (nextLevel chunks).
Proof.
  intros Hlen. unfold DatasetFingerprintingService.generateMerkleRoot.
  destruct chunks as [|a [|b l]]; [simpl in Hlen; lia .. |].
  change (merkleLevels (length (a :: b :: l)) (a :: b :: l))
    with (merkleLevels (S (length l)) (nextLevel (a :: b :: l))).
  pose proof (nextLevel_shorter (a :: b :: l) ltac:(simpl; lia)) as Hs.
  apply merkleLevels_enough; simpl in *; lia.
Qed.

Lemma nextLevel_digests (chunks : list string) :
  Forall (fun h => exists x, h = sha256Hex x) (nextLevel chunks).
Proof.
  induction chunks as [| a | a b l IH] using pairwise_ind;
    cbn [DatasetFingerprintingService.nextLevel]; repeat constructor; eauto.
Qed.

Lemma root_is_digest (n : nat) : forall chunks,
  (length chunks <= n)%nat -> (2 <= length chunks)%nat ->
  exists x, generateMerkleRoot chunks = sha256Hex x.
Proof.
  induction n as [|n IH]; intros chunks Hn Hlen; [lia|].
  rewrite (generateMerkleRoot_step chunks Hlen).
  pose proof (nextLevel_shorter chunks Hlen) as Hs.
  destruct (nextLevel chunks) as [|h [|h' rest]] eqn:E.
  - simpl in Hs. lia.
  - pose proof (nextLevel_digests chunks) as Hd. rewrite E in Hd.
    apply Forall_inv in Hd. exact Hd.
  - apply IH; simpl in *; lia.
Qed.

Lemma nextLevel_app_even (l1 : list string) : forall l2,
  Nat.even (length l1) = true ->
  nextLevel (l1 ++ l2) = nextLevel l1 ++ nextLevel l2.
Proof.
  induction l1 as [| a | a b l IH] using pairwise_ind; intros l2 Hev.
  - reflexivity.
  - discriminate.
  - cbn [app DatasetFingerprintingService.nextLevel]. rewrite IH; [reflexivity|]. exact Hev.
Qed.

(** X1.  The root of no chunk is the empty string, the root of one chunk is
    that chunk, not a digest of it, and the root of two chunks or more is
    always the result of a digest; for two chunks it is the digest of their
    concatenation, an empty second chunk being replaced by the first. *)
Theorem generateMerkleRoot_shape :
  generateMerkleRoot [] = EmptyString
  /\ (forall chunk, generateMerkleRoot [chunk] = chunk)
  /\ (forall a b,
        generateMerkleRoot [a; b]
        = sha256Hex (a +:+ (if decide (b = EmptyString) then a else b)))
  /\ (forall chunks,
        (2 <= length chunks)%nat -> exists x, generateMerkleRoot chunks = sha256Hex x).
Proof.
  split; [reflexivity|]. split; [reflexivity|]. split; [reflexivity|].
  intros chunks Hlen. apply (root_is_digest (length chunks)); [lia | exact Hlen].
Qed.

(** X2.  A chunk list of odd length, three or more, has the root of the
    list with its last chunk repeated: the loop pairs an unpaired last chunk
    with itself. *)
Theorem generateMerkleRoot_duplicate_last (chunks : list string) (x : string) :
  chunks <> [] ->
  Nat.even (length chunks) = true ->
  generateMerkleRoot (chunks ++ [x; x]) = generateMerkleRoot (chunks ++ [x]).
Proof.
  intros Hne Hev.
  assert (Hlen : (2 <= length chunks)%nat).
  { destruct chunks as [|a [|b l]]; [congruence | discriminate | simpl; lia]. }
  rewrite (generateMerkleRoot_step (chunks ++ [x; x])) by (rewrite length_app; simpl; lia).
  rewrite (generateMerkleRoot_step (chunks ++ [x])) by (rewrite length_app; simpl; lia).
  rewrite !nextLevel_app_even by exact Hev.
  cbn [DatasetFingerprintingService.nextLevel].
  destruct (decide (x = EmptyString)); reflexivity.
Qed.

(** X3.  An empty chunk in a right-hand position is read as a missing one:
    the root is the root of the list where the empty chunk is replaced by
    its left neighbour. *)
Theorem generateMerkleRoot_empty_right_chunk (before : list string) (a : string) (after : list string) :
  Nat.even (length before) = true ->
  generateMerkleRoot (before ++ a :: EmptyString :: after)
  = generateMerkleRoot (before ++ a :: a :: after).
Proof.
  intros Hev.
  rewrite (generateMerkleRoot_step (before ++ a :: EmptyString :: after))
    by (rewrite length_app; simpl; lia).
  rewrite (generateMerkleRoot_step (before ++ a :: a :: after))
    by (rewrite length_app; simpl; lia).
  rewrite !nextLevel_app_even by exact Hev.
  cbn [DatasetFingerprintingService.nextLevel].
  destruct (decide (EmptyString = EmptyString)) as [_|Hn]; [|congruence].
  destruct (decide (a = EmptyString)); reflexivity.
Qed.

Lemma nextLevel_nonempty_digests (chunks : list string) :
  (forall s, sha256Hex s <> EmptyString) ->
  Forall (fun h => h <> EmptyString) (nextLevel chunks).
Proof.
  intros Hsha. eapply Forall_impl; [apply nextLevel_digests|].
  intros h [x ->]. apply Hsha.
Qed.

(** X4.  When the digest is never empty and no chunk is empty, the root of
    two lists of the same length, a power of two, put end to end is the
    digest of the concatenation of their two roots. *)
Theorem generateMerkleRoot_of_halves (k : nat) : forall half1 half2 : list string,
  (forall s, sha256Hex s <> EmptyString) ->
  Forall (fun chunk => chunk <> EmptyString) half1 ->
  Forall (fun chunk => chunk <> EmptyString) half2 ->
  length half1 = (2 ^ k)%nat ->
  length half2 = (2 ^ k)%nat ->
  generateMerkleRoot (half1 ++ half2)
  = sha256Hex (generateMerkleRoot half1 +:+ generateMerkleRoot half2).
Proof.
  induction k as [|k IH]; intros half1 half2 Hsha Hn1 Hn2 Hl1 Hl2.
  - destruct half1 as [|a [|]]; try discriminate.
    destruct half2 as [|b [|]]; try discriminate.
    apply Forall_inv in Hn2.
    change (generateMerkleRoot [a; b]
            = sha256Hex (a +:+ b)).
    change (generateMerkleRoot [a; b])
      with (sha256Hex (a +:+ (if decide (b = EmptyString) then a else b))).
    destruct (decide (b = EmptyString)); [contradiction | reflexivity].
  - assert (Hpow : (2 ^ S k = 2 * 2 ^ k)%nat) by apply Nat.pow_succ_r'.
    assert (Hpos : (1 <= 2 ^ k)%nat).
    { pose proof (Nat.pow_nonzero 2 k). lia. }
    assert (Hev : Nat.even (length half1) = true).
    { rewrite Hl1, Hpow, Nat.even_mul. reflexivity. }
    assert (Hmod : forall l : list string, length l = (2 ^ S k)%nat -> length (nextLevel l) = (2 ^ k)%nat).
    { intros l Hl. pose proof (nextLevel_length l) as H. rewrite Hl, Hpow in H.
      replace (2 * 2 ^ k)%nat with (0 + 2 ^ k * 2)%nat in H by lia.
      rewrite Nat.Div0.mod_add in H. simpl in H. lia. }
    rewrite (generateMerkleRoot_step (half1 ++ half2)) by (rewrite length_app; lia).
    rewrite (nextLevel_app_even half1 half2 Hev).
    rewrite (IH (nextLevel half1) (nextLevel half2) Hsha
               (nextLevel_nonempty_digests half1 Hsha)
               (nextLevel_nonempty_digests half2 Hsha)
               (Hmod half1 Hl1) (Hmod half2 Hl2)).
    rewrite <- (generateMerkleRoot_step half1) by lia.
    rewrite <- (generateMerkleRoot_step half2) by lia.
    reflexivity.
Qed.

End Merkle.

Example generateMerkleRoot_five :
  DatasetFingerprintingService.generateMerkleRoot sampleDigest ["a"; "b"; "c"; "d"; "e"]%string
  = "###ab#cd##ee#ee"%string.
Proof. reflexivity. Qed.

Lemma generateMerkleRoot_duplicate_last_witness :
  DatasetFingerprintingService.generateMerkleRoot sampleDigest ["a"; "b"; "c"; "c"]%string
  = DatasetFingerprintingService.generateMerkleRoot sampleDigest ["a"; "b"; "c"]%string.
Proof.
  apply (generateMerkleRoot_duplicate_last sampleDigest ["a"; "b"]%string "c"%string).
  - discriminate.
  - reflexivity.
Defined.

Lemma generateMerkleRoot_empty_right_chunk_witness :
  DatasetFingerprintingService.generateMerkleRoot sampleDigest
    ["a"; "b"; "c"; EmptyString; "e"]%string
  = DatasetFingerprintingService.generateMerkleRoot sampleDigest ["a"; "b"; "c"; "c"; "e"]%string.
Proof.
  apply (generateMerkleRoot_empty_right_chunk sampleDigest ["a"; "b"]%string "c"%string ["e"]%string).
  reflexivity.
Defined.

Lemma generateMerkleRoot_of_halves_witness :
  DatasetFingerprintingService.generateMerkleRoot sampleDigest ["a"; "b"; "c"; "d"]%string
  = sampleDigest
      (DatasetFingerprintingService.generateMerkleRoot sampleDigest ["a"; "b"]%string
       +:+ DatasetFingerprintingService.generateMerkleRoot sampleDigest ["c"; "d"]%string).
Proof.
  apply (generateMerkleRoot_of_halves sampleDigest 1 ["a"; "b"]%string ["c"; "d"]%string).
  - intros s. discriminate.
  - repeat constructor; discriminate.
  - repeat constructor; discriminate.
  - reflexivity.
  - reflexivity.
Defined.

(** ** Bloom filter *)

Section Bloom.

Import DatasetFingerprintingService.

Variable sha256Hex : string -> string.

Local Abbreviation bloomIndex := (DatasetFingerprintingService.bloomIndex sha256Hex).
Local Abbreviation addItem := (DatasetFingerprintingService.addItem sha256Hex).
Local Abbreviation bloomBits := (DatasetFingerprintingService.bloomBits sha256Hex).
Local Abbreviation createBloomFilter := (DatasetFingerprintingService.createBloomFilter sha256Hex).

Lemma bloomIndex_in_range (size : nat) (item : string) (i j : nat) :
  bloomIndex size item i = Some j -> (j < size)%nat.
Proof.
  unfold DatasetFingerprintingService.bloomIndex.
  destruct (parseIntHex _) as [v|]; [|discriminate].
  destruct (decide (size = 0%nat)) as [|Hsize]; [discriminate|].
  destruct (decide (0 <= Z.rem v (Z.of_nat size))%Z) as [Hr|]; [|discriminate].
  intros [= <-].
  pose proof (Z.rem_bound_abs v (Z.of_nat size) ltac:(lia)). lia.
Qed.

Lemma setBit_length (bits : list bool) (index : option nat) :
  length (setBit bits index) = length bits.
Proof. destruct index; [apply length_insert | reflexivity]. Qed.

Lemma setBit_lookup (bits : list bool) (index : option nat) (j : nat) :
  setBit bits index !! j = Some true
  <-> bits !! j = Some true \/ (index = Some j /\ (j < length bits)%nat).
Proof.
  destruct index as [k|]; simpl.
  - destruct (decide (k = j)) as [->|Hne].
    + destruct (decide (j < length bits)%nat) as [Hlt|Hge].
      * rewrite list_lookup_insert_eq by exact Hlt. tauto.
      * rewrite list_insert_ge by lia. intuition lia.
    + rewrite list_lookup_insert_ne by exact Hne. intuition congruence.
  - intuition congruence.
Qed.

Lemma foldl_setBit_length (item : string) (size : nat) (indices : list nat) : forall bits,
  length (foldl (fun bits i => setBit bits (bloomIndex size item i)) bits indices) = length bits.
Proof.
  induction indices as [|i indices IH]; intros bits; simpl; [reflexivity|].
  rewrite IH. apply setBit_length.
Qed.

Lemma foldl_setBit_lookup (item : string) (size : nat) (indices : list nat) (j : nat) : forall bits,
  foldl (fun bits i => setBit bits (bloomIndex size item i)) bits indices !! j = Some true
  <-> bits !! j = Some true
      \/ ((j < length bits)%nat /\ exists i, In i indices /\ bloomIndex size item i = Some j).
Proof.
  induction indices as [|i indices IH]; intros bits; simpl.
  - split; [tauto | intros [H|(_ & i & [] & _)]; exact H].
  - rewrite IH, setBit_lookup, setBit_length. split.
    + intros [[H|[Hi Hlt]]|(Hlt & i' & Hin & Hi')].
      * left. exact H.
      * right. split; [exact Hlt|]. exists i. split; [left; reflexivity | exact Hi].
      * right. split; [exact Hlt|]. exists i'. split; [right; exact Hin | exact Hi'].
    + intros [H|(Hlt & i' & [<-|Hin] & Hi')].
      * left. left. exact H.
      * left. right. split; assumption.
      * right. split; [exact Hlt|]. exists i'. split; assumption.
Qed.

Lemma addItem_length (size hashCount : nat) (bits : list bool) (item : string) :
  length (addItem size hashCount bits item) = length bits.
Proof. apply foldl_setBit_length. Qed.

Lemma addItem_lookup (size hashCount : nat) (bits : list bool) (item : string) (j : nat) :
  addItem size hashCount bits item !! j = Some true
  <-> bits !! j = Some true
      \/ ((j < length bits)%nat /\ selects sha256Hex size hashCount item j).
Proof.
  unfold DatasetFingerprintingService.addItem, selects.
  rewrite foldl_setBit_lookup. split.
  - intros [H|(Hlt & i & Hin & Hi)]; [left; exact H|].
    right. split; [exact Hlt|]. exists i. split; [|exact Hi].
    apply in_seq in Hin. lia.
  - intros [H|(Hlt & i & Hi & Hsel)]; [left; exact H|].
    right. split; [exact Hlt|]. exists i. split; [|exact Hsel].
    apply in_seq. lia.
Qed.

Lemma foldl_addItem_length (size hashCount : nat) (items : list string) : forall bits,
  length (foldl (addItem size hashCount) bits items) = length bits.
Proof.
  induction items as [|item items IH]; intros bits; simpl; [reflexivity|].
  rewrite IH. apply addItem_length.
Qed.

Lemma foldl_addItem_lookup (size hashCount : nat) (items : list string) (j : nat) : forall bits,
  foldl (addItem size hashCount) bits items !! j = Some true
  <-> bits !! j = Some true
      \/ ((j < length bits)%nat
          /\ exists item, In item items /\ selects sha256Hex size hashCount item j).
Proof.
  induction items as [|item items IH]; intros bits; simpl.
  - split; [tauto | intros [H|(_ & item & [] & _)]; exact H].
  - rewrite IH, addItem_lookup, addItem_length. split.
    + intros [[H|[Hlt Hsel]]|(Hlt & item' & Hin & Hsel)].
      * left. exact H.
      * right. split; [exact Hlt|]. exists item. split; [left; reflexivity | exact Hsel].
      * right. split; [exact Hlt|]. exists item'. split; [right; exact Hin | exact Hsel].
    + intros [H|(Hlt & item' & [<-|Hin] & Hsel)].
      * left. left. exact H.
      * left. right. split; assumption.
      * right. split; [exact Hlt|]. exists item'. split; assumption.
Qed.

Lemma bloomBits_length (items : list string) (size hashCount : nat) :
  length (bloomBits items size hashCount) = size.
Proof.
  unfold DatasetFingerprintingService.bloomBits.
  rewrite foldl_addItem_length. apply length_replicate.
Qed.

Lemma bloomBits_lookup (items : list string) (size hashCount : nat) (j : nat) :
  bloomBits items size hashCount !! j = Some true
  <-> exists item, In item items /\ selects sha256Hex size hashCount item j.
Proof.
  unfold DatasetFingerprintingService.bloomBits.
  rewrite foldl_addItem_lookup, length_replicate. split.
  - intros [H|[_ H]]; [|exact H].
    apply lookup_replicate in H. destruct H as [H _]. discriminate.
  - intros (item & Hin & i & Hi & Hsel). right. split.
    + exact (bloomIndex_in_range size item i j Hsel).
    + exists item. split; [exact Hin|]. exists i. split; assumption.
Qed.

(** The string that [join] builds from the cells. *)
Lemma join_bits_get (bits : list bool) : forall n,
  String.get n (join EmptyString (map bitChar bits))
  = (fun b : bool => if b then "1"%char else "0"%char) <$> bits !! n.
Proof.
  induction bits as [|b bits IH]; intros n; [destruct n; reflexivity|].
  assert (E : join EmptyString (map bitChar (b :: bits))
              = String (if b then "1"%char else "0"%char) (join EmptyString (map bitChar bits))).
  { destruct bits as [|b' bits']; destruct b; reflexivity. }
  rewrite E. destruct n as [|n]; [reflexivity|]. simpl. apply IH.
Qed.

Lemma join_bits_length (bits : list bool) :
  String.length (join EmptyString (map bitChar bits)) = length bits.
Proof.
  induction bits as [|b bits IH]; [reflexivity|].
  assert (E : join EmptyString (map bitChar (b :: bits))
              = String (if b then "1"%char else "0"%char) (join EmptyString (map bitChar bits))).
  { destruct bits as [|b' bits']; destruct b; reflexivity. }
  rewrite E. simpl. rewrite IH. reflexivity.
Qed.

Lemma bits_eq_of_true (bits1 bits2 : list bool) :
  length bits1 = length bits2 ->
  (forall j, bits1 !! j = Some true <-> bits2 !! j = Some true) ->
  bits1 = bits2.
Proof.
  intros Hlen Htrue. apply list_eq. intros j.
  destruct (bits1 !! j) as [b1|] eqn:E1, (bits2 !! j) as [b2|] eqn:E2.
  - destruct b1, b2; try reflexivity.
    + apply Htrue in E1. congruence.
    + apply Htrue in E2. congruence.
  - apply lookup_lt_Some in E1. apply lookup_ge_None in E2. lia.
  - apply lookup_ge_None in E1. apply lookup_lt_Some in E2. lia.
  - reflexivity.
Qed.

Lemma filter_cell_one (items : list string) (size hashCount j : nat) :
  String.get j (createBloomFilter items size hashCount) = Some "1"%char
  <-> bloomBits items size hashCount !! j = Some true.
Proof.
  unfold DatasetFingerprintingService.createBloomFilter. rewrite join_bits_get.
  destruct (bloomBits items size hashCount !! j) as [[|]|]; simpl;
    split; intros H; try reflexivity; discriminate.
Qed.

(** X5.  The filter is a string of [size] characters.  Its cell [j] is "1"
    when one of the first [hashCount] digests of one of the items selects
    [j], and "0" otherwise: an item that was put in always finds all its
    cells set. *)
Theorem createBloomFilter_cells (items : list string) (size hashCount : nat) :
  String.length (createBloomFilter items size hashCount) = size
  /\ forall j, (j < size)%nat ->
       (String.get j (createBloomFilter items size hashCount) = Some "1"%char
        <-> exists item, In item items /\ selects sha256Hex size hashCount item j)
       /\ (String.get j (createBloomFilter items size hashCount) = Some "0"%char
           <-> ~ exists item, In item items /\ selects sha256Hex size hashCount item j).
Proof.
  split.
  - unfold DatasetFingerprintingService.createBloomFilter.
    rewrite join_bits_length. apply bloomBits_length.
  - intros j Hj. split.
    + rewrite filter_cell_one. apply bloomBits_lookup.
    + rewrite <- bloomBits_lookup.
      unfold DatasetFingerprintingService.createBloomFilter. rewrite join_bits_get.
      destruct (lookup_lt_is_Some_2 (bloomBits items size hashCount) j) as [b Hb].
      { rewrite bloomBits_length. exact Hj. }
      rewrite Hb. destruct b; simpl; split; intros H;
        first [reflexivity | discriminate | exfalso; apply H; reflexivity
              | intros Habs; discriminate].
Qed.

(** X6.  The filter depends on the set of the items only: two lists with
    the same members, in any order and with any repetitions, give the same
    string. *)
Theorem createBloomFilter_same_members (items items' : list string) (size hashCount : nat) :
  (forall item, In item items <-> In item items') ->
  createBloomFilter items size hashCount = createBloomFilter items' size hashCount.
Proof.
  intros Hsame. unfold DatasetFingerprintingService.createBloomFilter. do 2 f_equal.
  apply bits_eq_of_true.
  - rewrite !bloomBits_length. reflexivity.
  - intros j. rewrite !bloomBits_lookup.
    split; intros (item & Hin & Hsel); exists item; (split; [apply Hsame, Hin | exact Hsel]).
Qed.

(** X7.  The filter of two lists put end to end is the cell-wise union of
    their filters; a filter never loses a cell when items are added. *)
Theorem createBloomFilter_app (items1 items2 : list string) (size hashCount j : nat) :
  String.get j (createBloomFilter (items1 ++ items2) size hashCount) = Some "1"%char
  <-> String.get j (createBloomFilter items1 size hashCount) = Some "1"%char
      \/ String.get j (createBloomFilter items2 size hashCount) = Some "1"%char.
Proof.
  rewrite !filter_cell_one, !bloomBits_lookup. split.
  - intros (item & Hin & Hsel). apply in_app_or in Hin.
    destruct Hin as [Hin|Hin]; [left | right]; exists item; split; assumption.
  - intros [(item & Hin & Hsel)|(item & Hin & Hsel)]; exists item;
      (split; [apply in_or_app; auto | exact Hsel]).
Qed.

End Bloom.

Example createBloomFilter_sample :
  DatasetFingerprintingService.createBloomFilter sampleTable ["a"; "b"]%string 8 2
  = "00110001"%string.
Proof. reflexivity. Qed.

Example createBloomFilter_no_cell :
  DatasetFingerprintingService.createBloomFilter sampleTable ["a"; "b"]%string 0 2
  = EmptyString.
Proof. reflexivity. Qed.

Lemma createBloomFilter_same_members_witness :
  DatasetFingerprintingService.createBloomFilter sampleTable ["a"; "b"; "a"]%string 8 2
  = DatasetFingerprintingService.createBloomFilter sampleTable ["b"; "a"]%string 8 2.
Proof.
  apply (createBloomFilter_same_members sampleTable ["a"; "b"; "a"]%string ["b"; "a"]%string 8 2).
  intros item. simpl. tauto.
Defined.

(** ** Ranges of the metrics *)

Section MetricRanges.

Lemma ratio_range (i u : nat) : (i <= u)%nat -> u <> 0%nat -> 0 <= INR i / INR u <= 1.
Proof.
  intros Hle Hu.
  assert (0 < INR u) by (apply lt_0_INR; lia).
  assert (0 <= INR i) by apply pos_INR.
  assert (INR i <= INR u) by (apply le_INR; exact Hle).
  split.
  - apply Rmult_le_pos; [assumption|]. left. apply Rinv_0_lt_compat. assumption.
  - apply (Rmult_le_reg_r (INR u)); [assumption|].
    unfold Rdiv. rewrite Rmult_assoc, Rinv_l by lra. lra.
Qed.

Lemma ratio_one (i u : nat) : u <> 0%nat -> (INR i / INR u = 1 <-> i = u).
Proof.
  intros Hu. assert (INR u <> 0) by (apply not_0_INR; exact Hu). split.
  - intros E. apply INR_eq. apply (f_equal (fun x => x * INR u)) in E.
    unfold Rdiv in E. rewrite Rmult_assoc, Rinv_l in E by assumption. lra.
  - intros ->. apply Rdiv_diag. assumption.
Qed.

Lemma ratio_zero (i u : nat) : u <> 0%nat -> (INR i / INR u = 0 <-> i = 0%nat).
Proof.
  intros Hu. assert (INR u <> 0) by (apply not_0_INR; exact Hu). split.
  - intros E. apply INR_eq. apply (f_equal (fun x => x * INR u)) in E.
    unfold Rdiv in E. rewrite Rmult_assoc, Rinv_l in E by assumption. simpl. lra.
  - intros ->. simpl. unfold Rdiv. apply Rmult_0_l.
Qed.

Lemma filterHas_size_le (set1 set2 : gset string) :
  (size (filterHas set1 set2) <= size (set1 ∪ set2))%nat.
Proof.
  apply subseteq_size. intros x.
  rewrite filterHas_intersection, elem_of_intersection, elem_of_union. tauto.
Qed.

(** Range and extreme values of the Jaccard similarity. *)
Lemma jaccard_characterisation (set1 set2 : gset string) :
  0 <= calculateJaccardSimilarity set1 set2 <= 1
  /\ (calculateJaccardSimilarity set1 set2 = 1 <-> set1 = set2 /\ set1 <> ∅)
  /\ (calculateJaccardSimilarity set1 set2 = 0 <-> set1 ∩ set2 = ∅).
Proof.
  unfold calculateJaccardSimilarity.
  pose proof (filterHas_size_le set1 set2) as Hle.
  rewrite filterHas_intersection in *.
  destruct (decide (size (set1 ∪ set2) = 0%nat)) as [Hz|Hnz].
  - apply size_zero_empty, empty_union_L in Hz. destruct Hz as [-> ->].
    split; [lra|]. split.
    + split; [lra | intros [_ Hne]; congruence].
    + split; [intros _ | reflexivity].
      apply set_eq. intros x. rewrite elem_of_intersection. tauto.
  - split; [apply ratio_range; assumption|]. split.
    + rewrite (ratio_one _ _ Hnz). split.
      * intros Hsz.
        assert (Heq : set1 ∩ set2 = set1 ∪ set2).
        { apply set_subseteq_size_eq; [|lia].
          intros x. rewrite elem_of_intersection, elem_of_union. tauto. }
        assert (Hs : set1 = set2).
        { apply set_eq. intros x.
          assert (Hx : x ∈ set1 ∩ set2 <-> x ∈ set1 ∪ set2) by (rewrite Heq; tauto).
          rewrite elem_of_intersection, elem_of_union in Hx. tauto. }
        split; [exact Hs|]. intros Hempty. subst set1 set2.
        apply Hnz. rewrite union_diag. apply size_empty.
      * intros [-> _]. f_equal. apply set_eq. intros x.
        rewrite elem_of_intersection, elem_of_union. tauto.
    + rewrite (ratio_zero _ _ Hnz). split.
      * intros Hsz. apply size_zero_empty. exact Hsz.
      * intros ->. apply size_empty.
Qed.

(** X8.  The Jaccard similarity lies between 0 and 1; it is 1 exactly for
    two equal sets that are not empty, and 0 exactly for two sets without a
    common member, two empty sets included. *)
Theorem jaccard_range_and_extremes (set1 set2 : gset string) :
  0 <= calculateJaccardSimilarity set1 set2 <= 1
  /\ (calculateJaccardSimilarity set1 set2 = 1 <-> set1 = set2 /\ set1 <> ∅)
  /\ (calculateJaccardSimilarity set1 set2 = 0 <-> set1 ∩ set2 = ∅).
Proof. apply jaccard_characterisation. Qed.

(** X9.  In binary64 arithmetic the cosine similarity is not confined to
    the interval from -1 to 1.  The vector (2, 3) with itself scores
    1.0000000000000002.  For two parallel vectors whose squares round to one
    and to two units of the smallest positive number, the product of the
    magnitudes rounds to one unit and the dot product to two: the score is
    2. *)
Theorem cosine_exceeds_one :
  Doubles.calculateCosineSimilarity [2; 3]%float [2; 3]%float = 0x1.0000000000001p+0%float
  /\ Doubles.calculateCosineSimilarity
       [0x1.387ce204a35d2p-537; 0]%float [0x1.93f6104d67aedp-537; 0]%float
     = 2%float.
Proof. split; vm_compute; reflexivity. Qed.

End MetricRanges.

Section MetricStructure.

Lemma typeMatches_le (schema1 schema2 : JsRecord) (commonKeys : gset string) :
  (typeMatches schema1 schema2 commonKeys <= size commonKeys)%nat.
Proof.
  unfold typeMatches. apply subseteq_size. intros key.
  rewrite elem_of_filter. tauto.
Qed.

Lemma typeMatches_all (schema1 schema2 : JsRecord) (commonKeys : gset string) :
  typeMatches schema1 schema2 commonKeys = size commonKeys
  <-> forall key, key ∈ commonKeys -> getProperty schema1 key = getProperty schema2 key.
Proof.
  unfold typeMatches. split.
  - intros Hsz key Hkey.
    assert (Heq : filter (fun key => getProperty schema1 key = getProperty schema2 key) commonKeys
                  = commonKeys).
    { apply set_subseteq_size_eq; [|lia]. intros x. rewrite elem_of_filter. tauto. }
    rewrite <- Heq in Hkey. apply elem_of_filter in Hkey. tauto.
  - intros Hall. rewrite filter_all; [reflexivity | exact Hall].
Qed.

(** Range of the structural similarity, and when it is 1. *)
Lemma structural_characterisation (schema1 schema2 : JsRecord) :
  0 <= calculateStructuralSimilarity schema1 schema2 <= 1
  /\ (calculateStructuralSimilarity schema1 schema2 = 1
      <-> newSet (Object_keys schema1) = newSet (Object_keys schema2)
          /\ forall key, key ∈ newSet (Object_keys schema1) ->
               getProperty schema1 key = getProperty schema2 key).
Proof.
  unfold calculateStructuralSimilarity, keysSimilarity, typesSimilarity.
  set (keys1 := newSet (Object_keys schema1)).
  set (keys2 := newSet (Object_keys schema2)).
  pose proof (filterHas_size_le keys1 keys2) as Hca.
  pose proof (typeMatches_le schema1 schema2 (filterHas keys1 keys2)) as Htc.
  destruct (decide (size (keys1 ∪ keys2) = 0%nat)) as [Hz|Hnz].
  - apply size_zero_empty, empty_union_L in Hz. destruct Hz as [E1 E2].
    split; [lra|]. split; [intros _ | reflexivity].
    split; [congruence|]. intros key Hkey. rewrite E1 in Hkey.
    apply not_elem_of_empty in Hkey. contradiction.
  - pose proof (ratio_range _ _ Hca Hnz) as Hks.
    assert (Hts : 0 <= (if decide (size (filterHas keys1 keys2) = 0%nat) then 0
                        else INR (typeMatches schema1 schema2 (filterHas keys1 keys2))
                             / INR (size (filterHas keys1 keys2))) <= 1).
    { destruct (decide (size (filterHas keys1 keys2) = 0%nat)) as [|Hc]; [lra|].
      apply ratio_range; assumption. }
    split; [lra|]. split.
    + intros Hone.
      assert (Hk1 : INR (size (filterHas keys1 keys2)) / INR (size (keys1 ∪ keys2)) = 1) by lra.
      apply (ratio_one _ _ Hnz) in Hk1.
      assert (Hcommon : filterHas keys1 keys2 = keys1 ∪ keys2).
      { apply set_subseteq_size_eq; [|lia]. intros x.
        rewrite filterHas_intersection, elem_of_intersection, elem_of_union. tauto. }
      assert (Hkeys : keys1 = keys2).
      { apply set_eq. intros x.
        assert (Hx : x ∈ filterHas keys1 keys2 <-> x ∈ keys1 ∪ keys2) by (rewrite Hcommon; tauto).
        rewrite filterHas_intersection, elem_of_intersection, elem_of_union in Hx. tauto. }
      split; [exact Hkeys|].
      destruct (decide (size (filterHas keys1 keys2) = 0%nat)) as [|Hc]; [lra|].
      assert (Ht1 : INR (typeMatches schema1 schema2 (filterHas keys1 keys2))
                    / INR (size (filterHas keys1 keys2)) = 1) by lra.
      apply (ratio_one _ _ Hc) in Ht1.
      pose proof (proj1 (typeMatches_all schema1 schema2 (filterHas keys1 keys2)) Ht1) as Hall.
      intros key Hkey. apply Hall. rewrite <- Hkeys, filterHas_diag. exact Hkey.
    + intros [Hkeys Htypes].
      assert (Hcommon : filterHas keys1 keys2 = keys1).
      { rewrite <- Hkeys. apply filterHas_diag. }
      assert (Hall : keys1 ∪ keys2 = keys1).
      { rewrite <- Hkeys. apply union_diag. }
      rewrite Hcommon, Hall in *.
      destruct (decide (size keys1 = 0%nat)) as [|_]; [contradiction|].
      rewrite (proj2 (typeMatches_all schema1 schema2 keys1) Htypes).
      rewrite (INR_ratio_one _ Hnz). lra.
Qed.

(** X11.  The structural similarity lies between 0 and 1, and it is 1
    exactly when the two schemas have the same column names and every
    column has the same declared type in both. *)
Theorem structural_range_and_one (schema1 schema2 : JsRecord) :
  0 <= calculateStructuralSimilarity schema1 schema2 <= 1
  /\ (calculateStructuralSimilarity schema1 schema2 = 1
      <-> newSet (Object_keys schema1) = newSet (Object_keys schema2)
          /\ forall key, key ∈ newSet (Object_keys schema1) ->
               getProperty schema1 key = getProperty schema2 key).
Proof. apply structural_characterisation. Qed.

Lemma getProperty_In (r : JsRecord) (key value : string) :
  wfRecord r -> (getProperty r key = Some value <-> In (key, value) r).
Proof.
  unfold wfRecord, Object_keys.
  induction r as [|[k v] r IH]; intros Hnd.
  - simpl. split; [discriminate | tauto].
  - change (NoDup (k :: map fst r)) in Hnd.
    apply NoDup_cons in Hnd. destruct Hnd as [Hk Hnd].
    cbn [getProperty In].
    destruct (decide (k = key)) as [->|Hne].
    + split.
      * intros [= ->]. left. reflexivity.
      * intros [[= ->]|Hin]; [reflexivity|].
        exfalso. apply Hk, list_elem_of_In.
        apply (in_map fst) in Hin. exact Hin.
    + rewrite (IH Hnd). split; [tauto|].
      intros [[= Hk' _]|Hin]; [contradiction | exact Hin].
Qed.

Lemma getProperty_perm (r r' : JsRecord) (key : string) :
  wfRecord r -> Permutation r r' -> getProperty r key = getProperty r' key.
Proof.
  intros Hwf Hp.
  assert (Hwf' : wfRecord r').
  { unfold wfRecord, Object_keys in *. rewrite <- (Permutation_map fst Hp). exact Hwf. }
  destruct (getProperty r key) as [v|] eqn:E.
  - symmetry. apply (getProperty_In r' key v Hwf').
    apply (Permutation_in _ Hp). apply (getProperty_In r key v Hwf). exact E.
  - destruct (getProperty r' key) as [v'|] eqn:E'; [|reflexivity].
    apply (getProperty_In r' key v' Hwf') in E'.
    apply (Permutation_in _ (Permutation_sym Hp)) in E'.
    apply (getProperty_In r key v' Hwf) in E'. congruence.
Qed.

(** X12.  The two metrics computed from the schema do not depend on the
    order in which an object enumerates its columns: a schema and a
    reordering of its entries get the same structural similarity and the
    same Jaccard similarity against any other schema. *)
Theorem schema_metrics_order_independent (schema1 schema1' schema2 : JsRecord) :
  wfRecord schema1 ->
  Permutation schema1 schema1' ->
  calculateStructuralSimilarity schema1 schema2 = calculateStructuralSimilarity schema1' schema2
  /\ calculateJaccardSimilarity (newSet (Object_keys schema1)) (newSet (Object_keys schema2))
     = calculateJaccardSimilarity (newSet (Object_keys schema1')) (newSet (Object_keys schema2)).
Proof.
  intros Hwf Hp.
  assert (Hkeys : newSet (Object_keys schema1) = newSet (Object_keys schema1')).
  { unfold newSet, Object_keys. apply list_to_set_perm_L. apply Permutation_map. exact Hp. }
  split; [|rewrite Hkeys; reflexivity].
  unfold calculateStructuralSimilarity, typesSimilarity. rewrite <- Hkeys.
  assert (Ht : forall commonKeys,
             typeMatches schema1 schema2 commonKeys = typeMatches schema1' schema2 commonKeys).
  { intros commonKeys. unfold typeMatches. f_equal. apply set_eq. intros key.
    rewrite !elem_of_filter, (getProperty_perm schema1 schema1' key Hwf Hp). tauto. }
  rewrite Ht. reflexivity.
Qed.

Lemma schema_metrics_order_independent_witness :
  calculateStructuralSimilarity
    [("id", "number"); ("name", "string")]%string [("id", "string"); ("age", "number")]%string
  = calculateStructuralSimilarity
      [("name", "string"); ("id", "number")]%string [("id", "string"); ("age", "number")]%string.
Proof.
  apply (schema_metrics_order_independent
           [("id", "number"); ("name", "string")]%string
           [("name", "string"); ("id", "number")]%string
           [("id", "string"); ("age", "number")]%string).
  - unfold wfRecord. apply (bool_decide_unpack _). vm_compute. reflexivity.
  - apply perm_swap.
Defined.

End MetricStructure.

Section MetricsOfDatasets.

(** X13.  In the metrics of any two datasets the Jaccard, the structural
    and the semantic score, each a quotient of set sizes or a mean of two,
    lie between 0 and 1. *)
Theorem similarity_metrics_ranges (dataset1 dataset2 : Dataset.t) :
  let m := calculateSimilarityMetrics dataset1 dataset2 in
  0 <= SimilarityMetrics.jaccard m <= 1
  /\ 0 <= SimilarityMetrics.structural m <= 1
  /\ 0 <= SimilarityMetrics.semantic m <= 1.
Proof.
  unfold calculateSimilarityMetrics. cbn [SimilarityMetrics.jaccard
    SimilarityMetrics.structural SimilarityMetrics.semantic].
  pose proof (proj1 (jaccard_characterisation
                (newSet (Object_keys (DatasetMetadata.dataTypes (Dataset.metadata dataset1))))
                (newSet (Object_keys (DatasetMetadata.dataTypes (Dataset.metadata dataset2))))))
    as Hj.
  pose proof (proj1 (structural_characterisation
                (DatasetMetadata.dataTypes (Dataset.metadata dataset1))
                (DatasetMetadata.dataTypes (Dataset.metadata dataset2)))) as Hs.
  pose proof (proj1 (jaccard_characterisation (words dataset1) (words dataset2))) as Hw.
  fold (calculateSemanticSimilarity dataset1 dataset2) in Hw.
  split; [exact Hj|]. split; [exact Hs | exact Hw].
Qed.

Lemma lowerChar_space : lowerChar " " = " "%char.
Proof. reflexivity. Qed.

Lemma toLowerCase_app (s : string) : forall t,
  toLowerCase (s +:+ t) = toLowerCase s +:+ toLowerCase t.
Proof. induction s as [|c s IH]; intros t; simpl; [reflexivity | rewrite IH; reflexivity]. Qed.

Lemma lowerChar_idempotent (c : ascii) : lowerChar (lowerChar c) = lowerChar c.
Proof.
  destruct c as [[] [] [] [] [] [] [] []]; reflexivity.
Qed.

Lemma toLowerCase_idempotent (s : string) : toLowerCase (toLowerCase s) = toLowerCase s.
Proof.
  induction s as [|c s IH]; simpl; [reflexivity|].
  rewrite lowerChar_idempotent, IH. reflexivity.
Qed.

(** X14.  The semantic similarity ignores letter case: two datasets whose
    titles and descriptions are equal once put in lower case have the same
    word set, hence the same semantic similarity to any other dataset, and
    the semantic similarity 1 to each other. *)
Theorem semantic_ignores_case (dataset dataset' other : Dataset.t) :
  toLowerCase (DatasetMetadata.title (Dataset.metadata dataset))
  = toLowerCase (DatasetMetadata.title (Dataset.metadata dataset')) ->
  toLowerCase (DatasetMetadata.description (Dataset.metadata dataset))
  = toLowerCase (DatasetMetadata.description (Dataset.metadata dataset')) ->
  words dataset = words dataset'
  /\ calculateSemanticSimilarity dataset other = calculateSemanticSimilarity dataset' other
  /\ calculateSemanticSimilarity dataset dataset' = 1.
Proof.
  intros Ht Hd.
  assert (Hw : words dataset = words dataset').
  { unfold words. rewrite !toLowerCase_app, Ht, Hd. reflexivity. }
  split; [exact Hw|]. split.
  - unfold calculateSemanticSimilarity. rewrite Hw. reflexivity.
  - unfold calculateSemanticSimilarity. rewrite Hw. apply jaccard_self, words_nonempty.
Qed.

Lemma semantic_ignores_case_witness :
  calculateSemanticSimilarity
    (sampleDataset "d1" "Sales Figures" sampleSchema "c1" "s1")
    (sampleDataset "d2" "SALES figures" [] "c2" "s2") = 1.
Proof.
  apply (semantic_ignores_case
           (sampleDataset "d1" "Sales Figures" sampleSchema "c1" "s1")
           (sampleDataset "d2" "SALES figures" [] "c2" "s2")
           (sampleDataset "d1" "Sales Figures" sampleSchema "c1" "s1")).
  - reflexivity.
  - reflexivity.
Defined.

(** X15.  Raising any of the three cutoffs never moves a confidence to a
    higher tier. *)
Theorem isDuplicate_monotone_in_thresholds
    (similarity : SimilarityMetrics.t) (low high : Thresholds.t) :
  Thresholds.exact low <= Thresholds.exact high ->
  Thresholds.similar low <= Thresholds.similar high ->
  Thresholds.potential low <= Thresholds.potential high ->
  (tierRank (isDuplicate similarity high) <= tierRank (isDuplicate similarity low))%nat.
Proof. apply isDuplicate_raised_thresholds. Qed.

Lemma isDuplicate_monotone_in_thresholds_witness :
  (tierRank (isDuplicate (SimilarityMetrics.mk 1 0.6 1 0.6 0.8) (Thresholds.mk 0.99 0.9 0.7))
   <= tierRank (isDuplicate (SimilarityMetrics.mk 1 0.6 1 0.6 0.8) defaultThresholds))%nat.
Proof.
  apply (isDuplicate_monotone_in_thresholds (SimilarityMetrics.mk 1 0.6 1 0.6 0.8)
           defaultThresholds (Thresholds.mk 0.99 0.9 0.7));
    unfold defaultThresholds;
    cbn [Thresholds.exact Thresholds.similar Thresholds.potential]; lra.
Defined.

End MetricsOfDatasets.

(** ** The scan of the registry as a function *)

Section Scan.

Variable toFixed : R -> nat -> string.

Lemma checkOne_expected (env : Env) (newDataset : Dataset.t) (k : nat)
    (log : list DuplicationAlert.t) (entry : string * Dataset.t) :
  checkOne toFixed env newDataset (k, log) entry
  = ((k + length (expectedAlerts toFixed env newDataset k [entry]))%nat,
     log ++ expectedAlerts toFixed env newDataset k [entry]).
Proof.
  destruct entry as [id existingDataset]. unfold checkOne, verdict.
  cbn [expectedAlerts]. unfold verdict.
  destruct (decide (id = Dataset.id newDataset)).
  { cbn [length]. rewrite Nat.add_0_r, app_nil_r. reflexivity. }
  destruct (isExactMatch newDataset existingDataset).
  { cbn [fst snd length]. rewrite Nat.add_1_r. reflexivity. }
  cbn [fst snd].
  destruct (isDuplicate (calculateSimilarityMetrics newDataset existingDataset) defaultThresholds);
    cbn [length]; rewrite ?Nat.add_1_r, ?Nat.add_0_r, ?app_nil_r; reflexivity.
Qed.

Lemma expectedAlerts_cons (env : Env) (newDataset : Dataset.t) (k : nat)
    (entry : string * Dataset.t) (rest : list (string * Dataset.t)) :
  expectedAlerts toFixed env newDataset k (entry :: rest)
  = expectedAlerts toFixed env newDataset k [entry]
    ++ expectedAlerts toFixed env newDataset
         (k + length (expectedAlerts toFixed env newDataset k [entry])) rest.
Proof.
  destruct entry as [id existingDataset]. cbn [expectedAlerts].
  destruct (decide (id = Dataset.id newDataset)).
  { cbn [length app]. rewrite Nat.add_0_r. reflexivity. }
  destruct (fst (verdict newDataset existingDataset));
    cbn [length app]; rewrite ?Nat.add_1_r, ?Nat.add_0_r; reflexivity.
Qed.

Lemma checkLoop_expected (env : Env) (newDataset : Dataset.t)
    (registry : list (string * Dataset.t)) : forall k log,
  foldl (checkOne toFixed env newDataset) (k, log) registry
  = ((k + length (expectedAlerts toFixed env newDataset k registry))%nat,
     log ++ expectedAlerts toFixed env newDataset k registry).
Proof.
  induction registry as [|entry registry IH]; intros k log.
  - simpl. rewrite Nat.add_0_r, app_nil_r. reflexivity.
  - change (foldl (checkOne toFixed env newDataset) (k, log) (entry :: registry))
      with (foldl (checkOne toFixed env newDataset)
              (checkOne toFixed env newDataset (k, log) entry) registry).
    rewrite checkOne_expected, IH, (expectedAlerts_cons env newDataset k entry registry).
    rewrite length_app, Nat.add_assoc, app_assoc. reflexivity.
Qed.

Lemma addDataset_expected (env : Env) (dataset : Dataset.t) (self : t) :
  addDataset toFixed env dataset self
  = mk (mapSet (Dataset.id dataset) dataset (datasets self))
       (alerts self
        ++ expectedAlerts toFixed env dataset 0
             (mapSet (Dataset.id dataset) dataset (datasets self))).
Proof.
  unfold addDataset, checkForDuplicates. cbn [datasets alerts].
  rewrite checkLoop_expected. reflexivity.
Qed.

(** Membership in the list of expected alerts. *)
Lemma expectedAlerts_In (env : Env) (newDataset : Dataset.t)
    (registry : list (string * Dataset.t)) (alert : DuplicationAlert.t) : forall k,
  In alert (expectedAlerts toFixed env newDataset k registry) ->
  exists id existingDataset rd,
    In (id, existingDataset) registry
    /\ id <> Dataset.id newDataset
    /\ fst (verdict newDataset existingDataset) <> TypeNone
    /\ alert = newAlert toFixed rd newDataset existingDataset
                 (fst (verdict newDataset existingDataset))
                 (snd (verdict newDataset existingDataset)).
Proof.
  induction registry as [|[id existingDataset] registry IH]; intros k Hin; [destruct Hin|].
  cbn [expectedAlerts] in Hin.
  assert (Hrest : forall k',
             In alert (expectedAlerts toFixed env newDataset k' registry) ->
             exists id0 existing0 rd,
               In (id0, existing0) ((id, existingDataset) :: registry)
               /\ id0 <> Dataset.id newDataset
               /\ fst (verdict newDataset existing0) <> TypeNone
               /\ alert = newAlert toFixed rd newDataset existing0
                            (fst (verdict newDataset existing0))
                            (snd (verdict newDataset existing0))).
  { intros k' Hk'. destruct (IH k' Hk') as (id0 & e0 & rd & H0 & H1 & H2 & H3).
    exists id0, e0, rd. repeat split; try assumption. right. exact H0. }
  destruct (decide (id = Dataset.id newDataset)) as [|Hne]; [apply (Hrest k), Hin|].
  destruct (fst (verdict newDataset existingDataset)) eqn:Ev;
    try (destruct Hin as [<-|Hin]; [|apply (Hrest (S k)), Hin];
         exists id, existingDataset, (env k); rewrite Ev;
         repeat split; [left; reflexivity | exact Hne | discriminate]).
  apply (Hrest k), Hin.
Qed.

Lemma expectedAlerts_complete (env : Env) (newDataset : Dataset.t)
    (registry : list (string * Dataset.t)) (id : string) (existingDataset : Dataset.t) : forall k,
  In (id, existingDataset) registry ->
  id <> Dataset.id newDataset ->
  fst (verdict newDataset existingDataset) <> TypeNone ->
  exists rd,
    In (newAlert toFixed rd newDataset existingDataset
          (fst (verdict newDataset existingDataset))
          (snd (verdict newDataset existingDataset)))
       (expectedAlerts toFixed env newDataset k registry).
Proof.
  induction registry as [|[id0 e0] registry IH]; intros k Hin Hne Hv; [destruct Hin|].
  cbn [expectedAlerts].
  destruct Hin as [[= -> ->]|Hin].
  - destruct (decide (id = Dataset.id newDataset)); [contradiction|].
    exists (env k).
    destruct (fst (verdict newDataset existingDataset)); try (left; reflexivity).
    congruence.
  - destruct (decide (id0 = Dataset.id newDataset)); [apply IH; assumption|].
    destruct (fst (verdict newDataset e0));
      try (destruct (IH (S k) Hin Hne Hv) as [rd Hrd]; exists rd; right; exact Hrd).
    apply IH; assumption.
Qed.

Lemma expectedAlerts_length (env : Env) (newDataset : Dataset.t)
    (registry : list (string * Dataset.t)) : forall k,
  (length (expectedAlerts toFixed env newDataset k registry)
   <= length (filter (fun key => key <> Dataset.id newDataset) (registryKeys registry)))%nat.
Proof.
  induction registry as [|[id e] registry IH]; intros k; [reflexivity|].
  cbn [expectedAlerts registryKeys map fst].
  fold (registryKeys registry).
  rewrite filter_cons.
  destruct (decide (id = Dataset.id newDataset)) as [Heq|Hne].
  - destruct (decide (id <> Dataset.id newDataset)); [contradiction|]. apply IH.
  - destruct (decide (id <> Dataset.id newDataset)); [|contradiction].
    destruct (fst (verdict newDataset e)); cbn [length];
      first [apply le_n_S, IH | apply Nat.le_le_succ_r, IH].
Qed.

End Scan.

(** ** Alerts of the similarity path and the invariant of the log *)

Section AlertLog.

Variable toFixed : R -> nat -> string.

Lemma isDuplicate_none_iff (similarity : SimilarityMetrics.t) :
  isDuplicate similarity defaultThresholds = TypeNone
  <-> SimilarityMetrics.confidence similarity < 0.6.
Proof.
  unfold isDuplicate, defaultThresholds.
  cbn [Thresholds.exact Thresholds.similar Thresholds.potential].
  destruct (Rge_dec (SimilarityMetrics.confidence similarity) 0.95);
    [split; [discriminate | lra]|].
  destruct (Rge_dec (SimilarityMetrics.confidence similarity) 0.8);
    [split; [discriminate | lra]|].
  destruct (Rge_dec (SimilarityMetrics.confidence similarity) 0.6);
    [split; [discriminate | lra]|].
  split; [lra | reflexivity].
Qed.

Lemma isDuplicate_bounds (similarity : SimilarityMetrics.t) :
  match isDuplicate similarity defaultThresholds with
  | TypeExact => 0.95 <= SimilarityMetrics.confidence similarity
  | TypeSimilar => 0.8 <= SimilarityMetrics.confidence similarity < 0.95
  | TypePotential => 0.6 <= SimilarityMetrics.confidence similarity < 0.8
  | TypeNone => SimilarityMetrics.confidence similarity < 0.6
  end.
Proof.
  unfold isDuplicate, defaultThresholds.
  cbn [Thresholds.exact Thresholds.similar Thresholds.potential].
  destruct (Rge_dec (SimilarityMetrics.confidence similarity) 0.95); [lra|].
  destruct (Rge_dec (SimilarityMetrics.confidence similarity) 0.8); [lra|].
  destruct (Rge_dec (SimilarityMetrics.confidence similarity) 0.6); lra.
Qed.

Lemma verdict_not_exact (newDataset existingDataset : Dataset.t) :
  isExactMatch newDataset existingDataset = false ->
  verdict newDataset existingDataset
  = (isDuplicate (calculateSimilarityMetrics newDataset existingDataset) defaultThresholds,
     SimilarityMetrics.confidence (calculateSimilarityMetrics newDataset existingDataset)).
Proof. intros H. unfold verdict. rewrite H. reflexivity. Qed.

(** X16.  For a registered dataset A and a new dataset B with another id
    whose hashes do not both match: when the confidence of their metrics is
    at least 0.6, [addDataset] appends an alert for the pair with the tier
    of that confidence as its type, that confidence as its confidence and
    the metrics as its similarities; when the confidence is below 0.6, no
    appended alert has A as its original dataset. *)
Theorem similarity_path_alert (env : Env) (A B : Dataset.t) (self : t) :
  In (Dataset.id A, A) (datasets self) ->
  Dataset.id A <> Dataset.id B ->
  isExactMatch B A = false ->
  exists new,
    alerts (addDataset toFixed env B self) = alerts self ++ new
    /\ (0.6 <= SimilarityMetrics.confidence (calculateSimilarityMetrics B A) ->
        exists alert,
          In alert new
          /\ DuplicationAlert.originalDataset alert = A
          /\ DuplicationAlert.duplicateDataset alert = B
          /\ DuplicationAlert.type alert
             = isDuplicate (calculateSimilarityMetrics B A) defaultThresholds
          /\ DuplicationAlert.type alert <> TypeNone
          /\ DuplicationAlert.confidence alert
             = SimilarityMetrics.confidence (calculateSimilarityMetrics B A)
          /\ DuplicationAlert.similarities alert = calculateSimilarityMetrics B A)
    /\ (SimilarityMetrics.confidence (calculateSimilarityMetrics B A) < 0.6 ->
        forall alert, In alert new -> DuplicationAlert.originalDataset alert <> A).
Proof.
  intros Hin Hne Hex.
  exists (expectedAlerts toFixed env B 0 (mapSet (Dataset.id B) B (datasets self))).
  rewrite addDataset_expected. cbn [alerts]. split; [reflexivity|].
  pose proof (verdict_not_exact B A Hex) as Hv. split.
  - intros Hconf.
    assert (Hnone : fst (verdict B A) <> TypeNone).
    { rewrite Hv. cbn [fst]. rewrite isDuplicate_none_iff. lra. }
    destruct (expectedAlerts_complete toFixed env B
                (mapSet (Dataset.id B) B (datasets self)) (Dataset.id A) A 0%nat
                (mapSet_keeps_others _ _ _ _ _ Hin Hne) Hne Hnone) as [rd Hrd].
    eexists. split; [exact Hrd|].
    rewrite Hv in *. cbn [fst snd] in *. cbn. repeat split. exact Hnone.
  - intros Hconf alert Halert Horig.
    destruct (expectedAlerts_In toFixed env B _ alert 0%nat Halert)
      as (id & e & rd & _ & _ & Hnone & ->).
    cbn [newAlert DuplicationAlert.originalDataset] in Horig. subst e.
    apply Hnone. rewrite Hv. cbn [fst]. apply isDuplicate_none_iff. exact Hconf.
Qed.

Lemma newAlert_consistent (rd : Reading) (newDataset existingDataset : Dataset.t) :
  fst (verdict newDataset existingDataset) <> TypeNone ->
  consistentAlert toFixed
    (newAlert toFixed rd newDataset existingDataset
       (fst (verdict newDataset existingDataset)) (snd (verdict newDataset existingDataset))).
Proof.
  intros Hnone. unfold consistentAlert. cbn. repeat split. exact Hnone.
Qed.

Lemma verdict_confidence (newDataset existingDataset : Dataset.t) :
  match fst (verdict newDataset existingDataset) with
  | TypeExact => 0.95 <= snd (verdict newDataset existingDataset)
  | TypeSimilar => 0.8 <= snd (verdict newDataset existingDataset) < 0.95
  | TypePotential => 0.6 <= snd (verdict newDataset existingDataset) < 0.8
  | TypeNone => True
  end.
Proof.
  unfold verdict. destruct (isExactMatch newDataset existingDataset); cbn [fst snd]; [lra|].
  pose proof (isDuplicate_bounds (calculateSimilarityMetrics newDataset existingDataset)) as Hb.
  destruct (isDuplicate (calculateSimilarityMetrics newDataset existingDataset) defaultThresholds);
    try exact I; lra.
Qed.

Lemma reachable_consistent (self : t) :
  reachable toFixed self -> Forall (consistentAlert toFixed) (alerts self).
Proof.
  induction 1 as [|env dataset self _ IH|now days self _ IH].
  - constructor.
  - rewrite addDataset_expected. cbn [alerts]. apply Forall_app. split; [exact IH|].
    apply List.Forall_forall. intros alert Hin.
    destruct (expectedAlerts_In toFixed env dataset _ alert 0%nat Hin)
      as (id & e & rd & _ & _ & Hnone & ->).
    apply newAlert_consistent, Hnone.
  - apply List.Forall_forall. intros alert Hin.
    apply clearOldAlerts_In in Hin. destruct Hin as [Hin _].
    rewrite List.Forall_forall in IH. apply IH, Hin.
Qed.

(** X17.  Every alert of the log of a service is what the scan decides for
    its two datasets: its type and confidence are those of the pair (type
    "exact" and confidence 1 when both hashes match, the tier and the
    confidence of the metrics otherwise), its similarities are the metrics
    of the pair and its recommendation is the text for that type.  Its type
    agrees with its confidence under the default cutoffs, and its confidence
    is at least 0.6. *)
Theorem alert_log_consistent (self : t) (alert : DuplicationAlert.t) :
  reachable toFixed self ->
  In alert (alerts self) ->
  consistentAlert toFixed alert
  /\ 0.6 <= DuplicationAlert.confidence alert
  /\ match DuplicationAlert.type alert with
     | TypeExact => 0.95 <= DuplicationAlert.confidence alert
     | TypeSimilar => 0.8 <= DuplicationAlert.confidence alert < 0.95
     | TypePotential => 0.6 <= DuplicationAlert.confidence alert < 0.8
     | TypeNone => False
     end.
Proof.
  intros Hreach Hin.
  pose proof (reachable_consistent self Hreach) as Hall.
  rewrite List.Forall_forall in Hall. specialize (Hall alert Hin).
  split; [exact Hall|].
  destruct Hall as (Htype & Hconf & Hnone & _).
  pose proof (verdict_confidence (DuplicationAlert.duplicateDataset alert)
                (DuplicationAlert.originalDataset alert)) as Hv.
  rewrite <- Htype, <- Hconf in Hv.
  destruct (DuplicationAlert.type alert); try contradiction; split; lra.
Qed.

End AlertLog.

Lemma similarity_path_alert_witness :
  exists new,
    alerts (addDataset sampleToFixed sampleEnv salesRevised
              (mk [(Dataset.id salesDataset, salesDataset)] [])) = [] ++ new
    /\ (0.6 <= SimilarityMetrics.confidence (calculateSimilarityMetrics salesRevised salesDataset) ->
        exists alert,
          In alert new
          /\ DuplicationAlert.originalDataset alert = salesDataset
          /\ DuplicationAlert.duplicateDataset alert = salesRevised
          /\ DuplicationAlert.type alert
             = isDuplicate (calculateSimilarityMetrics salesRevised salesDataset) defaultThresholds
          /\ DuplicationAlert.type alert <> TypeNone
          /\ DuplicationAlert.confidence alert
             = SimilarityMetrics.confidence (calculateSimilarityMetrics salesRevised salesDataset)
          /\ DuplicationAlert.similarities alert
             = calculateSimilarityMetrics salesRevised salesDataset)
    /\ (SimilarityMetrics.confidence (calculateSimilarityMetrics salesRevised salesDataset) < 0.6 ->
        forall alert, In alert new -> DuplicationAlert.originalDataset alert <> salesDataset).
Proof.
  apply (similarity_path_alert sampleToFixed sampleEnv salesDataset salesRevised
           (mk [(Dataset.id salesDataset, salesDataset)] [])).
  - left. reflexivity.
  - discriminate.
  - reflexivity.
Defined.

Lemma alert_log_consistent_witness :
  reachable sampleToFixed
    (addDataset sampleToFixed sampleEnv reportDataset
       (addDataset sampleToFixed sampleEnv salesDataset create))
  /\ (forall alert,
        In alert (alerts (addDataset sampleToFixed sampleEnv reportDataset
                            (addDataset sampleToFixed sampleEnv salesDataset create))) ->
        0.6 <= DuplicationAlert.confidence alert).
Proof.
  assert (Hreach : reachable sampleToFixed
                     (addDataset sampleToFixed sampleEnv reportDataset
                        (addDataset sampleToFixed sampleEnv salesDataset create))).
  { apply reachable_addDataset, reachable_addDataset, reachable_create. }
  split; [exact Hreach|].
  intros alert Hin.
  exact (proj1 (proj2 (alert_log_consistent sampleToFixed _ alert Hreach Hin))).
Defined.

(** ** The registry *)

Section Registry.

Variable toFixed : R -> nat -> string.

Lemma mapSet_keys (key : string) (value : Dataset.t) (m : list (string * Dataset.t)) :
  registryKeys (mapSet key value m)
  = if decide (key ∈ registryKeys m) then registryKeys m else registryKeys m ++ [key].
Proof.
  unfold registryKeys. induction m as [|[k v] m IH].
  - simpl. destruct (decide (key ∈ [])) as [Hin|_]; [|reflexivity].
    apply elem_of_nil in Hin. contradiction.
  - cbn [mapSet]. destruct (decide (k = key)) as [->|Hne].
    + cbn [map fst]. destruct (decide (key ∈ key :: map fst m)) as [_|Hn]; [reflexivity|].
      exfalso. apply Hn. apply list_elem_of_here.
    + cbn [map fst]. rewrite IH.
      destruct (decide (key ∈ map fst m)) as [Hin|Hnin];
        destruct (decide (key ∈ k :: map fst m)) as [Hin'|Hnin']; try reflexivity.
      * exfalso. apply Hnin'. apply list_elem_of_further. exact Hin.
      * exfalso. apply elem_of_cons in Hin'. destruct Hin' as [E|Hin']; [congruence | contradiction].
Qed.

Lemma mapSet_NoDup (key : string) (value : Dataset.t) (m : list (string * Dataset.t)) :
  NoDup (registryKeys m) -> NoDup (registryKeys (mapSet key value m)).
Proof.
  intros Hnd. rewrite mapSet_keys.
  destruct (decide (key ∈ registryKeys m)) as [|Hnin]; [exact Hnd|].
  apply NoDup_app. split; [exact Hnd|]. split.
  - intros x Hx Hx'. apply list_elem_of_singleton in Hx'. subst x. contradiction.
  - apply NoDup_singleton.
Qed.

Lemma mapSet_holds (key : string) (value : Dataset.t) (m : list (string * Dataset.t)) :
  In (key, value) (mapSet key value m).
Proof.
  induction m as [|[k v] m IH]; simpl; [left; reflexivity|].
  destruct (decide (k = key)); [left; reflexivity | right; exact IH].
Qed.

Lemma reachable_NoDup_keys (self : t) :
  reachable toFixed self -> NoDup (registryKeys (datasets self)).
Proof.
  induction 1 as [|env dataset self _ IH|now days self _ IH].
  - apply NoDup_nil_2.
  - rewrite addDataset_expected. cbn [datasets]. apply mapSet_NoDup, IH.
  - exact IH.
Qed.

(** X18.  In every state that a service reaches the registry holds one
    dataset per id, under its own id.  [addDataset] stores the dataset
    under its id, in place of the dataset that had that id if there was
    one and at the end otherwise, and keeps every entry with another id;
    [clearOldAlerts] leaves the registry as it is. *)
Theorem registry_one_dataset_per_id (self : t) :
  reachable toFixed self ->
  NoDup (registryKeys (datasets self))
  /\ keyedById (datasets self)
  /\ (forall env dataset,
        In (Dataset.id dataset, dataset) (datasets (addDataset toFixed env dataset self))
        /\ (forall other, In (Dataset.id dataset, other)
                            (datasets (addDataset toFixed env dataset self)) ->
                          other = dataset)
        /\ (forall key value, key <> Dataset.id dataset ->
              (In (key, value) (datasets (addDataset toFixed env dataset self))
               <-> In (key, value) (datasets self)))
        /\ registryKeys (datasets (addDataset toFixed env dataset self))
           = (if decide (Dataset.id dataset ∈ registryKeys (datasets self))
              then registryKeys (datasets self)
              else registryKeys (datasets self) ++ [Dataset.id dataset]))
  /\ (forall now days, datasets (clearOldAlerts now days self) = datasets self).
Proof.
  intros Hreach.
  split; [apply reachable_NoDup_keys, Hreach|].
  split; [apply (reachable_keyedById toFixed), Hreach|].
  split; [|reflexivity].
  intros env dataset. rewrite addDataset_expected. cbn [datasets].
  split; [apply mapSet_holds|]. split; [|split].
  - intros other Hin.
    pose proof (mapSet_NoDup (Dataset.id dataset) dataset (datasets self)
                  (reachable_NoDup_keys self Hreach)) as Hnd.
    pose proof (mapSet_holds (Dataset.id dataset) dataset (datasets self)) as Hd.
    revert Hnd Hin Hd. generalize (mapSet (Dataset.id dataset) dataset (datasets self)).
    intros m. unfold registryKeys. induction m as [|[k v] m IH]; intros Hnd Hin Hd; [destruct Hin|].
    change (NoDup (k :: map fst m)) in Hnd. apply NoDup_cons in Hnd. destruct Hnd as [Hk Hnd].
    destruct Hin as [Hin|Hin]; destruct Hd as [Hd|Hd].
    + congruence.
    + injection Hin as Ek Ev. subst k v.
      exfalso. apply Hk, list_elem_of_In. apply (in_map fst) in Hd. exact Hd.
    + injection Hd as Ek Ev. subst k v.
      exfalso. apply Hk, list_elem_of_In. apply (in_map fst) in Hin. exact Hin.
    + apply IH; assumption.
  - intros key value Hne. split.
    + intros Hin. apply mapSet_In in Hin. destruct Hin as [[= E _]|Hin]; [contradiction | exact Hin].
    + intros Hin. apply mapSet_keeps_others; assumption.
  - apply mapSet_keys.
Qed.

End Registry.

Lemma registry_one_dataset_per_id_witness :
  registryKeys (datasets (addDataset sampleToFixed sampleEnv salesResubmitted
                            (addDataset sampleToFixed sampleEnv salesDataset create)))
  = (if decide (Dataset.id salesResubmitted
                ∈ registryKeys (datasets (addDataset sampleToFixed sampleEnv salesDataset create)))
     then registryKeys (datasets (addDataset sampleToFixed sampleEnv salesDataset create))
     else registryKeys (datasets (addDataset sampleToFixed sampleEnv salesDataset create))
          ++ [Dataset.id salesResubmitted]).
Proof.
  pose proof (registry_one_dataset_per_id sampleToFixed
                (addDataset sampleToFixed sampleEnv salesDataset create)
                (reachable_addDataset _ _ _ _ (reachable_create _)))
    as (_ & _ & Hadd & _).
  exact (proj2 (proj2 (proj2 (Hadd sampleEnv salesResubmitted)))).
Defined.

(** ** Counting the alerts of one insertion *)

Section AlertCount.

Variable toFixed : R -> nat -> string.

Lemma other_keys_bound (key : string) (value : Dataset.t) (m : list (string * Dataset.t)) :
  (length (filter (fun k => k <> key) (registryKeys (mapSet key value m))) <= length m)%nat.
Proof.
  rewrite mapSet_keys.
  assert (Hlen : length (registryKeys m) = length m) by apply length_map.
  destruct (decide (key ∈ registryKeys m)).
  - rewrite <- Hlen. apply length_filter.
  - rewrite filter_app, length_app, <- Hlen.
    rewrite filter_cons, filter_nil.
    destruct (decide (key <> key)) as [Hn|_]; [congruence|].
    cbn [length]. rewrite Nat.add_0_r. apply length_filter.
Qed.

Lemma expectedAlerts_originals (env : Env) (newDataset : Dataset.t)
    (registry : list (string * Dataset.t)) : forall k,
  keyedById registry ->
  map (fun alert => Dataset.id (DuplicationAlert.originalDataset alert))
    (expectedAlerts toFixed env newDataset k registry)
  `sublist_of` registryKeys registry.
Proof.
  induction registry as [|[id e] registry IH]; intros k Hkeyed; [constructor|].
  assert (Hrest : keyedById registry).
  { intros key v Hin. apply Hkeyed. right. exact Hin. }
  assert (Hid : id = Dataset.id e) by (apply Hkeyed; left; reflexivity).
  cbn [expectedAlerts registryKeys map fst]. fold (registryKeys registry).
  destruct (decide (id = Dataset.id newDataset)); [apply sublist_cons, IH, Hrest|].
  destruct (fst (verdict newDataset e));
    first [apply sublist_cons, IH, Hrest
          | cbn [map newAlert DuplicationAlert.originalDataset]; rewrite <- Hid;
            apply sublist_skip, IH, Hrest].
Qed.

(** The alerts that one call appends. *)
Lemma appended_alerts (env : Env) (dataset : Dataset.t) (self : t) :
  reachable toFixed self ->
  exists new,
    alerts (addDataset toFixed env dataset self) = alerts self ++ new
    /\ (length new <= length (datasets self))%nat
    /\ (forall alert, In alert new ->
          DuplicationAlert.duplicateDataset alert = dataset
          /\ Dataset.id (DuplicationAlert.originalDataset alert) <> Dataset.id dataset
          /\ In (Dataset.id (DuplicationAlert.originalDataset alert),
                 DuplicationAlert.originalDataset alert) (datasets self))
    /\ NoDup (map (fun alert => Dataset.id (DuplicationAlert.originalDataset alert)) new).
Proof.
  intros Hreach.
  exists (expectedAlerts toFixed env dataset 0 (mapSet (Dataset.id dataset) dataset (datasets self))).
  rewrite addDataset_expected. cbn [alerts]. split; [reflexivity|].
  pose proof (reachable_keyedById toFixed self Hreach) as Hkeyed.
  pose proof (mapSet_keyedById dataset (datasets self) Hkeyed) as Hkeyed'.
  split; [|split].
  - etransitivity; [apply expectedAlerts_length | apply other_keys_bound].
  - intros alert Hin.
    destruct (expectedAlerts_In toFixed env dataset _ alert 0%nat Hin)
      as (id & e & rd & Hentry & Hne & _ & ->).
    cbn [newAlert DuplicationAlert.duplicateDataset DuplicationAlert.originalDataset].
    pose proof (Hkeyed' id e Hentry) as Hid. subst id.
    split; [reflexivity|]. split; [exact Hne|].
    apply mapSet_In in Hentry. destruct Hentry as [[= E _]|Hentry]; [contradiction | exact Hentry].
  - eapply sublist_NoDup; [|apply expectedAlerts_originals, Hkeyed'].
    apply mapSet_NoDup, (reachable_NoDup_keys toFixed), Hreach.
Qed.

(** X19.  One call of [addDataset] appends at most as many alerts as the
    registry held datasets before the call, each with the new dataset as
    its duplicate; in a state that a service reaches, the originals of the
    appended alerts are registered datasets with pairwise different ids,
    none of them the id of the new dataset: a pair of datasets gets at most
    one alert. *)
Theorem addDataset_one_alert_per_dataset (env : Env) (dataset : Dataset.t) (self : t) :
  reachable toFixed self ->
  exists new,
    alerts (addDataset toFixed env dataset self) = alerts self ++ new
    /\ (length new <= length (datasets self))%nat
    /\ (forall alert, In alert new ->
          DuplicationAlert.duplicateDataset alert = dataset
          /\ Dataset.id (DuplicationAlert.originalDataset alert) <> Dataset.id dataset
          /\ In (Dataset.id (DuplicationAlert.originalDataset alert),
                 DuplicationAlert.originalDataset alert) (datasets self))
    /\ NoDup (map (fun alert => Dataset.id (DuplicationAlert.originalDataset alert)) new).
Proof. apply appended_alerts. Qed.

End AlertCount.

Lemma addDataset_one_alert_per_dataset_witness :
  exists new,
    alerts (addDataset sampleToFixed sampleEnv salesRevised
              (addDataset sampleToFixed sampleEnv reportDataset
                 (addDataset sampleToFixed sampleEnv salesDataset create)))
    = alerts (addDataset sampleToFixed sampleEnv reportDataset
                (addDataset sampleToFixed sampleEnv salesDataset create)) ++ new
    /\ (length new
        <= length (datasets (addDataset sampleToFixed sampleEnv reportDataset
                               (addDataset sampleToFixed sampleEnv salesDataset create))))%nat.
Proof.
  destruct (addDataset_one_alert_per_dataset sampleToFixed sampleEnv salesRevised
              (addDataset sampleToFixed sampleEnv reportDataset
                 (addDataset sampleToFixed sampleEnv salesDataset create)))
    as (new & Hadd & Hlen & _).
  - apply reachable_addDataset, reachable_addDataset, reachable_create.
  - exists new. split; assumption.
Defined.

(** ** Queries and retention *)

Section Queries.

Variable toFixed : R -> nat -> string.

Lemma mapSet_keys_grow (key : string) (value : Dataset.t) (m : list (string * Dataset.t)) (k : string) :
  k ∈ registryKeys m -> k ∈ registryKeys (mapSet key value m).
Proof.
  intros Hk. rewrite mapSet_keys.
  destruct (decide (key ∈ registryKeys m)); [exact Hk|].
  apply elem_of_app. left. exact Hk.
Qed.

Lemma mapSet_key_registered (key : string) (value : Dataset.t) (m : list (string * Dataset.t)) :
  key ∈ registryKeys (mapSet key value m).
Proof.
  apply list_elem_of_In. unfold registryKeys.
  apply (in_map fst _ (key, value)), mapSet_holds.
Qed.

Lemma reachable_alert_ids_registered (self : t) :
  reachable toFixed self ->
  forall alert, In alert (alerts self) ->
    Dataset.id (DuplicationAlert.originalDataset alert) ∈ registryKeys (datasets self)
    /\ Dataset.id (DuplicationAlert.duplicateDataset alert) ∈ registryKeys (datasets self).
Proof.
  induction 1 as [|env dataset self Hreach IH|now days self _ IH]; intros alert Hin.
  - destruct Hin.
  - destruct (appended_alerts toFixed env dataset self Hreach)
      as (new & Hadd & _ & Hnew & _).
    rewrite Hadd in Hin. rewrite addDataset_expected. cbn [datasets].
    apply in_app_or in Hin. destruct Hin as [Hold|Hin].
    + destruct (IH alert Hold). split; apply mapSet_keys_grow; assumption.
    + destruct (Hnew alert Hin) as (-> & _ & Hentry). split.
      * apply mapSet_keys_grow, list_elem_of_In.
        apply (in_map fst) in Hentry. exact Hentry.
      * apply mapSet_key_registered.
  - apply clearOldAlerts_In in Hin. apply IH, Hin.
Qed.

Lemma filter_none {A : Type} (P : A -> Prop) `{!forall x, Decision (P x)} (l : list A) :
  (forall x, In x l -> ~ P x) -> filter P l = [].
Proof.
  induction l as [|x l IH]; intros Hall; [reflexivity|].
  rewrite filter_cons. destruct (decide (P x)) as [Hp|_].
  - exfalso. apply (Hall x); [left; reflexivity | exact Hp].
  - apply IH. intros y Hy. apply Hall. right. exact Hy.
Qed.

Lemma filter_every {A : Type} (P : A -> Prop) `{!forall x, Decision (P x)} (l : list A) :
  (forall x, In x l -> P x) -> filter P l = l.
Proof.
  induction l as [|x l IH]; intros Hall; [reflexivity|].
  rewrite filter_cons. destruct (decide (P x)) as [_|Hn].
  - f_equal. apply IH. intros y Hy. apply Hall. right. exact Hy.
  - exfalso. apply Hn, Hall. left. reflexivity.
Qed.

(** X20.  In a state that a service reaches, [getAlertsForDataset] returns
    the empty list for an id that the registry does not hold; and right
    after [addDataset] of a dataset whose id was not held, it returns for
    that id exactly the alerts that this call appended, in their order. *)
Theorem getAlertsForDataset_of_new_dataset (self : t) :
  reachable toFixed self ->
  (forall datasetId,
      datasetId ∉ registryKeys (datasets self) -> getAlertsForDataset datasetId self = [])
  /\ (forall env dataset,
        Dataset.id dataset ∉ registryKeys (datasets self) ->
        exists new,
          alerts (addDataset toFixed env dataset self) = alerts self ++ new
          /\ getAlertsForDataset (Dataset.id dataset) (addDataset toFixed env dataset self) = new).
Proof.
  intros Hreach.
  assert (Hnone : forall datasetId,
             datasetId ∉ registryKeys (datasets self) -> getAlertsForDataset datasetId self = []).
  { intros datasetId Hnin. unfold getAlertsForDataset. apply filter_none.
    intros alert Hin [E|E];
      destruct (reachable_alert_ids_registered self Hreach alert Hin) as [Ho Hd];
      apply Hnin; rewrite <- E; assumption. }
  split; [exact Hnone|].
  intros env dataset Hnin.
  destruct (appended_alerts toFixed env dataset self Hreach)
    as (new & Hadd & _ & Hnew & _).
  exists new. split; [exact Hadd|].
  unfold getAlertsForDataset. rewrite Hadd, filter_app.
  fold (getAlertsForDataset (Dataset.id dataset) self). rewrite (Hnone _ Hnin).
  cbn [app]. apply filter_every.
  intros alert Hin. right. destruct (Hnew alert Hin) as [-> _]. reflexivity.
Qed.


End Queries.

Lemma getAlertsForDataset_of_new_dataset_witness :
  reachable sampleToFixed (addDataset sampleToFixed sampleEnv salesDataset create)
  /\ getAlertsForDataset "dataset_9" (addDataset sampleToFixed sampleEnv salesDataset create) = [].
Proof.
  assert (Hreach : reachable sampleToFixed (addDataset sampleToFixed sampleEnv salesDataset create)).
  { apply reachable_addDataset, reachable_create. }
  split; [exact Hreach|].
  apply (proj1 (getAlertsForDataset_of_new_dataset sampleToFixed _ Hreach)).
  rewrite addDataset_first. cbn [datasets registryKeys map fst].
  intros Hin. apply list_elem_of_singleton in Hin. discriminate.
Defined.

(** ** Datasets without a common column *)

Section DisjointColumns.

Lemma disjoint_columns_confidence (A B : Dataset.t) :
  (forall key, In key (Object_keys (DatasetMetadata.dataTypes (Dataset.metadata B))) ->
               ~ In key (Object_keys (DatasetMetadata.dataTypes (Dataset.metadata A)))) ->
  DatasetMetadata.dataTypes (Dataset.metadata B) <> []
  \/ DatasetMetadata.dataTypes (Dataset.metadata A) <> [] ->
  SimilarityMetrics.jaccard (calculateSimilarityMetrics B A) = 0
  /\ SimilarityMetrics.structural (calculateSimilarityMetrics B A) = 0
  /\ SimilarityMetrics.confidence (calculateSimilarityMetrics B A)
     = (0 + 0 + SimilarityMetrics.cosine (calculateSimilarityMetrics B A)
        + SimilarityMetrics.semantic (calculateSimilarityMetrics B A)) / 4.
Proof.
  intros Hdisj Hsome.
  set (schemaA := DatasetMetadata.dataTypes (Dataset.metadata A)) in *.
  set (schemaB := DatasetMetadata.dataTypes (Dataset.metadata B)) in *.
  assert (Hcommon : size (filterHas (newSet (Object_keys schemaB)) (newSet (Object_keys schemaA)))
                    = 0%nat).
  { assert (E : filterHas (newSet (Object_keys schemaB)) (newSet (Object_keys schemaA)) = ∅).
    { apply set_eq. intros key.
      rewrite filterHas_intersection, elem_of_intersection. unfold newSet.
      rewrite !elem_of_list_to_set, !list_elem_of_In. split.
      - intros [Hb Ha]. exfalso. exact (Hdisj key Hb Ha).
      - intros Hempty. apply not_elem_of_empty in Hempty. contradiction. }
    rewrite E. apply size_empty. }
  assert (Hall : size (newSet (Object_keys schemaB) ∪ newSet (Object_keys schemaA)) <> 0%nat).
  { intros Hz. apply size_zero_empty, empty_union_L in Hz. destruct Hz as [Hb Ha].
    destruct Hsome as [Hs|Hs]; apply Hs.
    - destruct schemaB as [|[k v] r]; [reflexivity|]. exfalso.
      assert (Hk : k ∈ newSet (Object_keys ((k, v) :: r))).
      { unfold newSet. apply elem_of_list_to_set. apply list_elem_of_here. }
      rewrite Hb in Hk. apply not_elem_of_empty in Hk. exact Hk.
    - destruct schemaA as [|[k v] r]; [reflexivity|]. exfalso.
      assert (Hk : k ∈ newSet (Object_keys ((k, v) :: r))).
      { unfold newSet. apply elem_of_list_to_set. apply list_elem_of_here. }
      rewrite Ha in Hk. apply not_elem_of_empty in Hk. exact Hk. }
  assert (Hj : calculateJaccardSimilarity (newSet (Object_keys schemaB)) (newSet (Object_keys schemaA))
               = 0).
  { unfold calculateJaccardSimilarity.
    destruct (decide (size (newSet (Object_keys schemaB) ∪ newSet (Object_keys schemaA)) = 0%nat));
      [reflexivity|].
    rewrite Hcommon. simpl INR. unfold Rdiv. apply Rmult_0_l. }
  assert (Hs : calculateStructuralSimilarity schemaB schemaA = 0).
  { unfold calculateStructuralSimilarity, keysSimilarity, typesSimilarity.
    destruct (decide (size (newSet (Object_keys schemaB) ∪ newSet (Object_keys schemaA)) = 0%nat));
      [contradiction|].
    destruct (decide (size (filterHas (newSet (Object_keys schemaB)) (newSet (Object_keys schemaA)))
                      = 0%nat)); [|contradiction].
    rewrite Hcommon. simpl INR. unfold Rdiv. rewrite !Rmult_0_l, Rplus_0_l. apply Rmult_0_l. }
  unfold calculateSimilarityMetrics. cbn [SimilarityMetrics.confidence
    SimilarityMetrics.jaccard SimilarityMetrics.cosine SimilarityMetrics.structural
    SimilarityMetrics.semantic].
  fold schemaA schemaB.
  rewrite Hj, Hs. repeat split.
Qed.

(** X22.  When two datasets A and B have no column name in common and at
    least one of them has a column, the Jaccard and the structural score of
    the pair are 0: its confidence is the mean of 0, 0, the cosine score and
    the semantic score. *)
Theorem disjoint_columns_scores (A B : Dataset.t) :
  (forall key, In key (Object_keys (DatasetMetadata.dataTypes (Dataset.metadata B))) ->
               ~ In key (Object_keys (DatasetMetadata.dataTypes (Dataset.metadata A)))) ->
  DatasetMetadata.dataTypes (Dataset.metadata B) <> []
  \/ DatasetMetadata.dataTypes (Dataset.metadata A) <> [] ->
  SimilarityMetrics.jaccard (calculateSimilarityMetrics B A) = 0
  /\ SimilarityMetrics.structural (calculateSimilarityMetrics B A) = 0
  /\ SimilarityMetrics.confidence (calculateSimilarityMetrics B A)
     = (0 + 0 + SimilarityMetrics.cosine (calculateSimilarityMetrics B A)
        + SimilarityMetrics.semantic (calculateSimilarityMetrics B A)) / 4.
Proof. apply disjoint_columns_confidence. Qed.

End DisjointColumns.

Lemma disjoint_columns_scores_witness :
  SimilarityMetrics.jaccard (calculateSimilarityMetrics sensorDataset salesDataset) = 0
  /\ SimilarityMetrics.structural (calculateSimilarityMetrics sensorDataset salesDataset) = 0.
Proof.
  destruct (disjoint_columns_scores salesDataset sensorDataset) as (Hj & Hs & _).
  - intros key Hb Ha. simpl in Hb, Ha.
    destruct Hb as [<-|[<-|[]]]; destruct Ha as [E|[E|[]]]; discriminate.
  - left. discriminate.
  - split; assumption.
Defined.

(** ** The schema string determines the schema *)

Section SchemaString.

Import DatasetFingerprintingService.

Example schemaString_collision :
  schemaString codeUnitCompare [("a", "b|c:d")]%string
  = schemaString codeUnitCompare [("a", "b"); ("c", "d")]%string.
Proof. reflexivity. Qed.

Lemma hasChar_app (c : ascii) (a : string) : forall b,
  hasChar c (a +:+ b) = hasChar c a || hasChar c b.
Proof.
  induction a as [|d a IH]; intros b; simpl; [reflexivity|].
  destruct (decide (d = c)); [reflexivity | apply IH].
Qed.

Lemma append_delimiter_inj (c : ascii) (a : string) : forall a' r r',
  hasChar c a = false -> hasChar c a' = false ->
  a +:+ String c r = a' +:+ String c r' -> a = a' /\ r = r'.
Proof.
  induction a as [|d a IH]; intros [|d' a'] r r' Ha Ha' E; simpl in *.
  - injection E as ->. split; reflexivity.
  - injection E as E1 E2. subst d'.
    destruct (decide (c = c)); [discriminate | contradiction].
  - injection E as E1 E2. subst d.
    destruct (decide (c = c)); [discriminate | contradiction].
  - injection E as E1 E2. subst d'.
    destruct (decide (d = c)); [discriminate|].
    destruct (IH a' r r' Ha Ha' E2) as [-> ->]. split; reflexivity.
Qed.

Lemma no_delimiter_no_split (c : ascii) (a b r : string) :
  hasChar c a = false -> a <> b +:+ String c r.
Proof.
  intros Ha E. rewrite E, hasChar_app in Ha. simpl in Ha.
  destruct (decide (c = c)); [|contradiction].
  rewrite orb_true_r in Ha. discriminate.
Qed.

Lemma join_cons2 (sep x y : string) (l : list string) :
  join sep (x :: y :: l) = x +:+ sep +:+ join sep (y :: l).
Proof. reflexivity. Qed.

Lemma join_bar_inj (l : list string) : forall l',
  Forall (fun x => hasChar "|" x = false /\ x <> EmptyString) l ->
  Forall (fun x => hasChar "|" x = false /\ x <> EmptyString) l' ->
  join "|" l = join "|" l' -> l = l'.
Proof.
  induction l as [|x l IH]; intros l' Hl Hl' E.
  - destruct l' as [|x' [|y' l']]; [reflexivity | |].
    + apply Forall_inv in Hl'. simpl in E. destruct Hl' as [_ Hne]. congruence.
    + apply Forall_inv in Hl'. destruct Hl' as [_ Hne].
      rewrite join_cons2 in E. destruct x'; [congruence | discriminate].
  - apply Forall_cons_1 in Hl. destruct Hl as [[Hx Hxne] Hl].
    destruct l' as [|x' l'].
    + destruct l as [|y l]; [simpl in E; congruence|].
      rewrite join_cons2 in E. destruct x; [congruence | discriminate].
    + apply Forall_cons_1 in Hl'. destruct Hl' as [[Hx' Hxne'] Hl'].
      destruct l as [|y l], l' as [|y' l'].
      * simpl in E. congruence.
      * rewrite join_cons2 in E. change (join "|" [x]) with x in E.
        exfalso. exact (no_delimiter_no_split "|" x x' _ Hx E).
      * rewrite join_cons2 in E. change (join "|" [x']) with x' in E.
        exfalso. symmetry in E. exact (no_delimiter_no_split "|" x' x _ Hx' E).
      * rewrite !join_cons2 in E.
        destruct (append_delimiter_inj "|" x x' _ _ Hx Hx' E) as [-> E'].
        f_equal. apply IH; assumption.
Qed.

Lemma entry_string_inj (e e' : string * string) :
  hasChar ":" (fst e) = false -> hasChar ":" (fst e') = false ->
  fst e +:+ ":" +:+ snd e = fst e' +:+ ":" +:+ snd e' -> e = e'.
Proof.
  destruct e as [k t], e' as [k' t']. cbn [fst snd]. intros Hk Hk' E.
  destruct (append_delimiter_inj ":" k k' t t' Hk Hk' E) as [-> ->]. reflexivity.
Qed.

Lemma entry_strings_inj (l : list (string * string)) : forall l',
  delimiterFree l -> delimiterFree l' ->
  map (fun '(key, type) => key +:+ ":" +:+ type) l
  = map (fun '(key, type) => key +:+ ":" +:+ type) l' ->
  l = l'.
Proof.
  unfold delimiterFree.
  induction l as [|e l IH]; intros [|e' l'] Hl Hl' E; try discriminate; [reflexivity|].
  apply Forall_cons_1 in Hl. destruct Hl as [(Hk & _) Hl].
  apply Forall_cons_1 in Hl'. destruct Hl' as [(Hk' & _) Hl'].
  cbn [map] in E. injection E as E1 E2.
  f_equal; [|apply IH; assumption].
  apply entry_string_inj; [assumption | assumption |].
  destruct e, e'. exact E1.
Qed.

Lemma entry_strings_no_bar (l : list (string * string)) :
  delimiterFree l ->
  Forall (fun x => hasChar "|" x = false /\ x <> EmptyString)
    (map (fun '(key, type) => key +:+ ":" +:+ type) l).
Proof.
  unfold delimiterFree. induction l as [|[k t] l IH]; intros Hl; [constructor|].
  apply Forall_cons_1 in Hl. destruct Hl as [(_ & Hk & Ht) Hl]. cbn [fst snd] in *.
  cbn [map]. constructor; [|apply IH, Hl]. split.
  - rewrite hasChar_app, Hk. simpl. exact Ht.
  - destruct k; discriminate.
Qed.

(** X23.  For two schemas whose column names hold neither [:] nor [|] and
    whose types hold no [|], equal schema strings mean the same entries up
    to their order, whatever the collation is.  Without the condition on
    the delimiters two different schemas can have the same schema
    string. *)
Theorem schemaString_determines_schema
    (localeCompare : string -> string -> comparison) (schema1 schema2 : JsRecord) :
  delimiterFree schema1 ->
  delimiterFree schema2 ->
  schemaString localeCompare schema1 = schemaString localeCompare schema2 ->
  Permutation schema1 schema2.
Proof.
  intros Hd1 Hd2 E. unfold schemaString, Object_entries in E.
  set (cmp := fun a b : string * string => localeCompare (fst a) (fst b)) in *.
  assert (Hs1 : delimiterFree (sortBy cmp schema1)).
  { unfold delimiterFree. rewrite (sortBy_perm cmp schema1). exact Hd1. }
  assert (Hs2 : delimiterFree (sortBy cmp schema2)).
  { unfold delimiterFree. rewrite (sortBy_perm cmp schema2). exact Hd2. }
  apply join_bar_inj in E; [|apply entry_strings_no_bar; assumption ..].
  apply entry_strings_inj in E; [|assumption ..].
  rewrite <- (sortBy_perm cmp schema1), E. apply sortBy_perm.
Qed.

End SchemaString.

Lemma schemaString_determines_schema_witness :
  Permutation [("id", "number"); ("name", "string")]%string
              [("name", "string"); ("id", "number")]%string.
Proof.
  apply (schemaString_determines_schema codeUnitCompare
           [("id", "number"); ("name", "string")]%string
           [("name", "string"); ("id", "number")]%string).
  - repeat constructor.
  - repeat constructor.
  - reflexivity.
Defined.

(** ** Bloom filter over hexadecimal digests *)

Section BloomHex.

Import DatasetFingerprintingService.

Lemma hexDigitValue_nonneg (c : ascii) (d : Z) : hexDigitValue c = Some d -> (0 <= d)%Z.
Proof.
  unfold hexDigitValue.
  repeat match goal with |- context [if ?b then _ else _] => destruct b end;
    intros [= <-]; lia.
Qed.

Lemma parseHexDigits_seen (s : string) : forall acc,
  (0 <= acc)%Z -> exists v, parseHexDigits s acc true = Some v /\ (0 <= v)%Z.
Proof.
  induction s as [|c s IH]; intros acc Hacc; simpl.
  - exists acc. split; [reflexivity | exact Hacc].
  - destruct (hexDigitValue c) as [d|] eqn:E.
    + apply IH. pose proof (hexDigitValue_nonneg c d E). lia.
    + exists acc. split; [reflexivity | exact Hacc].
Qed.

Lemma parseHexDigits_digit (c : ascii) (s : string) :
  hexDigitValue c <> None ->
  exists v, parseHexDigits (String c s) 0 false = Some v /\ (0 <= v)%Z.
Proof.
  intros Hc. simpl. destruct (hexDigitValue c) as [d|] eqn:E; [|contradiction].
  apply parseHexDigits_seen. pose proof (hexDigitValue_nonneg c d E). lia.
Qed.

Lemma hexDigit_plain (c : ascii) :
  hexDigitValue c <> None ->
  isWhiteSpace c = false /\ c <> "-"%char /\ c <> "+"%char /\ c <> "x"%char /\ c <> "X"%char.
Proof.
  intros Hc.
  destruct c as [[] [] [] [] [] [] [] []];
    first [exfalso; apply Hc; reflexivity
          | repeat split; first [reflexivity | discriminate]].
Qed.

(** A string that starts with a digit and has no [x] after a leading zero
    is read from its first digit. *)
Lemma parseIntHex_digits (c : ascii) (s : string) :
  hexDigitValue c <> None ->
  (forall c' s', s = String c' s' -> hexDigitValue c' <> None) ->
  parseIntHex (String c s) = parseHexDigits (String c s) 0 false.
Proof.
  intros Hc Hnext.
  destruct (hexDigit_plain c Hc) as (Hws & Hminus & Hplus & _).
  unfold parseIntHex. cbn [trimStart]. rewrite Hws.
  destruct (decide (c = "-"%char)); [contradiction|].
  destruct (decide (c = "+"%char)); [contradiction|].
  assert (Hs3 : match String c s with
                | String c0 (String c1 r) =>
                    if decide (c0 = "0"%char /\ (c1 = "x"%char \/ c1 = "X"%char))
                    then r else String c s
                | _ => String c s
                end = String c s).
  { destruct s as [|c1 r]; [reflexivity|].
    destruct (hexDigit_plain c1 (Hnext c1 r eq_refl)) as (_ & _ & _ & Hx & HX).
    destruct (decide (c = "0"%char /\ (c1 = "x"%char \/ c1 = "X"%char))) as [[_ [E|E]]|_];
      [contradiction | contradiction | reflexivity]. }
  rewrite Hs3. destruct (parseHexDigits (String c s) 0 false); reflexivity.
Qed.

Lemma parseIntHex_hexString (s : string) :
  hexString s -> exists v, parseIntHex s = Some v /\ (0 <= v)%Z.
Proof.
  intros [Hne Hall]. destruct s as [|c s]; [congruence|].
  assert (Hc : hexDigitValue c <> None) by (apply (Hall 0%nat); reflexivity).
  rewrite parseIntHex_digits; [apply parseHexDigits_digit, Hc | exact Hc |].
  intros c' s' ->. apply (Hall 1%nat). reflexivity.
Qed.

Lemma substring_get (n : nat) : forall (s : string) (i : nat) (c : ascii),
  String.get i (substring 0 n s) = Some c -> String.get i s = Some c.
Proof.
  induction n as [|n IH]; intros s i c H.
  - destruct s; simpl in H; destruct i; discriminate.
  - destruct s as [|d s]; [exact H|]. simpl in H. destruct i as [|i]; [exact H|].
    simpl. apply IH. exact H.
Qed.

Lemma substring_hexString (n : nat) (s : string) :
  hexString s -> hexString (substring 0 (S n) s).
Proof.
  intros [Hne Hall]. split.
  - destruct s; [congruence | discriminate].
  - intros i c H. apply (Hall i). apply (substring_get (S n)). exact H.
Qed.

Variable sha256Hex : string -> string.

Hypothesis digest_is_hex : forall s, hexString (sha256Hex s).

Lemma bloomIndex_defined (size : nat) (item : string) (i : nat) :
  size <> 0%nat ->
  exists j, bloomIndex sha256Hex size item i = Some j /\ (j < size)%nat.
Proof.
  intros Hsize. unfold bloomIndex.
  destruct (parseIntHex_hexString _ (substring_hexString 7 _ (digest_is_hex (item +:+ showNat i))))
    as (v & -> & Hv).
  destruct (decide (size = 0%nat)); [contradiction|].
  pose proof (Z.rem_bound_pos v (Z.of_nat size) Hv ltac:(lia)) as Hr.
  destruct (decide (0 <= Z.rem v (Z.of_nat size))%Z); [|lia].
  eexists. split; [reflexivity | lia].
Qed.

(** X24.  When every digest is a string of hexadecimal digits and the
    filter has at least one cell, each of the [hashCount] digests of each
    item selects a cell; so the filter of a list with at least one item,
    built with at least one digest per item, has at least one cell set. *)
Theorem createBloomFilter_hex_digest (items : list string) (size hashCount : nat) :
  size <> 0%nat ->
  (forall item i, exists j, bloomIndex sha256Hex size item i = Some j /\ (j < size)%nat)
  /\ (items <> [] -> hashCount <> 0%nat ->
      exists j, (j < size)%nat
                /\ String.get j (createBloomFilter sha256Hex items size hashCount)
                   = Some "1"%char).
Proof.
  intros Hsize. split; [intros item i; apply bloomIndex_defined, Hsize|].
  intros Hitems Hcount. destruct items as [|item items]; [congruence|].
  destruct (bloomIndex_defined size item 0 Hsize) as (j & Hj & Hlt).
  exists j. split; [exact Hlt|].
  apply filter_cell_one, bloomBits_lookup.
  exists item. split; [left; reflexivity|].
  exists 0%nat. split; [lia | exact Hj].
Qed.

End BloomHex.

Lemma createBloomFilter_hex_digest_witness :
  exists j, (j < 16)%nat
            /\ String.get j (DatasetFingerprintingService.createBloomFilter
                               (fun _ => "0000002a"%string) ["a"; "b"]%string 16 3)
               = Some "1"%char.
Proof.
  apply (createBloomFilter_hex_digest (fun _ => "0000002a"%string)).
  - intros s. split; [discriminate|].
    intros i c H.
    do 8 (destruct i as [|i]; [injection H as <-; discriminate|]).
    destruct i; discriminate.
  - discriminate.
  - discriminate.
  - discriminate.
Defined.
